(** * TinyMCP (mcp_sdk): the JSON-RPC codec, the server and client message
      routers and the stdio reader, embedded from the C++ sources.

    Source files embedded here:
    - [mcp_sdk/src/core/error.cpp]               ([MCPError], error codes)
    - [mcp_sdk/src/core/types_simple.cpp]        ([RequestId])
    - [mcp_sdk/src/core/message.cpp]             ([Request], [Response], [Notification])
    - [mcp_sdk/src/tools/tools.cpp], [resources/resources.cpp], [prompts/prompts.cpp]
    - [mcp_sdk/src/server/server.cpp]            ([MCPServer])
    - [mcp_sdk/src/client/client.cpp]            ([MCPClient])
    - [mcp_sdk/src/transport/stdio_transport.cpp], [http_transport.cpp]

    The class declarations that these files were compiled against are not
    among the sources (the headers of the same names declare other classes).
    The members are read off the member functions; [ErrorCode] and [RequestId]
    are declared in [include/mcp/error_simple.hpp] and [types_simple.hpp].

    Conventions.
    - C++ exceptions are explicit: a function that may throw returns [res A].
    - [nlohmann::json] is a third-party library.  Its values are the inductive
      [json]; objects are [std::map]s, hence [gmap string json].  The text of a
      frame is abstracted to the document that [dump()] wrote it for, see
      [wire]; reading it back loses the numbers that are not finite, see
      [dumped].  The strings held by a json value are UTF-8, which the library
      requires of its callers ([dump()] throws on other strings).
    - The calls of the logger are kept, in order, in the state of the caller.
    - Callbacks and handlers installed by the user are functions of their
      arguments that return or throw; the model records that they were called. *)

From Stdlib Require Import ZArith String Ascii List Lia.
From Stdlib Require Import Floats.SpecFloat.
From stdpp Require Import gmap strings list fin_maps sorting pretty.
From Equations Require Import Equations.

#[local] Set Warnings "-register-all".
#[local] Open Scope Z_scope.
#[local] Open Scope string_scope.
#[local] Open Scope list_scope.

(* ===================================================================== *)
(** ** The C++ [int] *)
(* ===================================================================== *)

Definition INT_MIN : Z := - 2 ^ 31.
Definition INT_MAX : Z := 2 ^ 31 - 1.

Definition in_int (n : Z) : Prop := INT_MIN <= n <= INT_MAX.

(** Conversion of a wider integer to [int]: reduction modulo 2^32. *)
Definition to_int (n : Z) : Z := (n + 2 ^ 31) mod 2 ^ 32 - 2 ^ 31.

Lemma to_int_id n : in_int n -> to_int n = n.
Proof.
  unfold in_int, INT_MIN, INT_MAX, to_int. intros H.
  rewrite Z.mod_small; lia.
Qed.

Lemma to_int_in_int n : in_int (to_int n).
Proof.
  unfold in_int, INT_MIN, INT_MAX, to_int.
  pose proof (Z.mod_pos_bound (n + 2 ^ 31) (2 ^ 32) ltac:(lia)). lia.
Qed.

(* ===================================================================== *)
(** ** nlohmann::json values *)
(* ===================================================================== *)

(** [JInt] stands for both [number_integer] and [number_unsigned];
    [JFloat] is a [number_float]. *)
Inductive json : Type :=
| JNull
| JBool (b : bool)
| JInt (n : Z)
| JFloat (f : spec_float)
| JString (s : string)
| JArray (xs : list json)
| JObject (m : gmap string json).

(** [nlohmann::json::object()] *)
Definition json_object : json := JObject ∅.
(** [nlohmann::json::array()] *)
Definition json_array : json := JArray [].

Definition is_null (j : json) : bool :=
  match j with JNull => true | _ => false end.

Definition is_number_integer (j : json) : bool :=
  match j with JInt _ => true | _ => false end.

Definition is_string (j : json) : bool :=
  match j with JString _ => true | _ => false end.

(** [j.contains(key)]: false on anything that is not an object. *)
Definition contains (j : json) (key : string) : bool :=
  match j with
  | JObject m => bool_decide (is_Some (m !! key))
  | _ => false
  end.

(** Exceptions of the library ([nlohmann::json::exception]), by identifier.
    The free text that follows the identifier in [what()] is not modelled. *)
Inductive json_exception : Type :=
| parse_error_101
| type_error_302
| type_error_305.

Definition json_what (e : json_exception) : string :=
  match e with
  | parse_error_101 => "[json.exception.parse_error.101]"
  | type_error_302 => "[json.exception.type_error.302]"
  | type_error_305 => "[json.exception.type_error.305]"
  end.

(** The error codes of [mcp::ErrorCode], as the enumeration declares them
    ([include/mcp/error_simple.hpp]). *)
Inductive ErrorCode : Type :=
| ParseError
| InvalidRequest
| MethodNotFound
| InvalidParams
| InternalError
| InvalidMethod
| ResourceNotFound
| ResourceNotAvailable
| ResourceExhausted
| ContentModified
| UnknownErrorCode.

#[global] Instance ErrorCode_eq_dec : EqDecision ErrorCode.
Proof. solve_decision. Defined.

(** [class MCPError : public std::runtime_error]: the message is [what()]. *)
Record MCPError : Type := mkMCPError {
  code_ : ErrorCode;
  what_ : string;
  data_ : json;
}.

(** Where the source writes [MCPError(code, message)], the data is the
    default-constructed (null) json, as in [error_simple.cpp]. *)
Definition MCPError2 (c : ErrorCode) (msg : string) : MCPError :=
  mkMCPError c msg JNull.

(** What a C++ function may throw.  All three derive from [std::exception]. *)
Inductive exn : Type :=
| ExMCP (e : MCPError)
| ExJson (e : json_exception)
| ExStd (what : string).

Definition exn_what (e : exn) : string :=
  match e with
  | ExMCP m => what_ m
  | ExJson j => json_what j
  | ExStd w => w
  end.

Inductive res (A : Type) : Type :=
| Ret (a : A)
| Throw (e : exn).
Arguments Ret {A} a.
Arguments Throw {A} e.

(** Sequencing: an exception of the first computation propagates.  With
    stdpp's notation, [x ← m; k]. *)
#[global] Instance res_ret : MRet res := fun A a => Ret a.
#[global] Instance res_bind : MBind res := fun A B k m =>
  match m with
  | Ret a => k a
  | Throw e => Throw e
  end.
#[global] Instance res_fmap : FMap res := fun A B f m =>
  match m with
  | Ret a => Ret (f a)
  | Throw e => Throw e
  end.

(** [j[key]] on a value known to be an object that has the key (the source
    guards these with [contains]); [operator[]] on a non-const value otherwise
    inserts null (object, null) or throws type_error.305. *)
Definition at_key (j : json) (key : string) : res json :=
  match j with
  | JObject m => Ret (default JNull (m !! key))
  | JNull => Ret JNull
  | _ => Throw (ExJson type_error_305)
  end.

(** Truncation of a float toward zero. *)
Definition SFtrunc (f : spec_float) : Z :=
  match f with
  | S754_finite s m e =>
      let a := match e with
               | Z0 => Z.pos m
               | Zpos p => Z.pos m * 2 ^ Z.pos p
               | Zneg p => Z.pos m / 2 ^ Z.pos p
               end in
      if s then - a else a
  | _ => 0
  end.

(** [j.get<int>()]: numbers and booleans convert, everything else throws
    type_error.302.  A float outside the range of [int] has no defined
    conversion in C++; the model reduces it like an integer. *)
Definition get_int (j : json) : res Z :=
  match j with
  | JInt n => Ret (to_int n)
  | JFloat f => Ret (to_int (SFtrunc f))
  | JBool b => Ret (if b then 1 else 0)
  | _ => Throw (ExJson type_error_302)
  end.

(** [j.get<std::string>()] *)
Definition get_string (j : json) : res string :=
  match j with
  | JString s => Ret s
  | _ => Throw (ExJson type_error_302)
  end.

(** [std::isfinite] of the value of a [number_float]. *)
Definition is_finite (f : spec_float) : bool :=
  match f with
  | S754_infinity _ | S754_nan => false
  | _ => true
  end.

(** The document that the text [j.dump()] parses to.  [dump()] writes a
    [number_float] that is not finite as [null] (JSON has no text for NaN and
    the infinities); every other value is written so that [parse] reads it
    back. *)
Fixpoint dumped (j : json) : json :=
  match j with
  | JFloat f => if is_finite f then j else JNull
  | JArray xs => JArray (dumped <$> xs)
  | JObject m => JObject (dumped <$> m)
  | _ => j
  end.

(** The value holds no number that is NaN or infinite. *)
Fixpoint all_finite (j : json) : bool :=
  match j with
  | JFloat f => is_finite f
  | JArray xs => forallb all_finite xs
  | JObject m => map_fold (fun _ x acc => all_finite x && acc) true m
  | _ => true
  end.

(** The number of the values that a value is made of. *)
Fixpoint json_size (j : json) : nat :=
  match j with
  | JArray xs => S (foldr (fun x acc => (json_size x + acc)%nat) 0%nat xs)
  | JObject m => S (map_fold (fun _ x acc => (json_size x + acc)%nat) 0%nat m)
  | _ => 1%nat
  end.

(** The text of a frame.  [Dump j] is the text that [j.dump()] returns;
    [Malformed s] is a text that is not JSON.  Every JSON text is read by
    [parse] as the dump of the document that it parses to. *)
Inductive wire : Type :=
| Dump (j : json)
| Malformed (bytes : string).

(** [nlohmann::json::parse] *)
Definition json_parse (w : wire) : res json :=
  match w with
  | Dump j => Ret (dumped j)
  | Malformed _ => Throw (ExJson parse_error_101)
  end.

(** [j.dump()] *)
Definition json_dump (j : json) : wire := Dump j.

(* ===================================================================== *)
(** ** error.cpp *)
(* ===================================================================== *)

(** [static_cast<int>(code)] *)
Definition ErrorCode_value (c : ErrorCode) : Z :=
  match c with
  | ParseError => -32700
  | InvalidRequest => -32600
  | MethodNotFound => -32601
  | InvalidParams => -32602
  | InternalError => -32603
  | InvalidMethod => -32604
  | ResourceNotFound => -32606
  | ResourceNotAvailable => -32607
  | ResourceExhausted => -32608
  | ContentModified => -32609
  | UnknownErrorCode => -32000
  end.

Definition JSON_RPC_PARSE_ERROR : Z := -32700.
Definition JSON_RPC_INVALID_REQUEST : Z := -32600.
Definition JSON_RPC_METHOD_NOT_FOUND : Z := -32601.
Definition JSON_RPC_INVALID_PARAMS : Z := -32602.
Definition JSON_RPC_INTERNAL_ERROR : Z := -32603.
Definition MCP_INVALID_METHOD : Z := -32604.
Definition MCP_INVALID_PARAMS : Z := -32605.
Definition MCP_RESOURCE_NOT_FOUND : Z := -32606.
Definition MCP_RESOURCE_NOT_AVAILABLE : Z := -32607.
Definition MCP_RESOURCE_EXHAUSTED : Z := -32608.
Definition MCP_CONTENT_MODIFIED : Z := -32609.

Definition errorCodeFromInt (code : Z) : ErrorCode :=
  if Z.eqb code JSON_RPC_PARSE_ERROR then ParseError
  else if Z.eqb code JSON_RPC_INVALID_REQUEST then InvalidRequest
  else if Z.eqb code JSON_RPC_METHOD_NOT_FOUND then MethodNotFound
  else if Z.eqb code JSON_RPC_INVALID_PARAMS then InvalidParams
  else if Z.eqb code JSON_RPC_INTERNAL_ERROR then InternalError
  else if Z.eqb code MCP_INVALID_METHOD then InvalidMethod
  else if Z.eqb code MCP_RESOURCE_NOT_FOUND then ResourceNotFound
  else if Z.eqb code MCP_RESOURCE_NOT_AVAILABLE then ResourceNotAvailable
  else if Z.eqb code MCP_RESOURCE_EXHAUSTED then ResourceExhausted
  else if Z.eqb code MCP_CONTENT_MODIFIED then ContentModified
  else UnknownErrorCode.

Definition errorCodeToInt (c : ErrorCode) : Z :=
  match c with
  | ParseError => JSON_RPC_PARSE_ERROR
  | InvalidRequest => JSON_RPC_INVALID_REQUEST
  | MethodNotFound => JSON_RPC_METHOD_NOT_FOUND
  | InvalidParams => JSON_RPC_INVALID_PARAMS
  | InternalError => JSON_RPC_INTERNAL_ERROR
  | InvalidMethod => MCP_INVALID_METHOD
  | ResourceNotFound => MCP_RESOURCE_NOT_FOUND
  | ResourceNotAvailable => MCP_RESOURCE_NOT_AVAILABLE
  | ResourceExhausted => MCP_RESOURCE_EXHAUSTED
  | ContentModified => MCP_CONTENT_MODIFIED
  | UnknownErrorCode => -32000
  end.

(** [MCPError::toJson] *)
Definition toJson_members (e : MCPError) : gmap string json :=
  let error : gmap string json := <["code" := JInt (ErrorCode_value (code_ e))]> ∅ in
  let error := <["message" := JString (what_ e)]> error in
  if is_null (data_ e) then error else <["data" := data_ e]> error.

Definition toJson (e : MCPError) : json := JObject (toJson_members e).

(* ===================================================================== *)
(** ** types_simple.hpp: RequestId *)
(* ===================================================================== *)

(** [struct RequestId { std::variant<std::nullptr_t, int, std::string> id; }];
    the default constructor holds [nullptr]. *)
Inductive RequestId : Type :=
| IdNull
| IdInt (n : Z)
| IdString (s : string).

#[global] Instance RequestId_eq_dec : EqDecision RequestId.
Proof. solve_decision. Defined.

(** [operator<] orders by alternative and then by value, so a [std::map]
    keyed by [RequestId] identifies exactly the equal ids. *)
Definition RequestId_to_sum (i : RequestId) : unit + (Z + string) :=
  match i with
  | IdNull => inl ()
  | IdInt n => inr (inl n)
  | IdString s => inr (inr s)
  end.

Definition RequestId_of_sum (x : unit + (Z + string)) : RequestId :=
  match x with
  | inl _ => IdNull
  | inr (inl n) => IdInt n
  | inr (inr s) => IdString s
  end.

Lemma RequestId_of_to_sum i : RequestId_of_sum (RequestId_to_sum i) = i.
Proof. by destruct i. Qed.

#[global] Instance RequestId_countable : Countable RequestId :=
  inj_countable' RequestId_to_sum RequestId_of_sum RequestId_of_to_sum.

(** [id.index()]: the position of the alternative that the variant holds. *)
Definition RequestId_index (i : RequestId) : nat :=
  match i with
  | IdNull => 0%nat
  | IdInt _ => 1%nat
  | IdString _ => 2%nat
  end.

(** [RequestId::toString] (types_simple.cpp); [std::to_string] of an [int]
    is its decimal text. *)
Definition RequestId_toString (i : RequestId) : string :=
  match i with
  | IdInt n => pretty n
  | IdString s => s
  | IdNull => "null"
  end.

(** [RequestId::operator==].  Past the first test both ids hold the same
    alternative, so [std::get] on the other id does not throw; the model gives
    [false] in the cases that are not reached. *)
Definition RequestId_eqb (a b : RequestId) : bool :=
  if negb (Nat.eqb (RequestId_index a) (RequestId_index b)) then false
  else
    match a, b with
    | IdInt x, IdInt y => Z.eqb x y
    | IdInt _, _ => false
    | IdString x, IdString y => String.eqb x y
    | IdString _, _ => false
    | IdNull, _ => true
    end.

(** [RequestId::operator<]: by alternative, then by value; [std::string]
    compares its characters as unsigned. *)
Definition RequestId_ltb (a b : RequestId) : bool :=
  if negb (Nat.eqb (RequestId_index a) (RequestId_index b))
  then Nat.ltb (RequestId_index a) (RequestId_index b)
  else
    match a, b with
    | IdInt x, IdInt y => Z.ltb x y
    | IdInt _, _ => false
    | IdString x, IdString y => String.ltb x y
    | IdString _, _ => false
    | IdNull, _ => false
    end.

(* ===================================================================== *)
(** ** message.cpp *)
(* ===================================================================== *)

(** [Message::getJsonRpcVersion] *)
Definition getJsonRpcVersion : string := "2.0".

(** The three message classes; [id_] is the member of the base class
    [Message], a [std::optional<RequestId>]. *)
Record Request : Type := mkRequest {
  req_id : option RequestId;
  req_method : string;
  req_params : json;
}.

Record Response : Type := mkResponse {
  resp_id : option RequestId;
  resp_result : json;
  resp_error : option MCPError;
}.

Record Notification : Type := mkNotification {
  notif_id : option RequestId;
  notif_method : string;
  notif_params : json;
}.

(** [Request::Request(id, method, params) : Message(id)] *)
Definition Request_new (id : RequestId) (method : string) (params : json) : Request :=
  mkRequest (Some id) method params.

(** [Response::Response(id, result)] *)
Definition Response_result (id : RequestId) (result : json) : Response :=
  mkResponse (Some id) result None.

(** [Response::Response(id, error)]: the result is the empty object. *)
Definition Response_error (id : RequestId) (error : MCPError) : Response :=
  mkResponse (Some id) json_object (Some error).

(** [Notification::Notification(method, params) : Message()] *)
Definition Notification_new (method : string) (params : json) : Notification :=
  mkNotification None method params.

Definition isError (r : Response) : bool :=
  match resp_error r with Some _ => true | None => false end.

(** [Response::Response() : Message(), result_(nlohmann::json::object())] *)
Definition Response_new : Response := mkResponse None json_object None.

(** [Response::setResult]: [error_.reset()]. *)
Definition setResult (r : Response) (result : json) : Response :=
  mkResponse (resp_id r) result None.

(** [Response::setError]: the result becomes the empty object. *)
Definition setError (r : Response) (error : MCPError) : Response :=
  mkResponse (resp_id r) json_object (Some error).

(** [Message::setId], on a Response. *)
Definition Response_setId (r : Response) (id : RequestId) : Response :=
  mkResponse (Some id) (resp_result r) (resp_error r).

(** The block shared by [Request::serialize] and [Response::serialize]:
    an id is written when it holds an [int] or a [std::string]. *)
Definition put_id (id : option RequestId) (j : gmap string json) : gmap string json :=
  match id with
  | Some (IdInt n) => <["id" := JInt n]> j
  | Some (IdString s) => <["id" := JString s]> j
  | _ => j
  end.

Definition put_params (params : json) (j : gmap string json) : gmap string json :=
  if is_null params then j else <["params" := params]> j.

Definition Request_document (r : Request) : gmap string json :=
  let j : gmap string json := <["jsonrpc" := JString getJsonRpcVersion]> ∅ in
  let j := <["method" := JString (req_method r)]> j in
  let j := put_id (req_id r) j in
  put_params (req_params r) j.

(** [Request::serialize] *)
Definition Request_serialize (r : Request) : wire :=
  json_dump (JObject (Request_document r)).

Definition Response_document (r : Response) : gmap string json :=
  let j : gmap string json := <["jsonrpc" := JString getJsonRpcVersion]> ∅ in
  let j := put_id (resp_id r) j in
  match resp_error r with
  | Some e => <["error" := toJson e]> j
  | None => <["result" := resp_result r]> j
  end.

(** [Response::serialize] *)
Definition Response_serialize (r : Response) : wire :=
  json_dump (JObject (Response_document r)).

Definition Notification_document (n : Notification) : gmap string json :=
  let j : gmap string json := <["jsonrpc" := JString getJsonRpcVersion]> ∅ in
  let j := <["method" := JString (notif_method n)]> j in
  put_params (notif_params n) j.

(** [Notification::serialize] *)
Definition Notification_serialize (n : Notification) : wire :=
  json_dump (JObject (Notification_document n)).

(** [catch (const nlohmann::json::exception& e)] of the three deserializers:
    a library exception becomes an [MCPError] with [ParseError]; an [MCPError]
    thrown inside the block is not a library exception and passes. *)
Definition catch_json {A} (m : res A) : res A :=
  match m with
  | Throw (ExJson e) =>
      Throw (ExMCP (MCPError2 ParseError ("Failed to parse JSON: " +:+ json_what e)))
  | _ => m
  end.

(** [json["jsonrpc"] != "2.0"] *)
Definition is_version_2 (j : json) : bool :=
  match j with
  | JString s => bool_decide (s = "2.0")
  | _ => false
  end.

(** [!json.contains("jsonrpc") || json["jsonrpc"] != "2.0"] *)
Definition bad_version (j : json) : bool :=
  negb (contains j "jsonrpc") ||
  match at_key j "jsonrpc" with
  | Ret v => negb (is_version_2 v)
  | Throw _ => true
  end.

(** [json.contains(k) ? json[k] : nlohmann::json::object()] *)
Definition value_or_object (j : json) (key : string) : res json :=
  if contains j key then at_key j key else Ret json_object.

(** [Request::deserialize] *)
Definition Request_deserialize (jsonStr : wire) : res Request :=
  catch_json (
    j ← json_parse jsonStr;
    if bad_version j then
      Throw (ExMCP (MCPError2 InvalidRequest "Invalid JSON-RPC version"))
    else if negb (contains j "method") then
      Throw (ExMCP (MCPError2 InvalidRequest "Missing method"))
    else
      id ← (if contains j "id" then
              v ← at_key j "id";
              if is_number_integer v then n ← get_int v; Ret (IdInt n)
              else if is_string v then s ← get_string v; Ret (IdString s)
              else Throw (ExMCP (MCPError2 InvalidRequest "Invalid id type"))
            else Ret IdNull);
      mv ← at_key j "method";
      method ← get_string mv;
      params ← value_or_object j "params";
      Ret (Request_new id method params)).

(** [Response::deserialize] *)
Definition Response_deserialize (jsonStr : wire) : res Response :=
  catch_json (
    j ← json_parse jsonStr;
    if bad_version j then
      Throw (ExMCP (MCPError2 InvalidRequest "Invalid JSON-RPC version"))
    else
      id ← (if contains j "id" then
              v ← at_key j "id";
              if is_number_integer v then n ← get_int v; Ret (IdInt n)
              else if is_string v then s ← get_string v; Ret (IdString s)
              else Ret IdNull
            else Ret IdNull);
      if contains j "error" then
        errorJson ← at_key j "error";
        cv ← at_key errorJson "code";
        c ← get_int cv;
        let code := errorCodeFromInt c in
        message ← (if contains errorJson "message"
                   then mv ← at_key errorJson "message"; get_string mv
                   else Ret "");
        data ← value_or_object errorJson "data";
        Ret (Response_error id (mkMCPError code message data))
      else if contains j "result" then
        r ← at_key j "result";
        Ret (Response_result id r)
      else
        Throw (ExMCP (MCPError2 InvalidRequest "Missing result or error"))).

(** [Notification::deserialize] *)
Definition Notification_deserialize (jsonStr : wire) : res Notification :=
  catch_json (
    j ← json_parse jsonStr;
    if bad_version j then
      Throw (ExMCP (MCPError2 InvalidRequest "Invalid JSON-RPC version"))
    else if negb (contains j "method") then
      Throw (ExMCP (MCPError2 InvalidRequest "Missing method"))
    else if contains j "id" then
      Throw (ExMCP (MCPError2 InvalidRequest "Notifications cannot have id"))
    else
      mv ← at_key j "method";
      method ← get_string mv;
      params ← value_or_object j "params";
      Ret (Notification_new method params)).

(** The assertions of [tests/test_message.cpp] and [tests/test_error.cpp]. *)
Example test_message_request :
  Request_deserialize (Request_serialize
    (Request_new (IdInt 123) "test_method" (JObject {["param1" := JString "value1"]})))
  = Ret (Request_new (IdInt 123) "test_method" (JObject {["param1" := JString "value1"]})).
Proof. vm_compute. reflexivity. Qed.

Example test_message_response :
  Response_deserialize (Response_serialize
    (Response_result (IdInt 123) (JObject {["result" := JString "success"]})))
  = Ret (Response_result (IdInt 123) (JObject {["result" := JString "success"]})).
Proof. vm_compute. reflexivity. Qed.

Example test_message_error :
  (fun r => (isError r, code_ <$> resp_error r)) <$>
    Response_deserialize (Response_serialize
      (Response_error (IdInt 123) (MCPError2 MethodNotFound "Method not found")))
  = Ret (true, Some MethodNotFound).
Proof. vm_compute. reflexivity. Qed.

Example test_message_notification :
  Notification_deserialize (Notification_serialize
    (Notification_new "test_notification" (JObject {["data" := JString "test"]})))
  = Ret (Notification_new "test_notification" (JObject {["data" := JString "test"]})).
Proof. vm_compute. reflexivity. Qed.

Example test_error :
  toJson_members (MCPError2 MethodNotFound "Test error message") !! "code"
    = Some (JInt (-32601)) /\
  toJson_members (MCPError2 MethodNotFound "Test error message") !! "message"
    = Some (JString "Test error message") /\
  errorCodeFromInt (-32601) = MethodNotFound /\
  errorCodeToInt MethodNotFound = -32601.
Proof. vm_compute. done. Qed.

(* ===================================================================== *)
(** ** logger.cpp *)
(* ===================================================================== *)

(** A call of [utils::getLogger().debug/info/warn/error(message)].  The
    logger is a process-wide object; it prints the entries at or above its
    level, with a time stamp, as lines on [std::cout].  It never goes through
    a transport.  The model keeps the calls, in order. *)
Inductive LogLevel : Type := LvDebug | LvInfo | LvWarn | LvError.

Definition LogEntry : Type := LogLevel * string.

(* ===================================================================== *)
(** ** The transport interface and stdio_transport.cpp *)
(* ===================================================================== *)

(** [class ITransport], the part that the routers call.  [write] returns its
    [bool], the transport after the call, and the texts it passed to the error
    callback during the call.  The owner of a transport installs an error
    callback that logs ["Transport error: " + error]. *)
Class ITransport (T : Type) : Type := {
  isConnected : T -> bool;
  write : T -> wire -> bool * T * list string;
}.

(** [StdioTransport]: the two flags, and the frames that [write] has put on
    [std::cout], each followed by [std::endl].  (The lines that the logger
    prints on the same stream are kept with the log, not here.) *)
Record StdioTransport : Type := mkStdio {
  stdio_connected_ : bool;
  stdio_running_ : bool;
  stdio_cout : list wire;
}.

Definition StdioTransport_new : StdioTransport := mkStdio false false [].

(** [StdioTransport::connect] also starts the reading thread, see [read_thread]. *)
Definition StdioTransport_connect (t : StdioTransport) : bool * StdioTransport :=
  if stdio_connected_ t then (true, t)
  else (true, mkStdio true true (stdio_cout t)).

Definition StdioTransport_disconnect (t : StdioTransport) : StdioTransport :=
  mkStdio false false (stdio_cout t).

Definition StdioTransport_isConnected (t : StdioTransport) : bool :=
  stdio_connected_ t && stdio_running_ t.

(** [StdioTransport::write].  [std::cout] keeps its default exception mask in
    this program, so the [catch] of the source is never entered. *)
Definition StdioTransport_write (t : StdioTransport) (data : wire)
  : bool * StdioTransport * list string :=
  if negb (StdioTransport_isConnected t) then (false, t, [])
  else (true, mkStdio (stdio_connected_ t) (stdio_running_ t) (stdio_cout t ++ [data]), []).

#[global] Instance StdioTransport_ITransport : ITransport StdioTransport := {
  isConnected := StdioTransport_isConnected;
  write := StdioTransport_write;
}.

(** [class ITransport], the part that [start] and [stop] of the server and
    [connect] and [disconnect] of the client call. *)
Class ITransportLink (T : Type) : Type := {
  connect : T -> bool * T;
  disconnect : T -> T;
}.

#[global] Instance StdioTransport_ITransportLink : ITransportLink StdioTransport := {
  connect := StdioTransport_connect;
  disconnect := StdioTransport_disconnect;
}.

(** [HttpTransport] (http_transport.cpp), once connected.  [http_curl_] tells
    whether the handle is non-null.  The network is the environment:
    [http_network] lists the outcomes of the coming calls of
    [curl_easy_perform]; a call beyond the list fails. *)
Record curl_outcome : Type := mkCurl {
  curl_ok : bool;              (* res == CURLE_OK *)
  curl_strerror : string;      (* curl_easy_strerror(res) *)
  curl_responseCode : Z;
  curl_body : option wire;     (* the reply body, None when empty *)
}.

Record HttpTransport : Type := mkHttp {
  http_connected_ : bool;
  http_running_ : bool;
  http_curl_ : bool;
  http_posted : list wire;     (* bodies given to curl_easy_perform *)
  http_network : list curl_outcome;
  http_onMessage : list wire;  (* bodies handed to the message callback *)
}.

Definition HttpTransport_isConnected (t : HttpTransport) : bool :=
  http_connected_ t && http_running_ t.

(** Decimal text of a response code, for ["HTTP error: " + std::to_string(code)]. *)
Definition to_string (n : Z) : string := pretty n.

(** [HttpTransport::write].  On a 2xx reply the body goes to the message
    callback before [write] returns; the model records it in [http_onMessage]
    and does not run the callback. *)
Definition HttpTransport_write (t : HttpTransport) (data : wire)
  : bool * HttpTransport * list string :=
  if negb (HttpTransport_isConnected t) || negb (http_curl_ t) then (false, t, [])
  else
    let o := default (mkCurl false "Couldn't connect to server" 0 None)
                     (head (http_network t)) in
    let t' := mkHttp (http_connected_ t) (http_running_ t) (http_curl_ t)
                     (http_posted t ++ [data]) (tail (http_network t))
                     (http_onMessage t) in
    if negb (curl_ok o) then
      (false, t', ["HTTP request failed: " +:+ curl_strerror o])
    else if Z.leb 200 (curl_responseCode o) && Z.ltb (curl_responseCode o) 300 then
      (true,
       mkHttp (http_connected_ t') (http_running_ t') (http_curl_ t') (http_posted t')
              (http_network t')
              (http_onMessage t' ++ match curl_body o with Some b => [b] | None => [] end),
       [])
    else
      (false, t', ["HTTP error: " +:+ to_string (curl_responseCode o)]).

#[global] Instance HttpTransport_ITransport : ITransport HttpTransport := {
  isConnected := HttpTransport_isConnected;
  write := HttpTransport_write;
}.

(* ===================================================================== *)
(** ** tools.cpp, resources.cpp, prompts.cpp: the registries *)
(* ===================================================================== *)

Record ToolInfo : Type := mkToolInfo {
  tool_name : string;
  tool_description : string;
  tool_input_schema : json;
}.

Record ResourceInfo : Type := mkResourceInfo {
  resource_uri : string;
  resource_name : string;
  resource_description : string;
  resource_mime_type : string;
}.

Record PromptInfo : Type := mkPromptInfo {
  prompt_name : string;
  prompt_description : string;
  prompt_arguments : json;
}.

(** A registered handler is a [std::function]; it returns a json value or
    throws.  Handlers are taken to be functions of their argument. *)
Record ToolEntry : Type := mkToolEntry {
  tool_info : ToolInfo;
  tool_handler : json -> res json;
}.

Record ResourceEntry : Type := mkResourceEntry {
  resource_info : ResourceInfo;
  resource_handler : res json;
}.

Record PromptEntry : Type := mkPromptEntry {
  prompt_info : PromptInfo;
  prompt_handler : json -> res json;
}.

(** [try { return handler(...); } catch (const std::exception& e)
     { throw MCPError(ErrorCode::InternalError, prefix + e.what()); }] *)
Definition rethrow_internal {A} (prefix : string) (m : res A) : res A :=
  match m with
  | Ret a => Ret a
  | Throw e => Throw (ExMCP (MCPError2 InternalError (prefix +:+ exn_what e)))
  end.

(** [ToolRegistry::callTool] *)
Definition callTool (tools_ : gmap string ToolEntry) (name : string) (arguments : json)
  : res json :=
  match tools_ !! name with
  | None => Throw (ExMCP (MCPError2 MethodNotFound ("Tool not found: " +:+ name)))
  | Some t => rethrow_internal "Tool execution error: " (tool_handler t arguments)
  end.

(** [ResourceRegistry::readResource] *)
Definition readResource (resources_ : gmap string ResourceEntry) (uri : string) : res json :=
  match resources_ !! uri with
  | None => Throw (ExMCP (MCPError2 ResourceNotFound ("Resource not found: " +:+ uri)))
  | Some r => rethrow_internal "Resource read error: " (resource_handler r)
  end.

(** [PromptRegistry::getPrompt] *)
Definition getPrompt (prompts_ : gmap string PromptEntry) (name : string) (arguments : json)
  : res json :=
  match prompts_ !! name with
  | None => Throw (ExMCP (MCPError2 MethodNotFound ("Prompt not found: " +:+ name)))
  | Some p => rethrow_internal "Prompt execution error: " (prompt_handler p arguments)
  end.

(** Iteration over a [std::map<std::string, V>]: by ascending key. *)
Definition key_le {V} (a b : string * V) : Prop := String.leb a.1 b.1 = true.

#[global] Instance key_le_dec {V} (a b : string * V) : Decision (key_le a b).
Proof. unfold key_le. apply _. Defined.

Definition in_key_order {V} (m : gmap string V) : list (string * V) :=
  merge_sort key_le (map_to_list m).

(** [getTools], [getResources], [getPrompts] *)
Definition getTools (tools_ : gmap string ToolEntry) : gmap string ToolInfo :=
  tool_info <$> tools_.
Definition getResources (resources_ : gmap string ResourceEntry) : gmap string ResourceInfo :=
  resource_info <$> resources_.
Definition getPrompts (prompts_ : gmap string PromptEntry) : gmap string PromptInfo :=
  prompt_info <$> prompts_.

(** [m.empty()] *)
Definition empty_map {V} (m : gmap string V) : bool :=
  match map_to_list m with [] => true | _ => false end.

(** The body shared by [registerTool], [registerResource] and
    [registerPrompt]: an empty key throws [std::invalid_argument]; a key
    that is present is overwritten, after a warning.  The result is the map
    afterwards and the calls of the logger. *)
Definition register {V} (kind Kind : string) (entries_ : gmap string V)
    (key : string) (entry : V) : res (gmap string V * list LogEntry) :=
  if bool_decide (key = "") then Throw (ExStd (Kind +:+ " cannot be empty"))
  else
    let warning :=
      if bool_decide (is_Some (entries_ !! key))
      then [(LvWarn, "Overwriting existing " +:+ kind +:+ ": " +:+ key)] else [] in
    Ret (<[key := entry]> entries_,
         warning ++ [(LvInfo, "Registered " +:+ kind +:+ ": " +:+ key)]).

(** The body shared by [unregisterTool], [unregisterResource] and
    [unregisterPrompt]. *)
Definition unregister {V} (kind : string) (entries_ : gmap string V) (key : string)
  : gmap string V * list LogEntry :=
  match entries_ !! key with
  | Some _ => (delete key entries_, [(LvInfo, "Unregistered " +:+ kind +:+ ": " +:+ key)])
  | None => (entries_, [])
  end.

(** [ToolRegistry::registerTool], [unregisterTool], [hasTool] *)
Definition registerTool (tools_ : gmap string ToolEntry) (name : string) (info : ToolInfo)
    (handler : json -> res json) : res (gmap string ToolEntry * list LogEntry) :=
  register "tool" "Tool name" tools_ name (mkToolEntry info handler).

Definition unregisterTool (tools_ : gmap string ToolEntry) (name : string)
  : gmap string ToolEntry * list LogEntry :=
  unregister "tool" tools_ name.

Definition hasTool (tools_ : gmap string ToolEntry) (name : string) : bool :=
  bool_decide (is_Some (tools_ !! name)).

(** [ResourceRegistry::registerResource], [unregisterResource], [hasResource] *)
Definition registerResource (resources_ : gmap string ResourceEntry) (uri : string)
    (info : ResourceInfo) (handler : res json)
  : res (gmap string ResourceEntry * list LogEntry) :=
  register "resource" "Resource URI" resources_ uri (mkResourceEntry info handler).

Definition unregisterResource (resources_ : gmap string ResourceEntry) (uri : string)
  : gmap string ResourceEntry * list LogEntry :=
  unregister "resource" resources_ uri.

Definition hasResource (resources_ : gmap string ResourceEntry) (uri : string) : bool :=
  bool_decide (is_Some (resources_ !! uri)).

(** [PromptRegistry::registerPrompt], [unregisterPrompt], [hasPrompt] *)
Definition registerPrompt (prompts_ : gmap string PromptEntry) (name : string)
    (info : PromptInfo) (handler : json -> res json)
  : res (gmap string PromptEntry * list LogEntry) :=
  register "prompt" "Prompt name" prompts_ name (mkPromptEntry info handler).

Definition unregisterPrompt (prompts_ : gmap string PromptEntry) (name : string)
  : gmap string PromptEntry * list LogEntry :=
  unregister "prompt" prompts_ name.

Definition hasPrompt (prompts_ : gmap string PromptEntry) (name : string) : bool :=
  bool_decide (is_Some (prompts_ !! name)).

(** [result[key] = value] on a json value that is null (it becomes an
    object) or an object; on anything else [operator[]] throws. *)
Definition set_member (key : string) (value : json) (j : json) : res json :=
  match j with
  | JObject m => Ret (JObject (<[key := value]> m))
  | JNull => Ret (JObject {[key := value]})
  | _ => Throw (ExJson type_error_305)
  end.

(** [arguments[key]] on a [const] value, where the source has tested
    [arguments.contains(key)]: the member. *)
Definition member (j : json) (key : string) : json :=
  match j with
  | JObject m => default JNull (m !! key)
  | _ => JNull
  end.

(** [EchoTool::execute] *)
Definition EchoTool_execute (arguments : json) : res json :=
  let result := JNull in
  if contains arguments "message"
  then set_member "echo" (member arguments "message") result
  else set_member "echo" (JString "No message provided") result.

(** [FileReadTool::execute]; the file is not read. *)
Definition FileReadTool_execute (arguments : json) : res json :=
  if negb (contains arguments "path") then
    Throw (ExStd "Missing required parameter: path")
  else
    path ← get_string (member arguments "path");
    let result := JNull in
    result ← set_member "path" (JString path) result;
    result ← set_member "content" (JString "File content would be read here") result;
    set_member "size" (JInt 0) result.

(* ===================================================================== *)
(** ** server.cpp: MCPServer *)
(* ===================================================================== *)

Module Server.

Record MCPServer (T : Type) : Type := mkServer {
  transport_ : T;
  running_ : bool;
  initialized_ : bool;
  tool_registry_ : gmap string ToolEntry;
  resource_registry_ : gmap string ResourceEntry;
  prompt_registry_ : gmap string PromptEntry;
  server_name_ : string;
  server_version_ : string;
  log_ : list LogEntry;
}.
Arguments mkServer {T}.
Arguments transport_ {T}.
Arguments running_ {T}.
Arguments initialized_ {T}.
Arguments tool_registry_ {T}.
Arguments resource_registry_ {T}.
Arguments prompt_registry_ {T}.
Arguments server_name_ {T}.
Arguments server_version_ {T}.
Arguments log_ {T}.

Section WithTransport.
Context {T : Type} `{ITransport T}.

Definition set_transport (s : MCPServer T) (t : T) : MCPServer T :=
  mkServer t (running_ s) (initialized_ s) (tool_registry_ s) (resource_registry_ s)
           (prompt_registry_ s) (server_name_ s) (server_version_ s) (log_ s).

Definition set_initialized (s : MCPServer T) (b : bool) : MCPServer T :=
  mkServer (transport_ s) (running_ s) b (tool_registry_ s) (resource_registry_ s)
           (prompt_registry_ s) (server_name_ s) (server_version_ s) (log_ s).

Definition logger (lv : LogLevel) (msg : string) (s : MCPServer T) : MCPServer T :=
  mkServer (transport_ s) (running_ s) (initialized_ s) (tool_registry_ s)
           (resource_registry_ s) (prompt_registry_ s) (server_name_ s)
           (server_version_ s) (log_ s ++ [(lv, msg)]).

(** The error callback installed by the constructor. *)
Definition onError (s : MCPServer T) (error : string) : MCPServer T :=
  logger LvError ("Transport error: " +:+ error) s.

(** [transport_->write(message)] *)
Definition transport_write (s : MCPServer T) (message : wire) : bool * MCPServer T :=
  let '(ok, t, errors) := write (transport_ s) message in
  (ok, foldl onError (set_transport s t) errors).

(** [MCPServer::isRunning] *)
Definition isRunning (s : MCPServer T) : bool :=
  running_ s && isConnected (transport_ s).

(** [capabilities[key] = nlohmann::json::object()] on a value that is null
    (it becomes an object) or already an object. *)
Definition set_capability (key : string) (capabilities : json) : json :=
  match capabilities with
  | JObject m => JObject (<[key := json_object]> m)
  | _ => JObject {[key := json_object]}
  end.

(** The block "Build server capabilities" of [handleInitialize]: the value
    starts as null and gets a member for each registry that is not empty. *)
Definition build_capabilities (s : MCPServer T) : json :=
  let capabilities := JNull in
  let capabilities :=
    if negb (empty_map (getTools (tool_registry_ s)))
    then set_capability "tools" capabilities else capabilities in
  let capabilities :=
    if negb (empty_map (getResources (resource_registry_ s)))
    then set_capability "resources" capabilities else capabilities in
  if negb (empty_map (getPrompts (prompt_registry_ s)))
  then set_capability "prompts" capabilities else capabilities.

(** The block "Build server info". *)
Definition build_serverInfo (s : MCPServer T) : json :=
  JObject (<["version" := JString (server_version_ s)]>
             (<["name" := JString (server_name_ s)]> ∅)).

(** The result of a successful [initialize]. *)
Definition initialize_result (s : MCPServer T) : gmap string json :=
  let result : gmap string json := <["protocolVersion" := JString "2024-11-05"]> ∅ in
  let result := <["capabilities" := build_capabilities s]> result in
  <["serverInfo" := build_serverInfo s]> result.

(** [MCPServer::handleInitialize] *)
Definition handleInitialize (s : MCPServer T) (params : json) : res json :=
  if negb (contains params "clientInfo") then
    Throw (ExMCP (MCPError2 InvalidParams "Missing clientInfo"))
  else
    clientInfo ← at_key params "clientInfo";
    if negb (contains clientInfo "name") || negb (contains clientInfo "version") then
      Throw (ExMCP (MCPError2 InvalidParams "Invalid clientInfo"))
    else
      Ret (JObject (initialize_result s)).

(** [params.contains("arguments") ? params["arguments"] : nlohmann::json::object()] *)
Definition arguments_of (params : json) : res json := value_or_object params "arguments".

(** [MCPServer::handleToolCall] *)
Definition handleToolCall (s : MCPServer T) (params : json) : res json :=
  if negb (contains params "name") then
    Throw (ExMCP (MCPError2 InvalidParams "Missing tool name"))
  else
    nv ← at_key params "name";
    name ← get_string nv;
    arguments ← arguments_of params;
    callTool (tool_registry_ s) name arguments.

(** [MCPServer::handleToolsList] *)
Definition handleToolsList (s : MCPServer T) (params : json) : res json :=
  let tools :=
    (fun '(name, info) =>
       JObject (<["inputSchema" := tool_input_schema info]>
                  (<["description" := JString (tool_description info)]>
                     (<["name" := JString name]> ∅))))
    <$> in_key_order (getTools (tool_registry_ s)) in
  Ret (JObject (<["tools" := JArray tools]> ∅)).

(** [MCPServer::handleResourceRead] *)
Definition handleResourceRead (s : MCPServer T) (params : json) : res json :=
  if negb (contains params "uri") then
    Throw (ExMCP (MCPError2 InvalidParams "Missing resource URI"))
  else
    uv ← at_key params "uri";
    uri ← get_string uv;
    readResource (resource_registry_ s) uri.

(** [MCPServer::handleResourcesList] *)
Definition handleResourcesList (s : MCPServer T) (params : json) : res json :=
  let resources :=
    (fun '(uri, info) =>
       JObject (<["mimeType" := JString (resource_mime_type info)]>
                  (<["description" := JString (resource_description info)]>
                     (<["name" := JString (resource_name info)]>
                        (<["uri" := JString uri]> ∅)))))
    <$> in_key_order (getResources (resource_registry_ s)) in
  Ret (JObject (<["resources" := JArray resources]> ∅)).

(** [MCPServer::handlePromptGet] *)
Definition handlePromptGet (s : MCPServer T) (params : json) : res json :=
  if negb (contains params "name") then
    Throw (ExMCP (MCPError2 InvalidParams "Missing prompt name"))
  else
    nv ← at_key params "name";
    name ← get_string nv;
    arguments ← arguments_of params;
    getPrompt (prompt_registry_ s) name arguments.

(** [MCPServer::handlePromptsList] *)
Definition handlePromptsList (s : MCPServer T) (params : json) : res json :=
  let prompts :=
    (fun '(name, info) =>
       JObject (<["arguments" := prompt_arguments info]>
                  (<["description" := JString (prompt_description info)]>
                     (<["name" := JString name]> ∅))))
    <$> in_key_order (getPrompts (prompt_registry_ s)) in
  Ret (JObject (<["prompts" := JArray prompts]> ∅)).

(** The chain of comparisons on [method] in [handleRequest]. *)
Definition dispatch (s : MCPServer T) (method : string) (params : json) : res json :=
  if String.eqb method "initialize" then handleInitialize s params
  else if String.eqb method "tools/call" then handleToolCall s params
  else if String.eqb method "tools/list" then handleToolsList s params
  else if String.eqb method "resources/read" then handleResourceRead s params
  else if String.eqb method "resources/list" then handleResourcesList s params
  else if String.eqb method "prompts/get" then handlePromptGet s params
  else if String.eqb method "prompts/list" then handlePromptsList s params
  else Throw (ExMCP (MCPError2 MethodNotFound ("Method not found: " +:+ method))).

(** The frame of a successful and of a failed request. *)
Definition result_frame (id : RequestId) (result : json) : wire :=
  Response_serialize (Response_result id result).

Definition error_frame (id : RequestId) (e : MCPError) : wire :=
  Response_serialize (Response_error id e).

(** [MCPServer::handleRequest].  [request.getId().value()] throws when the
    request has no id; the [try] block starts after it.  The two [catch]
    clauses write an error response and ignore what [write] returns. *)
Definition handleRequest (s : MCPServer T) (request : Request) : res (MCPServer T) :=
  let method := req_method request in
  let params := req_params request in
  match req_id request with
  | None => Throw (ExStd "bad optional access")
  | Some id =>
      Ret match dispatch s method params with
          | Ret result =>
              let '(ok, s1) := transport_write s (result_frame id result) in
              if ok then logger LvDebug ("Handled request: " +:+ method) s1
              else
                let error := MCPError2 InternalError
                               ("Internal error: " +:+ "Failed to send response") in
                (transport_write s1 (error_frame id error)).2
          | Throw (ExMCP e) => (transport_write s (error_frame id e)).2
          | Throw e =>
              let error := MCPError2 InternalError ("Internal error: " +:+ exn_what e) in
              (transport_write s (error_frame id error)).2
          end
  end.

(** [MCPServer::handleNotification] *)
Definition handleNotification (s : MCPServer T) (notification : Notification) : MCPServer T :=
  let method := notif_method notification in
  let s :=
    if String.eqb method "notifications/initialized"
    then logger LvInfo "Client initialized" (set_initialized s true)
    else s in
  logger LvDebug ("Received notification: " +:+ method) s.

(** The [catch (const std::exception& e)] of [handleMessage]. *)
Definition failed_to_handle (s : MCPServer T) (e : exn) : MCPServer T :=
  logger LvError ("Failed to handle message: " +:+ exn_what e) s.

(** [MCPServer::handleMessage].  The pointers returned by the deserializers
    are never null, so the final warning of the source is not reached. *)
Definition handleMessage (s : MCPServer T) (message : wire) : MCPServer T :=
  match Request_deserialize message with
  | Throw e => failed_to_handle s e
  | Ret request =>
      if bool_decide (is_Some (req_id request)) then
        match handleRequest s request with
        | Ret s' => s'
        | Throw e => failed_to_handle s e
        end
      else
        match Notification_deserialize message with
        | Throw e => failed_to_handle s e
        | Ret notification => handleNotification s notification
        end
  end.

(** [MCPServer::registerTool], [registerResource], [registerPrompt]: the
    calls of the registries. *)
Definition set_tool_registry (s : MCPServer T) (tools_ : gmap string ToolEntry) : MCPServer T :=
  mkServer (transport_ s) (running_ s) (initialized_ s) tools_ (resource_registry_ s)
           (prompt_registry_ s) (server_name_ s) (server_version_ s) (log_ s).

Definition set_resource_registry (s : MCPServer T) (resources_ : gmap string ResourceEntry)
  : MCPServer T :=
  mkServer (transport_ s) (running_ s) (initialized_ s) (tool_registry_ s) resources_
           (prompt_registry_ s) (server_name_ s) (server_version_ s) (log_ s).

Definition set_prompt_registry (s : MCPServer T) (prompts_ : gmap string PromptEntry)
  : MCPServer T :=
  mkServer (transport_ s) (running_ s) (initialized_ s) (tool_registry_ s)
           (resource_registry_ s) prompts_ (server_name_ s) (server_version_ s) (log_ s).

Definition logged (entries : list LogEntry) (s : MCPServer T) : MCPServer T :=
  foldl (fun s e => logger e.1 e.2 s) s entries.

Definition registerTool (s : MCPServer T) (name : string) (info : ToolInfo)
    (handler : json -> res json) : res (MCPServer T) :=
  '(tools_, entries) ← registerTool (tool_registry_ s) name info handler;
  Ret (logged entries (set_tool_registry s tools_)).

Definition registerResource (s : MCPServer T) (uri : string) (info : ResourceInfo)
    (handler : res json) : res (MCPServer T) :=
  '(resources_, entries) ← registerResource (resource_registry_ s) uri info handler;
  Ret (logged entries (set_resource_registry s resources_)).

Definition registerPrompt (s : MCPServer T) (name : string) (info : PromptInfo)
    (handler : json -> res json) : res (MCPServer T) :=
  '(prompts_, entries) ← registerPrompt (prompt_registry_ s) name info handler;
  Ret (logged entries (set_prompt_registry s prompts_)).

(** [MCPServer::setServerInfo] *)
Definition setServerInfo (s : MCPServer T) (name version : string) : MCPServer T :=
  mkServer (transport_ s) (running_ s) (initialized_ s) (tool_registry_ s)
           (resource_registry_ s) (prompt_registry_ s) name version (log_ s).

(** [MCPServer::sendNotification]: the exception, if one is thrown, and the
    server afterwards. *)
Definition sendNotification (s : MCPServer T) (method : string) (params : json)
  : res unit * MCPServer T :=
  if negb (isRunning s) then (Throw (ExStd "Server not running"), s)
  else
    let notification := Notification_new method params in
    let message := Notification_serialize notification in
    let '(ok, s) := transport_write s message in
    if negb ok then (Throw (ExStd "Failed to send notification"), s)
    else (Ret (), logger LvDebug ("Sent notification: " +:+ method) s).

End WithTransport.

Section WithLink.
Context {T : Type} `{ITransport T} `{ITransportLink T}.

Definition set_running (s : MCPServer T) (b : bool) : MCPServer T :=
  mkServer (transport_ s) b (initialized_ s) (tool_registry_ s) (resource_registry_ s)
           (prompt_registry_ s) (server_name_ s) (server_version_ s) (log_ s).

(** [MCPServer::MCPServer(transport)]; the name and the version that
    [setServerInfo] replaces are those of the member initializers. *)
Definition MCPServer_new (transport : T) (name version : string) : MCPServer T :=
  mkServer transport false false ∅ ∅ ∅ name version [].

(** [MCPServer::start] *)
Definition start (s : MCPServer T) : bool * MCPServer T :=
  if running_ s then (true, s)
  else
    let '(ok, t) := connect (transport_ s) in
    let s := set_transport s t in
    if negb ok then (false, s)
    else (true, logger LvInfo "MCP Server started" (set_running s true)).

(** [MCPServer::stop] *)
Definition stop (s : MCPServer T) : MCPServer T :=
  let s := set_running s false in
  let s := set_transport s (disconnect (transport_ s)) in
  logger LvInfo "MCP Server stopped" s.

End WithLink.
End Server.

(* ===================================================================== *)
(** ** client.cpp: MCPClient *)
(* ===================================================================== *)

(** The shared state of a [std::promise<Response>] and its future. *)
Inductive shared_state : Type :=
| Unset
| Value (r : Response)
| Exception (what : string).

(** A call of one of the callbacks the user installed. *)
Inductive callback_call : Type :=
| CallResponse (id : RequestId) (r : Response)
| CallSubscription (method : string) (params : json)
| CallNotification (method : string) (params : json).

Module Client.

(** [pending_requests_] maps an id to a [std::shared_ptr] to a promise.  The
    promises live in [promises_]; a pointer is an index into it, and
    [std::make_shared] appends.  The future returned by [sendRequest] is the
    same index. *)
Record MCPClient (T : Type) : Type := mkClient {
  transport_ : T;
  initialized_ : bool;
  request_id_counter_ : Z;
  pending_requests_ : gmap RequestId nat;
  promises_ : list shared_state;
  subscriptions_ : gmap string (json -> res unit);
  notificationCallback_ : option (string -> json -> res unit);
  responseCallback_ : option (RequestId -> Response -> res unit);
  calls_ : list callback_call;
  log_ : list LogEntry;
}.
Arguments mkClient {T}.
Arguments transport_ {T}.
Arguments initialized_ {T}.
Arguments request_id_counter_ {T}.
Arguments pending_requests_ {T}.
Arguments promises_ {T}.
Arguments subscriptions_ {T}.
Arguments notificationCallback_ {T}.
Arguments responseCallback_ {T}.
Arguments calls_ {T}.
Arguments log_ {T}.

Section WithTransport.
Context {T : Type} `{ITransport T}.

Definition set_transport (c : MCPClient T) (t : T) : MCPClient T :=
  mkClient t (initialized_ c) (request_id_counter_ c) (pending_requests_ c) (promises_ c)
           (subscriptions_ c) (notificationCallback_ c) (responseCallback_ c)
           (calls_ c) (log_ c).

Definition set_counter (c : MCPClient T) (n : Z) : MCPClient T :=
  mkClient (transport_ c) (initialized_ c) n (pending_requests_ c) (promises_ c)
           (subscriptions_ c) (notificationCallback_ c) (responseCallback_ c)
           (calls_ c) (log_ c).

Definition set_pending (c : MCPClient T) (m : gmap RequestId nat) : MCPClient T :=
  mkClient (transport_ c) (initialized_ c) (request_id_counter_ c) m (promises_ c)
           (subscriptions_ c) (notificationCallback_ c) (responseCallback_ c)
           (calls_ c) (log_ c).

Definition set_promises (c : MCPClient T) (ps : list shared_state) : MCPClient T :=
  mkClient (transport_ c) (initialized_ c) (request_id_counter_ c) (pending_requests_ c) ps
           (subscriptions_ c) (notificationCallback_ c) (responseCallback_ c)
           (calls_ c) (log_ c).

Definition called (k : callback_call) (c : MCPClient T) : MCPClient T :=
  mkClient (transport_ c) (initialized_ c) (request_id_counter_ c) (pending_requests_ c)
           (promises_ c) (subscriptions_ c) (notificationCallback_ c) (responseCallback_ c)
           (calls_ c ++ [k]) (log_ c).

Definition logger (lv : LogLevel) (msg : string) (c : MCPClient T) : MCPClient T :=
  mkClient (transport_ c) (initialized_ c) (request_id_counter_ c) (pending_requests_ c)
           (promises_ c) (subscriptions_ c) (notificationCallback_ c) (responseCallback_ c)
           (calls_ c) (log_ c ++ [(lv, msg)]).

(** [MCPClient::MCPClient(transport)] *)
Definition MCPClient_new (transport : T) : MCPClient T :=
  mkClient transport false 0 ∅ [] ∅ None None [] [].

(** The error callback installed by the constructor. *)
Definition onError (c : MCPClient T) (error : string) : MCPClient T :=
  logger LvError ("Transport error: " +:+ error) c.

(** [transport_->write(message)] *)
Definition transport_write (c : MCPClient T) (message : wire) : bool * MCPClient T :=
  let '(ok, t, errors) := write (transport_ c) message in
  (ok, foldl onError (set_transport c t) errors).

(** [MCPClient::isConnected] *)
Definition isConnected (c : MCPClient T) : bool := isConnected (transport_ c).

(** A statement sequence that changes the client and may end by an exception:
    the client after it, and the exception if one is in flight. *)
Definition outcome : Type := MCPClient T * option exn.

(** [promise->set_value(r)] and [promise->set_exception(...)]: a promise is
    satisfied once; a second attempt throws [std::future_error]. *)
Definition satisfy (c : MCPClient T) (p : nat) (v : shared_state) : outcome :=
  match promises_ c !! p with
  | Some Unset => (set_promises c (<[p := v]> (promises_ c)), None)
  | _ => (c, Some (ExStd "std::future_error: Promise already satisfied"))
  end.

(** [std::make_shared<std::promise<Response>>()] *)
Definition make_promise (c : MCPClient T) : nat * MCPClient T :=
  (length (promises_ c), set_promises c (promises_ c ++ [Unset])).

(** [++request_id_counter_], stored into the [int] alternative of the id: the
    counter is read as an [int] that wraps around. *)
Definition next_id (c : MCPClient T) : Z := to_int (request_id_counter_ c + 1).

(** [MCPClient::sendRequest]: the future, or the exception thrown, and the
    client afterwards. *)
Definition sendRequest (c : MCPClient T) (method : string) (params : json)
  : res nat * MCPClient T :=
  if negb (isConnected c) then (Throw (ExStd "Client not connected"), c)
  else
    let n := next_id c in
    let c := set_counter c n in
    let id := IdInt n in
    let message := Request_serialize (Request_new id method params) in
    let '(promise, c) := make_promise c in
    let future := promise in
    let c := set_pending c (<[id := promise]> (pending_requests_ c)) in
    let '(ok, c) := transport_write c message in
    if negb ok then
      let c := set_pending c (delete id (pending_requests_ c)) in
      match satisfy c promise (Exception "Failed to send request") with
      | (c, None) => (Ret future, c)
      | (c, Some e) => (Throw e, c)
      end
    else (Ret future, logger LvDebug ("Sent request: " +:+ method) c).

(** [MCPClient::handleResponse] *)
Definition handleResponse (c : MCPClient T) (response : Response) : outcome :=
  match resp_id response with
  | None => (logger LvWarn "Received response without ID" c, None)
  | Some id =>
      match pending_requests_ c !! id with
      | Some promise =>
          let c := set_pending c (delete id (pending_requests_ c)) in
          match satisfy c promise (Value response) with
          | (c, Some e) => (c, Some e)
          | (c, None) =>
              match responseCallback_ c with
              | Some callback =>
                  let c := called (CallResponse id response) c in
                  match callback id response with
                  | Ret _ => (c, None)
                  | Throw e => (c, Some e)
                  end
              | None => (c, None)
              end
          end
      | None => (logger LvWarn "Received response for unknown request ID" c, None)
      end
  end.

(** [MCPClient::handleNotification] *)
Definition handleNotification (c : MCPClient T) (notification : Notification) : outcome :=
  let method := notif_method notification in
  let params := notif_params notification in
  let '(c, e) :=
    match subscriptions_ c !! method with
    | Some sub =>
        let c := called (CallSubscription method params) c in
        match sub params with
        | Ret _ => (c, None)
        | Throw e => (c, Some e)
        end
    | None => (c, None)
    end in
  match e with
  | Some e => (c, Some e)
  | None =>
      let '(c, e) :=
        match notificationCallback_ c with
        | Some callback =>
            let c := called (CallNotification method params) c in
            match callback method params with
            | Ret _ => (c, None)
            | Throw e => (c, Some e)
            end
        | None => (c, None)
        end in
      match e with
      | Some e => (c, Some e)
      | None => (logger LvDebug ("Received notification: " +:+ method) c, None)
      end
  end.

(** The [catch (const std::exception& e)] of [handleMessage]. *)
Definition caught (o : outcome) : MCPClient T :=
  match o with
  | (c, None) => c
  | (c, Some e) => logger LvError ("Failed to handle message: " +:+ exn_what e) c
  end.

(** [MCPClient::handleMessage].  As in the server, the pointers returned by
    the deserializers are never null. *)
Definition handleMessage (c : MCPClient T) (message : wire) : MCPClient T :=
  match Response_deserialize message with
  | Throw e => caught (c, Some e)
  | Ret response =>
      if bool_decide (is_Some (resp_id response)) then
        caught (handleResponse c response)
      else
        match Notification_deserialize message with
        | Throw e => caught (c, Some e)
        | Ret notification => caught (handleNotification c notification)
        end
  end.

Definition set_initialized (c : MCPClient T) (b : bool) : MCPClient T :=
  mkClient (transport_ c) b (request_id_counter_ c) (pending_requests_ c) (promises_ c)
           (subscriptions_ c) (notificationCallback_ c) (responseCallback_ c)
           (calls_ c) (log_ c).

(** [MCPClient::setInitialized], [isInitialized] *)
Definition setInitialized (c : MCPClient T) (initialized : bool) : MCPClient T :=
  set_initialized c initialized.

Definition isInitialized (c : MCPClient T) : bool := initialized_ c.

(** [MCPClient::subscribe], [unsubscribe], [onNotification], [onResponse] *)
Definition subscribe (c : MCPClient T) (method : string) (callback : json -> res unit)
  : MCPClient T :=
  mkClient (transport_ c) (initialized_ c) (request_id_counter_ c) (pending_requests_ c)
           (promises_ c) (<[method := callback]> (subscriptions_ c))
           (notificationCallback_ c) (responseCallback_ c) (calls_ c) (log_ c).

Definition unsubscribe (c : MCPClient T) (method : string) : MCPClient T :=
  mkClient (transport_ c) (initialized_ c) (request_id_counter_ c) (pending_requests_ c)
           (promises_ c) (delete method (subscriptions_ c))
           (notificationCallback_ c) (responseCallback_ c) (calls_ c) (log_ c).

Definition onNotification (c : MCPClient T) (callback : string -> json -> res unit)
  : MCPClient T :=
  mkClient (transport_ c) (initialized_ c) (request_id_counter_ c) (pending_requests_ c)
           (promises_ c) (subscriptions_ c) (Some callback) (responseCallback_ c)
           (calls_ c) (log_ c).

Definition onResponse (c : MCPClient T) (callback : RequestId -> Response -> res unit)
  : MCPClient T :=
  mkClient (transport_ c) (initialized_ c) (request_id_counter_ c) (pending_requests_ c)
           (promises_ c) (subscriptions_ c) (notificationCallback_ c) (Some callback)
           (calls_ c) (log_ c).

(** [struct ClientInfo], the members that [initialize] reads. *)
Record ClientInfo : Type := mkClientInfo {
  client_name : string;
  client_version : string;
}.

(** [MCPClient::initialize] *)
Definition initialize (c : MCPClient T) (clientInfo : ClientInfo) : res nat * MCPClient T :=
  if negb (isConnected c) then (Throw (ExStd "Client not connected"), c)
  else
    let params : gmap string json := <["protocolVersion" := JString "2024-11-05"]> ∅ in
    let params := <["capabilities" := json_object]> params in
    let params :=
      <["clientInfo" := JObject (<["version" := JString (client_version clientInfo)]>
                                   (<["name" := JString (client_name clientInfo)]> ∅))]>
        params in
    sendRequest c "initialize" (JObject params).

(** The test at the head of the six calls that follow. *)
Definition when_initialized (c : MCPClient T) (k : res nat * MCPClient T)
  : res nat * MCPClient T :=
  if negb (initialized_ c) then (Throw (ExStd "Client not initialized"), c) else k.

(** [MCPClient::callTool] *)
Definition callTool (c : MCPClient T) (name : string) (arguments : json)
  : res nat * MCPClient T :=
  when_initialized c
    (let params : gmap string json := <["name" := JString name]> ∅ in
     let params := <["arguments" := arguments]> params in
     sendRequest c "tools/call" (JObject params)).

(** [MCPClient::listTools] *)
Definition listTools (c : MCPClient T) : res nat * MCPClient T :=
  when_initialized c (sendRequest c "tools/list" json_object).

(** [MCPClient::readResource] *)
Definition readResource (c : MCPClient T) (uri : string) : res nat * MCPClient T :=
  when_initialized c
    (let params : gmap string json := <["uri" := JString uri]> ∅ in
     sendRequest c "resources/read" (JObject params)).

(** [MCPClient::listResources] *)
Definition listResources (c : MCPClient T) : res nat * MCPClient T :=
  when_initialized c (sendRequest c "resources/list" json_object).

(** [MCPClient::getPrompt] *)
Definition getPrompt (c : MCPClient T) (name : string) (arguments : json)
  : res nat * MCPClient T :=
  when_initialized c
    (let params : gmap string json := <["name" := JString name]> ∅ in
     let params := <["arguments" := arguments]> params in
     sendRequest c "prompts/get" (JObject params)).

(** [MCPClient::listPrompts] *)
Definition listPrompts (c : MCPClient T) : res nat * MCPClient T :=
  when_initialized c (sendRequest c "prompts/list" json_object).

End WithTransport.

Section WithLink.
Context {T : Type} `{ITransport T} `{ITransportLink T}.

(** [MCPClient::connect] *)
Definition connect (c : MCPClient T) : bool * MCPClient T :=
  let '(ok, t) := connect (transport_ c) in
  let c := set_transport c t in
  if negb ok then (false, c)
  else (true, logger LvInfo "MCP Client connected" c).

(** [MCPClient::disconnect] *)
Definition disconnect (c : MCPClient T) : MCPClient T :=
  let c := set_transport c (disconnect (transport_ c)) in
  let c := logger LvInfo "MCP Client disconnected" c in
  set_initialized c false.

End WithLink.
End Client.

(* ===================================================================== *)
(** ** stdio_transport.cpp: the reading thread *)
(* ===================================================================== *)

(** Standard input is the list of the characters still to come, up to the
    end of the file; a [std::string] read from it is a list of characters. *)
Definition newline : ascii := "010"%char.

(** The characters that [std::getline] extracts: up to the first newline,
    which is consumed and not stored, or up to the end of the input. *)
Fixpoint extract (cin : list ascii) : list ascii * list ascii :=
  match cin with
  | [] => ([], [])
  | c :: cin' =>
      if Ascii.eqb c newline then ([], cin')
      else let '(line, rest) := extract cin' in (c :: line, rest)
  end.

(** [std::getline(std::cin, line)] as a condition: when nothing at all can be
    extracted (end of file) the stream fails and the condition is false;
    otherwise the line and the rest of the input. *)
Definition getline (cin : list ascii) : option (list ascii * list ascii) :=
  match cin with
  | [] => None
  | _ :: _ => Some (extract cin)
  end.

Lemma extract_length cin : (length (extract cin).2 <= length cin)%nat.
Proof.
  induction cin as [|c cin IH]; simpl; [lia|].
  destruct (Ascii.eqb c newline); simpl; [lia|].
  destruct (extract cin) as [line rest]; simpl in *; lia.
Qed.

Lemma getline_shorter cin line rest :
  getline cin = Some (line, rest) -> (length rest < length cin)%nat.
Proof.
  destruct cin as [|c cin]; simpl; [discriminate|].
  pose proof (extract_length cin) as Hlen.
  destruct (Ascii.eqb c newline).
  - intros [= <- <-]. lia.
  - destruct (extract cin) as [l r]; simpl in *. intros [= <- <-]. lia.
Qed.

Definition inspect {A} (a : A) : {b : A | a = b} := exist _ a eq_refl.

(** The loop of the thread started by [StdioTransport::connect]:

      while (running_ && std::getline(std::cin, line))
        if (!line.empty() && onMessage) onMessage(line);

    [running_] is set before the thread starts and is cleared only by
    [disconnect], from another thread; the loop is modelled while it is set.
    [onMessage] is the callback, if one is installed, acting on the state [S]
    of its owner. *)
Equations? read_thread {S : Type} (onMessage : option (list ascii -> S -> S))
    (cin : list ascii) (s : S) : S by wf (length cin) lt :=
  read_thread onMessage cin s with inspect (getline cin) := {
    | exist _ None _ => s
    | exist _ (Some (line, rest)) _ =>
        match line, onMessage with
        | _ :: _, Some callback => read_thread onMessage rest (callback line s)
        | _, _ => read_thread onMessage rest s
        end
  }.
Proof. all: eapply getline_shorter; eauto. Qed.

(** The frames that reach the message callback, in order. *)
Definition delivered (cin : list ascii) : list (list ascii) :=
  read_thread (Some (fun line frames => frames ++ [line])) cin [].

Example delivered_test :
  delivered (list_ascii_of_string ("ab" +:+ String newline (String newline "c")))
  = [list_ascii_of_string "ab"; list_ascii_of_string "c"].
Proof. reflexivity. Qed.

(* ===================================================================== *)
(** * The vocabulary of the properties *)
(* ===================================================================== *)

(** ** Documents and round trips (C3, C4) *)

(** The [id] member that [put_id] writes, and the [params] member that
    [put_params] writes. *)
Definition id_member (id : option RequestId) : option json :=
  match id with
  | Some (IdInt n) => Some (JInt n)
  | Some (IdString s) => Some (JString s)
  | _ => None
  end.

Definition params_member (params : json) : option json :=
  if is_null params then None else Some params.

(** The id, the params and the error that come back from a round trip. *)
Definition id_back (id : option RequestId) : RequestId :=
  match id with
  | Some (IdInt n) => IdInt (to_int n)
  | Some (IdString s) => IdString s
  | _ => IdNull
  end.

Definition object_if_null (j : json) : json :=
  if is_null j then json_object else j.

(** The params of a Request or Notification and the data of an error as
    they come back: the empty object for null (the member is left out), and
    [null] for each number that is not finite. *)
Definition read_back (j : json) : json := dumped (object_if_null j).

Definition error_back (e : MCPError) : MCPError :=
  mkMCPError (code_ e) (what_ e) (read_back (data_ e)).

Inductive Envelope : Type :=
| ERequest (r : Request)
| EResponse (r : Response)
| ENotification (n : Notification).

(** Deserializing the serialization of [E] yields [E] again. *)
Definition roundtrips (E : Envelope) : Prop :=
  match E with
  | ERequest r => Request_deserialize (Request_serialize r) = Ret r
  | EResponse r => Response_deserialize (Response_serialize r) = Ret r
  | ENotification n => Notification_deserialize (Notification_serialize n) = Ret n
  end.

(** An id that the decoders of [Request] and [Response] give back: it is
    set, and an integer id is an [int]. *)
Definition id_kept (id : option RequestId) : Prop :=
  match id with
  | Some (IdInt n) => in_int n
  | Some _ => True
  | None => False
  end.

(** A value that comes back as it is from the place of the params or of the
    data of an error: it is not null and holds no number that is NaN or
    infinite. *)
Definition comes_back (j : json) : Prop := j <> JNull /\ all_finite j = true.

(** The envelopes that survive the round trip.  (The constructor of a
    Response with an error sets the result to the empty object.) *)
Definition survives (E : Envelope) : Prop :=
  match E with
  | ERequest r => id_kept (req_id r) /\ comes_back (req_params r)
  | EResponse r =>
      id_kept (resp_id r) /\
      match resp_error r with
      | Some e => resp_result r = json_object /\ comes_back (data_ e)
      | None => all_finite (resp_result r) = true
      end
  | ENotification n => notif_id n = None /\ comes_back (notif_params n)
  end.

(** A Response document that carries both members:
    [{"jsonrpc":"2.0","id":1,"result":{"ok":true},"error":{"code":-32601,"message":"no"}}] *)
Definition both_members : gmap string json :=
  <["result" := JObject {["ok" := JBool true]}]>
    (<["error" := JObject (<["message" := JString "no"]> {["code" := JInt (-32601)]})]>
       (<["id" := JInt 1]> {["jsonrpc" := JString "2.0"]})).

(** ** The server (C1, C2, C5, C6, C7) *)

(** A server on a connected stdio transport, with empty registries, that has
    not received [notifications/initialized]. *)
Definition stdio_up : StdioTransport := mkStdio true true [].

Definition server0 : Server.MCPServer StdioTransport :=
  Server.mkServer stdio_up true false ∅ ∅ ∅ "s" "1" [].

(** The methods that [handleRequest] compares with. *)
Definition known_method (method : string) : bool :=
  bool_decide (method ∈ ["initialize"; "tools/call"; "tools/list"; "resources/read";
                          "resources/list"; "prompts/get"; "prompts/list"]).

(** [{"jsonrpc":"2.0","id":2,"method":"tools/list"}] *)
Definition tools_list_request : wire :=
  Dump (JObject (<["method" := JString "tools/list"]>
                   (<["id" := JInt 2]> {["jsonrpc" := JString "2.0"]}))).

(** [{"jsonrpc":"2.0","id":2,"result":{"tools":[]}}] *)
Definition tools_list_answer : wire :=
  Dump (JObject (<["result" := JObject {["tools" := JArray []]}]>
                   (<["id" := JInt 2]> {["jsonrpc" := JString "2.0"]}))).

(** The highest version that both lists contain; versions are dates
    (YYYY-MM-DD), so the order of the strings is the order of the dates. *)
Definition highest_common (client server : list string) : option string :=
  foldr (fun v best =>
           if bool_decide (v ∈ server) then
             match best with
             | Some b => if String.ltb b v then Some v else Some b
             | None => Some v
             end
           else best)
        None client.

(** The data of an error lists the versions: it is, or has a member that is,
    an array that holds each of them. *)
Definition lists_versions (data : json) (versions : list string) : Prop :=
  exists vs, (data = JArray vs \/ exists m k, data = JObject m /\ m !! k = Some (JArray vs))
             /\ forall v, v ∈ versions -> JString v ∈ vs.

(** C2 in its own words: the answer carries the highest common version, or,
    if there is none, it is an error whose data lists the server's versions. *)
Definition negotiated (client server : list string) (answer : res json) : Prop :=
  match highest_common client server with
  | Some v => exists m, answer = Ret (JObject m) /\ m !! "protocolVersion" = Some (JString v)
  | None => exists e, answer = Throw (ExMCP e) /\ lists_versions (data_ e) server
  end.

(** The params of the handshake of a client that speaks 2025-06-18:
    [{"protocolVersion":"2025-06-18","clientInfo":{"name":"c","version":"1"},"capabilities":{}}] *)
Definition initialize_params : json :=
  JObject (<["capabilities" := json_object]>
             (<["clientInfo" := JObject (<["version" := JString "1"]> {["name" := JString "c"]})]>
                {["protocolVersion" := JString "2025-06-18"]})).

(** [{"jsonrpc":"2.0","id":4,"error":{"code":-32601,"message":"Method not found: nope"}}] *)
Definition unknown_method_answer : wire :=
  Dump (JObject
          (<["error" := JObject (<["message" := JString "Method not found: nope"]>
                                   {["code" := JInt (-32601)]})]>
             (<["id" := JInt 4]> {["jsonrpc" := JString "2.0"]}))).









(** ** The client (C8, C9) *)

(** Every pending promise is unsatisfied. *)
Definition pending_unsatisfied {T : Type} (c : Client.MCPClient T) : Prop :=
  forall id p, Client.pending_requests_ c !! id = Some p ->
               Client.promises_ c !! p = Some Unset.

(** The state of the correlation map that the client maintains: pending
    promises are unsatisfied, no two ids share a promise, and the pending ids
    are integers that the counter has already passed. *)
Record consistent {T : Type} (c : Client.MCPClient T) : Prop := {
  consistent_unsatisfied : pending_unsatisfied c;
  consistent_distinct :
    forall id id' p, Client.pending_requests_ c !! id = Some p ->
                     Client.pending_requests_ c !! id' = Some p -> id = id';
  consistent_ids :
    forall id p, Client.pending_requests_ c !! id = Some p ->
                 exists n, id = IdInt n /\ 0 < n <= Client.request_id_counter_ c;
  consistent_counter : 0 <= Client.request_id_counter_ c;
}.



(** A client on a connected HTTP transport whose next POST fails; it still
    waits for the answer to request 1. *)
Definition http_down : HttpTransport :=
  mkHttp true true true [] [mkCurl false "Couldn't resolve host name" 0 None] [].

Definition client_http : Client.MCPClient HttpTransport :=
  Client.mkClient http_down true 1 {[IdInt 1 := 0%nat]} [Unset] ∅ None None [] [].

(** ** The stdio reader (C10) *)

(** The frame that a line contributes: none when the line is empty. *)
Definition frame_of (line : list ascii) : list (list ascii) :=
  match line with [] => [] | _ :: _ => [line] end.

(** The text before a frame ends a line: it is empty or ends with a newline. *)
Definition ends_line (pre : list ascii) : Prop :=
  pre = [] \/ exists pre', pre = pre' ++ [newline].

(** The text after a frame starts with a newline. *)
Definition terminated (post : list ascii) : Prop :=
  exists post', post = newline :: post'.

(** [frame] is a complete line of [cin] without its newline: it holds no
    newline, it starts where a line starts, and a newline follows it. *)
Definition complete_line (cin frame : list ascii) : Prop :=
  (newline ∉ frame) /\
  exists pre post, cin = pre ++ frame ++ post /\ ends_line pre /\ terminated post.

(** [frame] is a run of [cin] between two line boundaries: as a complete
    line, but the end of the input may stand for the newline that ends it. *)
Definition line_or_tail (cin frame : list ascii) : Prop :=
  (newline ∉ frame) /\
  exists pre post, cin = pre ++ frame ++ post /\ ends_line pre /\
                   (terminated post \/ post = []).

(** An input of three characters and no newline. *)
Definition abc : list ascii := list_ascii_of_string "abc".

(** ** Error codes and ids *)

(** The integers that [errorCodeFromInt] tells apart. *)
Definition known_codes : list Z :=
  [-32700; -32600; -32601; -32602; -32603; -32604; -32606; -32607; -32608; -32609].

(** ** What the decoders accept *)

(** The [jsonrpc] member of a document is the string "2.0". *)
Definition version_ok (m : gmap string json) : bool :=
  match m !! "jsonrpc" with
  | Some v => is_version_2 v
  | None => false
  end.

(** The document [m] is accepted as the Request [r]. *)
Definition accepted_as_Request (m : gmap string json) (r : Request) : Prop :=
  version_ok m = true /\
  m !! "method" = Some (JString (req_method r)) /\
  req_params r = default json_object (m !! "params") /\
  match m !! "id" with
  | None => req_id r = Some IdNull
  | Some (JInt n) => req_id r = Some (IdInt (to_int n))
  | Some (JString s) => req_id r = Some (IdString s)
  | Some _ => False
  end.

(** The two kinds of exception that leave a decoder: the library rejected
    the text or a conversion, or the envelope is not a valid one. *)
Definition decode_failure (e : exn) : Prop :=
  (exists je, e = ExMCP (MCPError2 ParseError ("Failed to parse JSON: " +:+ json_what je))) \/
  (exists msg, e = ExMCP (MCPError2 InvalidRequest msg)).

(** [w] decodes to the envelope [E]. *)
Definition decoded (w : wire) (E : Envelope) : Prop :=
  match E with
  | ERequest r => Request_deserialize w = Ret r
  | EResponse r => Response_deserialize w = Ret r
  | ENotification n => Notification_deserialize w = Ret n
  end.

(** The envelope holds a null where the encoders leave the member out: the
    params, or the data of the error. *)
Definition holds_null (E : Envelope) : Prop :=
  match E with
  | ERequest r => req_params r = JNull
  | EResponse r => exists e, resp_error r = Some e /\ data_ e = JNull
  | ENotification n => notif_params n = JNull
  end.

(** The Response objects that the constructors, the setters and the decoder
    make. *)
Inductive Response_made : Response -> Prop :=
| made_default : Response_made Response_new
| made_result id result : Response_made (Response_result id result)
| made_error id error : Response_made (Response_error id error)
| made_setResult r result : Response_made r -> Response_made (setResult r result)
| made_setError r error : Response_made r -> Response_made (setError r error)
| made_setId r id : Response_made r -> Response_made (Response_setId r id)
| made_deserialize w r : Response_deserialize w = Ret r -> Response_made r.

(** The id that [Response::deserialize] reads off a document: an [id]
    member of another type is passed over. *)
Definition Response_id_of (m : gmap string json) : RequestId :=
  match m !! "id" with
  | Some (JInt n) => IdInt (to_int n)
  | Some (JString s) => IdString s
  | _ => IdNull
  end.

(** The error that [Response::deserialize] reads off the [error] member. *)
Definition error_of (errorJson : json) : res MCPError :=
  cv ← at_key errorJson "code";
  c ← get_int cv;
  message ← (if contains errorJson "message"
             then mv ← at_key errorJson "message"; get_string mv
             else Ret "");
  data ← value_or_object errorJson "data";
  Ret (mkMCPError (errorCodeFromInt c) message data).

(** ** The routers *)

(** What no inbound frame changes in a server: the flags, the registries and
    the name and version. *)
Definition same_configuration {T : Type} (s s' : Server.MCPServer T) : Prop :=
  Server.running_ s' = Server.running_ s /\
  Server.initialized_ s' = Server.initialized_ s /\
  Server.tool_registry_ s' = Server.tool_registry_ s /\
  Server.resource_registry_ s' = Server.resource_registry_ s /\
  Server.prompt_registry_ s' = Server.prompt_registry_ s /\
  Server.server_name_ s' = Server.server_name_ s /\
  Server.server_version_ s' = Server.server_version_ s.

(** ** The listings and the capabilities *)

(** [entries] lists the map [m] by ascending key: it holds exactly the
    entries of the map, and the keys increase strictly. *)
Definition key_ordered_listing {V} (m : gmap string V) (entries : list (string * V)) : Prop :=
  (forall k v, (k, v) ∈ entries <-> m !! k = Some v) /\
  StronglySorted (fun a b => String.ltb a b = true) entries.*1.

(** The element of a listing, as [handleToolsList], [handleResourcesList]
    and [handlePromptsList] build it. *)
Definition tool_listing (name : string) (info : ToolInfo) : json :=
  JObject (<["inputSchema" := tool_input_schema info]>
             (<["description" := JString (tool_description info)]>
                (<["name" := JString name]> ∅))).

Definition resource_listing (uri : string) (info : ResourceInfo) : json :=
  JObject (<["mimeType" := JString (resource_mime_type info)]>
             (<["description" := JString (resource_description info)]>
                (<["name" := JString (resource_name info)]>
                   (<["uri" := JString uri]> ∅)))).

Definition prompt_listing (name : string) (info : PromptInfo) : json :=
  JObject (<["arguments" := prompt_arguments info]>
             (<["description" := JString (prompt_description info)]>
                (<["name" := JString name]> ∅))).

(** The members that [handleInitialize] can put into the capabilities. *)
Definition capability_keys : list string := ["tools"; "resources"; "prompts"].

(** ** Calls of tools *)

(** The params of [tools/call], as [MCPClient::callTool] builds them:
    [{"name": name, "arguments": arguments}]. *)
Definition tool_call_params (name : string) (arguments : json) : json :=
  JObject (<["arguments" := arguments]> (<["name" := JString name]> ∅)).

(** A server on a connected stdio transport that has the two example tools. *)
Definition echo_info : ToolInfo := mkToolInfo "echo" "Echo back the provided message" json_object.
Definition file_read_info : ToolInfo := mkToolInfo "file_read" "Read a file" json_object.

Definition server_with_examples : Server.MCPServer StdioTransport :=
  Server.mkServer stdio_up true false
    (<["file_read" := mkToolEntry file_read_info FileReadTool_execute]>
       {["echo" := mkToolEntry echo_info EchoTool_execute]})
    ∅ ∅ "s" "1" [].

(** The registries of tools that [registerTool] and [unregisterTool] make
    from the empty one. *)
Inductive ToolRegistry_made : gmap string ToolEntry -> Prop :=
| ToolRegistry_empty : ToolRegistry_made ∅
| ToolRegistry_registered tools_ name info handler tools' entries :
    ToolRegistry_made tools_ ->
    registerTool tools_ name info handler = Ret (tools', entries) ->
    ToolRegistry_made tools'
| ToolRegistry_unregistered tools_ name :
    ToolRegistry_made tools_ ->
    ToolRegistry_made (unregisterTool tools_ name).1.

(** ** The client *)

(** A call of the response callback. *)
Definition is_CallResponse (k : callback_call) : Prop :=
  exists id r, k = CallResponse id r.

(** The six calls of the client that want the client initialized: what each
    returns and the client afterwards. *)
Definition api_calls {T : Type} `{ITransport T} (c : Client.MCPClient T)
    (name : string) (arguments : json) : list (res nat * Client.MCPClient T) :=
  [Client.callTool c name arguments; Client.listTools c; Client.readResource c name;
   Client.listResources c; Client.getPrompt c name arguments; Client.listPrompts c].

(** ** A request and its answer, from the client to the server and back *)

(** The Response that [handleRequest] makes of what the handler returns or
    throws. *)
Definition Response_of (id : RequestId) (outcome : res json) : Response :=
  match outcome with
  | Ret result => Response_result id result
  | Throw (ExMCP e) => Response_error id e
  | Throw e => Response_error id (MCPError2 InternalError ("Internal error: " +:+ exn_what e))
  end.

(** A Response as the peer decodes it: null data of an error comes back as
    the empty object, and each number of the result or of the data that is
    not finite comes back as [null]. *)
Definition as_received (r : Response) : Response :=
  match resp_error r with
  | Some e => mkResponse (resp_id r) (resp_result r) (Some (error_back e))
  | None => mkResponse (resp_id r) (dumped (resp_result r)) None
  end.

(** A tool whose result holds a number that is not finite, as the product of
    two large numbers is: [{"result": inf}]. *)
Definition overflow_result : json := JObject {["result" := JFloat (S754_infinity false)]}.

Definition overflow_tool : ToolEntry :=
  mkToolEntry (mkToolInfo "square" "Multiply a number by itself" json_object)
              (fun _ => Ret overflow_result).

Definition server_with_overflow : Server.MCPServer StdioTransport :=
  Server.mkServer stdio_up true false {["square" := overflow_tool]} ∅ ∅ "s" "1" [].

(** A client and a server, each on a connected stdio transport of its own. *)
Definition client0 : Client.MCPClient StdioTransport := Client.MCPClient_new stdio_up.

Definition client_info : Client.ClientInfo := Client.mkClientInfo "c" "1".

(** What a user of the client and its transport can do to it, one call at a
    time.  A request is sent while the counter of the ids has not reached
    [INT_MAX]. *)
Inductive Client_step {T : Type} `{ITransport T} `{ITransportLink T}
    (c : Client.MCPClient T) : Client.MCPClient T -> Prop :=
| step_sendRequest method params :
    Client.request_id_counter_ c < INT_MAX ->
    Client_step c (Client.sendRequest c method params).2
| step_initialize clientInfo :
    Client.request_id_counter_ c < INT_MAX ->
    Client_step c (Client.initialize c clientInfo).2
| step_api name arguments call :
    Client.request_id_counter_ c < INT_MAX ->
    call ∈ api_calls c name arguments ->
    Client_step c call.2
| step_handleMessage message : Client_step c (Client.handleMessage c message)
| step_connect : Client_step c (Client.connect c).2
| step_disconnect : Client_step c (Client.disconnect c)
| step_subscribe method callback : Client_step c (Client.subscribe c method callback)
| step_unsubscribe method : Client_step c (Client.unsubscribe c method)
| step_onNotification callback : Client_step c (Client.onNotification c callback)
| step_onResponse callback : Client_step c (Client.onResponse c callback)
| step_setInitialized b : Client_step c (Client.setInitialized c b).

(** The states that a client reaches from its construction. *)
Definition Client_reachable {T : Type} `{ITransport T} `{ITransportLink T}
    (c : Client.MCPClient T) : Prop :=
  exists transport, rtc Client_step (Client.MCPClient_new transport) c.

(** ** The stdio transport, writer and reader *)

(** The characters that [StdioTransport::write] puts on [std::cout] for the
    frames: each frame is followed by [std::endl]. *)
Definition on_the_wire (frames : list (list ascii)) : list ascii :=
  concat ((fun frame => frame ++ [newline]) <$> frames).

(** A frame that the reader can give back: it is not empty and holds no
    newline. *)
Definition one_line (frame : list ascii) : Prop :=
  frame <> [] /\ newline ∉ frame.

(* ===================================================================== *)
(** * Properties *)
(* ===================================================================== *)

(** ** The members of a serialized document *)

Lemma put_id_lookup id (j : gmap string json) k :
  put_id id j !! k = if decide (k = "id") then
                       match id_member id with Some v => Some v | None => j !! k end
                     else j !! k.
Proof.
  unfold put_id, id_member.
  destruct id as [[| n | s]|]; case_decide; subst; simplify_map_eq; done.
Qed.

Lemma put_params_lookup params (j : gmap string json) k :
  put_params params j !! k = if decide (k = "params") then
                               match params_member params with Some v => Some v | None => j !! k end
                             else j !! k.
Proof.
  unfold put_params, params_member.
  destruct (is_null params); case_decide; subst; simplify_map_eq; done.
Qed.

Lemma Request_document_lookup r k :
  Request_document r !! k =
    if decide (k = "params") then params_member (req_params r)
    else if decide (k = "id") then id_member (req_id r)
    else if decide (k = "method") then Some (JString (req_method r))
    else if decide (k = "jsonrpc") then Some (JString "2.0")
    else None.
Proof.
  unfold Request_document. rewrite put_params_lookup, put_id_lookup.
  repeat case_decide; subst; simplify_map_eq; try done;
    repeat (case_match; simplify_map_eq; try done).
Qed.

Lemma Response_document_lookup r k :
  Response_document r !! k =
    if decide (k = "error") then toJson <$> resp_error r
    else if decide (k = "result") then
      match resp_error r with Some _ => None | None => Some (resp_result r) end
    else if decide (k = "id") then id_member (resp_id r)
    else if decide (k = "jsonrpc") then Some (JString "2.0")
    else None.
Proof.
  unfold Response_document.
  destruct (resp_error r) as [e|]; simpl.
  - destruct (decide (k = "error")) as [->|]; [by rewrite lookup_insert_eq|].
    rewrite lookup_insert_ne, put_id_lookup by done.
    repeat case_decide; subst; simplify_map_eq; try done;
      repeat (case_match; simplify_map_eq; try done).
  - destruct (decide (k = "error")) as [->|].
    + rewrite lookup_insert_ne, put_id_lookup by done. by simplify_map_eq.
    + destruct (decide (k = "result")) as [->|]; [by rewrite lookup_insert_eq|].
      rewrite lookup_insert_ne, put_id_lookup by done.
      repeat case_decide; subst; simplify_map_eq; try done;
        repeat (case_match; simplify_map_eq; try done).
Qed.

Lemma Notification_document_lookup n k :
  Notification_document n !! k =
    if decide (k = "params") then params_member (notif_params n)
    else if decide (k = "method") then Some (JString (notif_method n))
    else if decide (k = "jsonrpc") then Some (JString "2.0")
    else None.
Proof.
  unfold Notification_document. rewrite put_params_lookup.
  repeat case_decide; subst; simplify_map_eq; try done;
    repeat (case_match; simplify_map_eq; try done).
Qed.

Lemma toJson_lookup e k :
  toJson_members e !! k =
    if decide (k = "data") then params_member (data_ e)
    else if decide (k = "message") then Some (JString (what_ e))
    else if decide (k = "code") then Some (JInt (ErrorCode_value (code_ e)))
    else None.
Proof.
  unfold toJson_members, params_member.
  destruct (is_null (data_ e)); repeat case_decide; subst; simplify_map_eq; done.
Qed.

Lemma errorCode_FromInt_value c : errorCodeFromInt (to_int (ErrorCode_value c)) = c.
Proof. by destruct c. Qed.

Lemma errorCodeToInt_value c : errorCodeToInt c = ErrorCode_value c.
Proof. by destruct c. Qed.

(** What the decoders see of a document: its members. *)
Lemma contains_object m k : contains (JObject m) k = bool_decide (is_Some (m !! k)).
Proof. done. Qed.

Lemma at_key_object m k : at_key (JObject m) k = Ret (default JNull (m !! k)).
Proof. done. Qed.

#[local] Arguments contains : simpl never.
#[local] Arguments at_key : simpl never.

(** ** Values and what [dump()] keeps of them *)

Lemma json_size_member (m : gmap string json) k v :
  m !! k = Some v -> (json_size v < json_size (JObject m))%nat.
Proof.
  simpl. revert k v.
  apply (map_fold_weak_ind (fun r (m : gmap string json) =>
           forall k v, m !! k = Some v -> (json_size v < S r)%nat)).
  - intros k v. by rewrite lookup_empty.
  - intros i x m' r Hi IH k v. rewrite lookup_insert_Some.
    intros [[<- <-]|[_ Hk]]; [lia|]. specialize (IH _ _ Hk). lia.
Qed.

Lemma json_size_element xs x : x ∈ xs -> (json_size x < json_size (JArray xs))%nat.
Proof.
  simpl. induction 1 as [x xs|x y xs Hin IH]; simpl; lia.
Qed.

(** Induction on a value, through its elements and its members. *)
Lemma json_nested_ind (P : json -> Prop) :
  P JNull -> (forall b, P (JBool b)) -> (forall n, P (JInt n)) ->
  (forall f, P (JFloat f)) -> (forall s, P (JString s)) ->
  (forall xs, Forall P xs -> P (JArray xs)) ->
  (forall m, map_Forall (fun _ => P) m -> P (JObject m)) ->
  forall j, P j.
Proof.
  intros Hnull Hbool Hint Hfloat Hstring Harray Hobject j.
  remember (json_size j) as n eqn:Hn. revert j Hn.
  induction n as [n IH] using lt_wf_ind. intros j ->.
  destruct j as [| | | | |xs|m]; auto.
  - apply Harray, Forall_forall. intros x Hx.
    apply (IH (json_size x)); [by apply json_size_element|done].
  - apply Hobject. intros k v Hk.
    apply (IH (json_size v)); [by eapply json_size_member|done].
Qed.

Lemma all_finite_object (m : gmap string json) :
  all_finite (JObject m) = true <-> map_Forall (fun _ v => all_finite v = true) m.
Proof.
  simpl.
  apply (map_fold_weak_ind (fun r (m : gmap string json) =>
           r = true <-> map_Forall (fun _ v => all_finite v = true) m)).
  - split; [intros _; apply map_Forall_empty|done].
  - intros i x m' r Hi IH. rewrite map_Forall_insert by done.
    rewrite andb_true_iff, IH. done.
Qed.

(** [dump()] and [parse] give back exactly the values that hold no number
    that is NaN or infinite. *)
Lemma all_finite_dumped j : all_finite j = true <-> dumped j = j.
Proof.
  induction j as [| | |f| |xs IH|m IH] using json_nested_ind; try done.
  - simpl. destruct (is_finite f); split; done.
  - simpl. rewrite forallb_forall. split.
    + intros Hall. f_equal. induction IH as [|x xs Hx _ IHxs]; [done|].
      rewrite fmap_cons. f_equal.
      * apply Hx, Hall. by left.
      * apply IHxs. intros y Hy. apply Hall. by right.
    + intros [= Hxs]. induction IH as [|x xs Hx _ IHxs]; [by intros ? []|].
      rewrite fmap_cons in Hxs. injection Hxs as Hx' Hxs'.
      intros y [<-|Hy]; [by apply Hx|by apply IHxs].
  - rewrite all_finite_object. simpl. split.
    + intros Hall. f_equal. apply map_eq. intros k. rewrite lookup_fmap.
      destruct (m !! k) as [v|] eqn:Hk; [|done]. simpl. f_equal.
      by apply (IH k v Hk), (Hall k v Hk).
    + intros [= Hm] k v Hk. apply (IH k v Hk).
      assert (Hl : (dumped <$> m) !! k = Some (dumped v)) by (by rewrite lookup_fmap, Hk).
      rewrite Hm, Hk in Hl. by injection Hl.
Qed.

Lemma dumped_idemp j : dumped (dumped j) = dumped j.
Proof.
  induction j as [| | |f| |xs IH|m IH] using json_nested_ind; try done.
  - simpl. by destruct (is_finite f) eqn:Hf; simpl; rewrite ?Hf.
  - simpl. f_equal. rewrite <- list_fmap_compose.
    apply Forall_fmap_ext_1. done.
  - simpl. f_equal. apply map_eq. intros k. rewrite !lookup_fmap.
    destruct (m !! k) as [v|] eqn:Hk; [|done]. simpl. f_equal. by apply (IH k v).
Qed.

Lemma all_finite_of_dumped j : all_finite (dumped j) = true.
Proof. apply all_finite_dumped, dumped_idemp. Qed.

(** The text of an object parses to the object of the members read back. *)
Lemma json_parse_object m : json_parse (Dump (JObject m)) = Ret (JObject (dumped <$> m)).
Proof. done. Qed.

Lemma read_back_fix j : read_back j = j <-> comes_back j.
Proof.
  unfold read_back, comes_back, object_if_null. rewrite all_finite_dumped.
  destruct j; simpl; split; try done; try (by intros [? ?]); try (by intros [[] ?]).
  all: intros Hj; split; [discriminate|exact Hj].
Qed.

Lemma Request_serialize_deserialize r :
  Request_deserialize (Request_serialize r)
  = Ret (mkRequest (Some (id_back (req_id r))) (req_method r) (read_back (req_params r))).
Proof.
  unfold Request_deserialize, Request_serialize, json_dump.
  rewrite json_parse_object.
  unfold bad_version, value_or_object, Request_new, read_back, object_if_null.
  cbn [mbind res_bind].
  rewrite !contains_object, !at_key_object, !lookup_fmap, !Request_document_lookup.
  destruct r as [id method params]; simpl.
  unfold id_member, params_member.
  destruct id as [[| n | s]|]; destruct params; simpl; reflexivity.
Qed.

Lemma Notification_serialize_deserialize n :
  Notification_deserialize (Notification_serialize n)
  = Ret (Notification_new (notif_method n) (read_back (notif_params n))).
Proof.
  unfold Notification_deserialize, Notification_serialize, json_dump.
  rewrite json_parse_object.
  unfold bad_version, value_or_object, Notification_new, read_back, object_if_null.
  cbn [mbind res_bind].
  rewrite !contains_object, !at_key_object, !lookup_fmap, !Notification_document_lookup.
  destruct n as [id method params]; simpl.
  unfold params_member.
  destruct params; reflexivity.
Qed.

Lemma Response_serialize_deserialize r :
  Response_deserialize (Response_serialize r)
  = Ret match resp_error r with
        | Some e => Response_error (id_back (resp_id r)) (error_back e)
        | None => Response_result (id_back (resp_id r)) (dumped (resp_result r))
        end.
Proof.
  unfold Response_deserialize, Response_serialize, json_dump.
  rewrite json_parse_object.
  unfold bad_version, value_or_object.
  cbn [mbind res_bind].
  rewrite !contains_object, !at_key_object, !lookup_fmap, !Response_document_lookup.
  destruct r as [id result [e|]]; simpl.
  - unfold toJson. cbn [dumped].
    rewrite !contains_object, !at_key_object, !lookup_fmap, !toJson_lookup. simpl.
    unfold error_back, read_back, object_if_null, params_member, id_member.
    rewrite errorCode_FromInt_value.
    destruct e as [c w d]; simpl.
    destruct id as [[| n | s]|]; destruct d; reflexivity.
  - unfold id_member. destruct id as [[| n | s]|]; reflexivity.
Qed.

(** ** C3: the round trip *)

Lemma to_int_fix n : to_int n = n <-> in_int n.
Proof.
  split; [intros <-; apply to_int_in_int | apply to_int_id].
Qed.

Lemma id_back_kept id : Some (id_back id) = id <-> id_kept id.
Proof.
  destruct id as [[| n | s]|]; simpl; try (split; [done|done]).
  - rewrite <- to_int_fix. split; [by intros [= ->] | by intros ->].
Qed.

Lemma object_if_null_fix j : object_if_null j = j <-> j <> JNull.
Proof.
  unfold object_if_null, json_object. destruct j; simpl; split; try done.
Qed.

(** C3, counterexample: a Request without params (null) comes back with the
    empty object as its params. *)
Lemma C3_null_params_not_preserved :
  ~ roundtrips (ERequest (Request_new (IdInt 1) "tools/list" JNull)).
Proof.
  unfold roundtrips. rewrite Request_serialize_deserialize. simpl. discriminate.
Qed.

(** A Response whose result holds an infinite number does not come back
    either: [dump()] writes the number as [null]. *)
Example infinite_result_not_preserved :
  Response_deserialize (Response_serialize (Response_result (IdInt 1) overflow_result))
  = Ret (Response_result (IdInt 1) (JObject {["result" := JNull]})).
Proof. vm_compute. reflexivity. Qed.

(** C3, amended: deserializing the serialization of an envelope yields the
    envelope again exactly when the envelope [survives]: a Request or Response
    holds an id (an integer id comes back as the same integer, a string id as
    the same string), a Notification holds none, the params of a Request or
    Notification and the data of a Response's error are not null, a Response
    with an error has the empty object as result, and the params, the result
    and the data hold no number that is NaN or infinite ([dump()] writes such
    a number as [null]). *)
Theorem C3_roundtrip_iff_survives (E : Envelope) : roundtrips E <-> survives E.
Proof.
  destruct E as [[id method params] | [id result err] | [id method params]];
    unfold roundtrips, survives; simpl.
  - rewrite Request_serialize_deserialize; simpl.
    rewrite <- id_back_kept, <- read_back_fix.
    split.
    + intros [= Hid Hp]. by rewrite Hid.
    + intros [-> ->]. done.
  - rewrite Response_serialize_deserialize; simpl.
    rewrite <- id_back_kept.
    destruct err as [[c w d]|]; simpl.
    + rewrite <- read_back_fix.
      unfold Response_error, error_back; simpl. split.
      * intros [= Hid Hr Hd]. by rewrite Hid.
      * intros (-> & -> & ->). done.
    + rewrite all_finite_dumped. unfold Response_result. split.
      * intros [= Hid Hr]. by rewrite Hid.
      * intros [-> ->]. done.
  - rewrite Notification_serialize_deserialize; simpl.
    rewrite <- read_back_fix. unfold Notification_new. split.
    + intros [= Hid Hp]. by rewrite <- Hid.
    + intros [-> ->]. done.
Qed.

(** ** C4: result and error in a Response *)

(** C4, counterexample: the document with both [result] and [error] is
    accepted; it decodes to the error Response and the result is dropped. *)
Lemma C4_both_members_accepted :
  contains (JObject both_members) "result" = true /\
  contains (JObject both_members) "error" = true /\
  Response_deserialize (Dump (JObject both_members))
  = Ret (Response_error (IdInt 1) (mkMCPError MethodNotFound "no" json_object)).
Proof. vm_compute. done. Qed.

(** C4, amended: (1) a [result] member beside an [error] member is ignored:
    the document is decoded as it is without the [result], so it is rejected
    only if it is rejected without it; (2) a document of version 2.0 with
    neither member is rejected with InvalidRequest; (3) a serialized Response
    has exactly one of the two members. *)
Theorem C4_result_xor_error (m : gmap string json) (e x : json) (r : Response) :
  Response_deserialize (Dump (JObject (<["result" := x]> (<["error" := e]> m))))
    = Response_deserialize (Dump (JObject (<["error" := e]> m)))
  /\ Response_deserialize
       (Dump (JObject (<["jsonrpc" := JString "2.0"]> (delete "result" (delete "error" m)))))
    = Throw (ExMCP (MCPError2 InvalidRequest "Missing result or error"))
  /\ xorb (contains (JObject (Response_document r)) "result")
          (contains (JObject (Response_document r)) "error") = true.
Proof.
  split; [|split].
  - unfold Response_deserialize. rewrite !json_parse_object, !fmap_insert.
    unfold bad_version. cbn [mbind res_bind].
    rewrite !contains_object, !at_key_object.
    rewrite !(lookup_insert_ne _ "result" "jsonrpc") by done.
    rewrite !(lookup_insert_ne _ "result" "id") by done.
    rewrite !(lookup_insert_ne _ "result" "error") by done.
    rewrite !lookup_insert_eq.
    replace (bool_decide (is_Some (Some (dumped e)))) with true by done.
    reflexivity.
  - unfold Response_deserialize.
    rewrite json_parse_object, fmap_insert, !fmap_delete.
    unfold bad_version. cbn [mbind res_bind dumped].
    rewrite !contains_object, !at_key_object.
    rewrite lookup_insert_eq.
    rewrite !(lookup_insert_ne _ "jsonrpc" "id") by done.
    rewrite !(lookup_insert_ne _ "jsonrpc" "error") by done.
    rewrite !(lookup_insert_ne _ "jsonrpc" "result") by done.
    rewrite (lookup_delete_ne _ "result" "error") by done.
    rewrite (lookup_delete_ne _ "result" "id") by done.
    rewrite (lookup_delete_ne _ "error" "id") by done.
    rewrite !lookup_delete_eq, lookup_fmap. simpl.
    destruct (m !! "id") as [[| | |f| | |]|]; simpl; try reflexivity.
    by destruct (is_finite f).
  - rewrite !contains_object, !Response_document_lookup. simpl.
    by destruct (resp_error r).
Qed.

(** ** The server *)

Section ServerFacts.
Context {T : Type} `{ITransport T}.
Implicit Types s : Server.MCPServer T.

Lemma foldl_onError_initialized s b errors :
  foldl Server.onError (Server.set_initialized s b) errors
  = Server.set_initialized (foldl Server.onError s errors) b.
Proof.
  revert s. induction errors as [|e errors IH]; intros s; simpl; [done|].
  rewrite <- IH. done.
Qed.

Lemma transport_write_initialized s b frame :
  Server.transport_write (Server.set_initialized s b) frame
  = ((Server.transport_write s frame).1,
     Server.set_initialized (Server.transport_write s frame).2 b).
Proof.
  unfold Server.transport_write. simpl.
  destruct (write (Server.transport_ s) frame) as [[ok t] errors]. simpl.
  f_equal. apply (foldl_onError_initialized (Server.set_transport s t)).
Qed.

(** The registries, name and version are all a handler reads of the server. *)
Lemma dispatch_initialized s b method params :
  Server.dispatch (Server.set_initialized s b) method params
  = Server.dispatch s method params.
Proof. reflexivity. Qed.

Lemma foldl_onError_registries s errors :
  let s' := foldl Server.onError s errors in
  Server.tool_registry_ s' = Server.tool_registry_ s /\
  Server.resource_registry_ s' = Server.resource_registry_ s /\
  Server.prompt_registry_ s' = Server.prompt_registry_ s /\
  Server.initialized_ s' = Server.initialized_ s.
Proof.
  revert s. induction errors as [|e errors IH]; intros s; simpl; [done|].
  apply (IH (Server.onError s e)).
Qed.

Lemma transport_write_registries s frame :
  let s' := (Server.transport_write s frame).2 in
  Server.tool_registry_ s' = Server.tool_registry_ s /\
  Server.resource_registry_ s' = Server.resource_registry_ s /\
  Server.prompt_registry_ s' = Server.prompt_registry_ s /\
  Server.initialized_ s' = Server.initialized_ s.
Proof.
  unfold Server.transport_write.
  destruct (write (Server.transport_ s) frame) as [[ok t] errors]. simpl.
  apply (foldl_onError_registries (Server.set_transport s t)).
Qed.

(** [Request::deserialize] always sets the id (null when the document has
    none), so [handleMessage] takes every document that has a method for a
    request. *)
Lemma Request_deserialize_has_id w r :
  Request_deserialize w = Ret r -> is_Some (req_id r).
Proof.
  assert (match Request_deserialize w with
          | Ret r => is_Some (req_id r)
          | Throw _ => True
          end) as Hall.
  { unfold Request_deserialize, Request_new, catch_json.
    destruct (json_parse w) as [j|e]; cbn [mbind res_bind]; [|by destruct e].
    destruct (bad_version j); [done|].
    destruct (negb (contains j "method")); [done|].
    destruct (contains j "id"); cbn [mbind res_bind].
    - destruct (at_key j "id") as [v|[]]; cbn [mbind res_bind]; try done.
      destruct (is_number_integer v); cbn [mbind res_bind].
      + destruct (get_int v) as [n|[]]; cbn [mbind res_bind]; try done.
        destruct (at_key j "method") as [mv|[]]; cbn [mbind res_bind]; try done.
        destruct (get_string mv) as [m|[]]; cbn [mbind res_bind]; try done.
        destruct (value_or_object j "params") as [p|[]]; cbn [mbind res_bind]; try done.
        all: simpl; eauto.
      + destruct (is_string v); cbn [mbind res_bind]; [|done].
        destruct (get_string v) as [n|[]]; cbn [mbind res_bind]; try done.
        destruct (at_key j "method") as [mv|[]]; cbn [mbind res_bind]; try done.
        destruct (get_string mv) as [m|[]]; cbn [mbind res_bind]; try done.
        destruct (value_or_object j "params") as [p|[]]; cbn [mbind res_bind]; try done.
        all: simpl; eauto.
    - destruct (at_key j "method") as [mv|[]]; cbn [mbind res_bind]; try done.
      destruct (get_string mv) as [m|[]]; cbn [mbind res_bind]; try done.
      destruct (value_or_object j "params") as [p|[]]; cbn [mbind res_bind]; try done.
      all: simpl; eauto. }
  intros Hr. by rewrite Hr in Hall.
Qed.

(** Hence a frame that decodes as a Request is handled by [handleRequest],
    and the branch of [handleMessage] for notifications is never taken. *)
Lemma handleMessage_decoded s w r :
  Request_deserialize w = Ret r ->
  Server.handleMessage s w
  = match Server.handleRequest s r with
    | Ret s' => s'
    | Throw e => Server.failed_to_handle s e
    end.
Proof.
  intros Hr. unfold Server.handleMessage. rewrite Hr.
  by rewrite bool_decide_eq_true_2 by (by eapply Request_deserialize_has_id).
Qed.

(** No frame changes the phase: [initialized_] is set by [handleNotification]
    only, which [handleMessage] does not reach. *)
Lemma handleMessage_initialized s w :
  Server.initialized_ (Server.handleMessage s w) = Server.initialized_ s.
Proof.
  destruct (Request_deserialize w) as [r|e] eqn:Hr.
  - rewrite (handleMessage_decoded s w r Hr).
    unfold Server.handleRequest.
    destruct (Request_deserialize_has_id w r Hr) as [id ->].
    destruct (Server.dispatch s (req_method r) (req_params r)) as [result|[e|e|e]];
      try apply transport_write_registries.
    pose proof (transport_write_registries s (Server.result_frame id result)) as Hw.
    destruct (Server.transport_write s (Server.result_frame id result)) as [ok s1].
    cbn [fst snd] in *. destruct ok; [simpl; tauto|].
    etransitivity; [apply transport_write_registries|tauto].
  - unfold Server.handleMessage. by rewrite Hr.
Qed.

(** The codes of the errors that a handler can raise: INVALID_REQUEST is not
    among them. *)
Lemma dispatch_error_code s method params e :
  Server.dispatch s method params = Throw (ExMCP e) ->
  code_ e = InvalidParams \/ code_ e = MethodNotFound \/
  code_ e = ResourceNotFound \/ code_ e = InternalError.
Proof.
  set (P := fun e : MCPError =>
              code_ e = InvalidParams \/ code_ e = MethodNotFound \/
              code_ e = ResourceNotFound \/ code_ e = InternalError).
  set (good := fun m : res json => match m with Throw (ExMCP e) => P e | _ => True end).
  assert (forall m prefix, good (rethrow_internal prefix m)) as Hre.
  { intros [r|x] prefix; simpl; [done|]. unfold P. simpl. tauto. }
  assert (forall j k (f : string -> res json),
            (forall x, good (f x)) ->
            good (nv ← at_key j k; name ← get_string nv; f name)) as Hname.
  { intros j k f Hf. destruct (at_key j k) as [v|x] eqn:Hv; cbn [mbind res_bind].
    - destruct v; simpl; solve [done | apply Hf].
    - destruct j; simpl in Hv; try discriminate; injection Hv as <-; done. }
  assert (forall j k (f : json -> res json),
            (forall x, good (f x)) -> good (a ← value_or_object j k; f a)) as Hargs.
  { intros j k f Hf. unfold value_or_object.
    destruct (contains j k); [|apply Hf].
    destruct (at_key j k) as [v|x] eqn:Hv; cbn [mbind res_bind]; [apply Hf|].
    destruct j; simpl in Hv; try discriminate; injection Hv as <-; done. }
  assert (good (Server.dispatch s method params)) as Hgood.
  { unfold Server.dispatch.
    repeat match goal with |- context [String.eqb method ?k] =>
             destruct (String.eqb method k) end.
    - unfold Server.handleInitialize.
      destruct (negb _); [unfold good, P; simpl; tauto|].
      destruct (at_key params "clientInfo") as [v|x] eqn:Hv; cbn [mbind res_bind].
      + destruct (_ || _); [unfold good, P; simpl; tauto|done].
      + destruct params; simpl in Hv; try discriminate; injection Hv as <-; done.
    - unfold Server.handleToolCall.
      destruct (negb _); [unfold good, P; simpl; tauto|].
      apply Hname. intros name. apply Hargs. intros a. unfold callTool.
      destruct (_ !! name); [apply Hre|unfold good, P; simpl; tauto].
    - done.
    - unfold Server.handleResourceRead.
      destruct (negb _); [unfold good, P; simpl; tauto|].
      apply Hname. intros uri. unfold readResource.
      destruct (_ !! uri); [apply Hre|unfold good, P; simpl; tauto].
    - done.
    - unfold Server.handlePromptGet.
      destruct (negb _); [unfold good, P; simpl; tauto|].
      apply Hname. intros name. apply Hargs. intros a. unfold getPrompt.
      destruct (_ !! name); [apply Hre|unfold good, P; simpl; tauto].
    - done.
    - unfold good, P. simpl. tauto. }
  intros Heq. by rewrite Heq in Hgood.
Qed.

End ServerFacts.

(** ** C1: requests before [notifications/initialized] *)

(** C1, counterexample: the server has not been initialized, the request is
    [tools/list], and the answer is the result of the handler, not an
    INVALID_REQUEST error. *)
Lemma C1_tools_list_before_initialized :
  Server.initialized_ server0 = false /\
  stdio_cout (Server.transport_ (Server.handleMessage server0 tools_list_request))
  = [tools_list_answer].
Proof. vm_compute. done. Qed.

(** C1, amended: a request is handled in the same way in every phase.  What
    [handleRequest] does (the frames written, the log, the registries, an
    exception) does not depend on [initialized_], and it leaves the flag as
    it finds it: there is no gate on the phase. *)
Theorem C1_requests_not_gated {T : Type} `{ITransport T}
    (s : Server.MCPServer T) (b : bool) (request : Request) :
  Server.handleRequest (Server.set_initialized s b) request
  = (fun s' => Server.set_initialized s' b) <$> Server.handleRequest s request.
Proof.
  unfold Server.handleRequest.
  destruct (req_id request) as [id|]; [|done].
  rewrite dispatch_initialized.
  cbn [fmap res_fmap]. f_equal.
  destruct (Server.dispatch s (req_method request) (req_params request)) as [result|[e|e|e]];
    rewrite transport_write_initialized; try done.
  destruct (Server.transport_write s (Server.result_frame id result)) as [ok s1].
  cbn [fst snd]. destruct ok; [done|].
  by rewrite transport_write_initialized.
Qed.

(** ** C2: the answer to [initialize] *)

(** C2, counterexample: the client offers 2025-06-18 only.  Whether the server
    is taken to support 2024-11-05 alone (then there is no common version and
    the claim wants an error) or 2025-06-18 as well (then the claim wants
    2025-06-18), the answer, a result with 2024-11-05, is not the claimed one. *)
Lemma C2_version_not_negotiated :
  ~ negotiated ["2025-06-18"] ["2024-11-05"]
      (Server.handleInitialize server0 initialize_params) /\
  ~ negotiated ["2025-06-18"] ["2024-11-05"; "2025-06-18"]
      (Server.handleInitialize server0 initialize_params).
Proof.
  split.
  - intros (e & Hthrow & _). vm_compute in Hthrow. discriminate.
  - intros (m & Hret & Hv). vm_compute in Hret.
    injection Hret as <-. vm_compute in Hv. discriminate.
Qed.

(** C2, amended: for every initialize request whose params hold a clientInfo
    with a name and a version, whatever protocolVersion they carry, the result
    has protocolVersion 2024-11-05, the server's capabilities (a member for
    each registry that is not empty) and serverInfo (name and version). *)
Theorem C2_initialize_fixed_version {T : Type} `{ITransport T}
    (s : Server.MCPServer T) (params clientInfo : json) :
  contains params "clientInfo" = true ->
  at_key params "clientInfo" = Ret clientInfo ->
  contains clientInfo "name" = true ->
  contains clientInfo "version" = true ->
  exists result,
    Server.handleInitialize s params = Ret (JObject result) /\
    result !! "protocolVersion" = Some (JString "2024-11-05") /\
    result !! "capabilities" = Some (Server.build_capabilities s) /\
    result !! "serverInfo" = Some (Server.build_serverInfo s).
Proof.
  intros Hci Hat Hname Hversion.
  exists (Server.initialize_result s).
  unfold Server.handleInitialize.
  rewrite Hci, Hat. cbn [negb mbind res_bind]. rewrite Hname, Hversion.
  split; [done|]. unfold Server.initialize_result. by simplify_map_eq.
Qed.

Lemma C2_initialize_witness :
  exists result,
    Server.handleInitialize server0 initialize_params = Ret (JObject result) /\
    result !! "protocolVersion" = Some (JString "2024-11-05") /\
    result !! "capabilities" = Some (Server.build_capabilities server0) /\
    result !! "serverInfo" = Some (Server.build_serverInfo server0).
Proof.
  apply (C2_initialize_fixed_version server0 initialize_params
           (JObject (<["version" := JString "1"]> {["name" := JString "c"]})));
    reflexivity.
Defined.

(** ** C5: unknown methods *)

Lemma dispatch_unknown {T : Type} `{ITransport T} (s : Server.MCPServer T) method params :
  known_method method = false ->
  Server.dispatch s method params
  = Throw (ExMCP (MCPError2 MethodNotFound ("Method not found: " +:+ method))).
Proof.
  unfold known_method. intros Hk. apply bool_decide_eq_false in Hk.
  unfold Server.dispatch.
  repeat match goal with
         | |- context [String.eqb method ?k] =>
             destruct (String.eqb_spec method k) as [->|_];
             [exfalso; apply Hk; set_solver|]
         end.
  reflexivity.
Qed.

(** C5: for every request whose method is none of the methods that
    [handleRequest] compares with, the server makes exactly one write to the
    transport, of the serialization of a Response that holds the id of the
    request and the error MethodNotFound, whose code on the wire is -32601;
    the three registries are left as they were. *)
Theorem C5_unknown_method {T : Type} `{ITransport T}
    (s : Server.MCPServer T) (id : RequestId) (method : string) (params : json) :
  known_method method = false ->
  let request := Request_new id method params in
  let error := MCPError2 MethodNotFound ("Method not found: " +:+ method) in
  let response := Response_error id error in
  let s' := (Server.transport_write s (Response_serialize response)).2 in
  Server.handleRequest s request = Ret s' /\
  resp_id response = req_id request /\
  Response_document response !! "id" = id_member (req_id request) /\
  (exists members,
     Response_document response !! "error" = Some (JObject members) /\
     members !! "code" = Some (JInt (errorCodeToInt MethodNotFound))) /\
  errorCodeToInt MethodNotFound = -32601 /\
  Response_document response !! "result" = None /\
  Server.tool_registry_ s' = Server.tool_registry_ s /\
  Server.resource_registry_ s' = Server.resource_registry_ s /\
  Server.prompt_registry_ s' = Server.prompt_registry_ s.
Proof.
  intros Hk request error response s'.
  split; [|split; [|split; [|split; [|split; [|split]]]]].
  - unfold Server.handleRequest, request. simpl.
    by rewrite (dispatch_unknown s method params Hk).
  - done.
  - by rewrite Response_document_lookup.
  - exists (toJson_members error). split.
    + by rewrite Response_document_lookup.
    + by rewrite toJson_lookup.
  - done.
  - by rewrite Response_document_lookup.
  - pose proof (transport_write_registries s (Response_serialize response)) as Hr.
    simpl in Hr. unfold s'. tauto.
Qed.

Lemma C5_unknown_method_witness :
  known_method "nope" = false /\
  (fun s => stdio_cout (Server.transport_ s))
    <$> Server.handleRequest server0 (Request_new (IdInt 4) "nope" json_object)
  = Ret [unknown_method_answer].
Proof.
  split; [reflexivity|].
  rewrite (proj1 (C5_unknown_method server0 (IdInt 4) "nope" json_object eq_refl)).
  vm_compute. reflexivity.
Defined.

(** ** C6: a frame that is not JSON *)

(** C6, counterexample: the frame is not JSON, the transport is connected,
    and nothing is written: no error response is sent. *)
Lemma C6_no_parse_error_frame :
  json_parse (Malformed "{ jsonrpc: 2.0, id: 6, method:") = Throw (ExJson parse_error_101) /\
  isConnected (Server.transport_ server0) = true /\
  stdio_cout (Server.transport_
                (Server.handleMessage server0 (Malformed "{ jsonrpc: 2.0, id: 6, method:")))
  = [].
Proof. vm_compute. done. Qed.

(** C6, amended: for every frame that is not JSON, [handleMessage] writes
    nothing to the transport: the failure becomes an [MCPError] with ParseError
    (-32700), which is caught and logged; the server is otherwise unchanged, so
    the transport stays as it was (not closed). *)
Theorem C6_parse_failure_logged {T : Type} `{ITransport T}
    (s : Server.MCPServer T) (bytes : string) :
  Request_deserialize (Malformed bytes)
    = Throw (ExMCP (MCPError2 ParseError
                      ("Failed to parse JSON: " +:+ json_what parse_error_101))) /\
  errorCodeToInt ParseError = -32700 /\
  Server.handleMessage s (Malformed bytes)
    = Server.logger LvError
        ("Failed to handle message: " +:+ "Failed to parse JSON: " +:+ json_what parse_error_101) s /\
  Server.transport_ (Server.handleMessage s (Malformed bytes)) = Server.transport_ s.
Proof. done. Qed.

(** ** C7: tools/call *)


Section ToolCall.
Context {T : Type} `{ITransport T}.
Implicit Types s : Server.MCPServer T.



End ToolCall.



(** A write on a connected stdio transport puts the frame on [std::cout]
    and reports nothing to the error callback. *)
Lemma stdio_write_connected (s : Server.MCPServer StdioTransport) frame :
  isConnected (Server.transport_ s) = true ->
  Server.transport_write s frame
  = (true, Server.set_transport s
             (mkStdio (stdio_connected_ (Server.transport_ s))
                      (stdio_running_ (Server.transport_ s))
                      (stdio_cout (Server.transport_ s) ++ [frame]))).
Proof.
  unfold Server.transport_write. simpl. unfold StdioTransport_write.
  intros ->. reflexivity.
Qed.



(** ** The client *)

Section ClientFacts.
Context {T : Type} `{ITransport T}.
Implicit Types c : Client.MCPClient T.

Lemma foldl_onError_fields c errors :
  let c' := foldl Client.onError c errors in
  Client.transport_ c' = Client.transport_ c /\
  Client.pending_requests_ c' = Client.pending_requests_ c /\
  Client.promises_ c' = Client.promises_ c /\
  Client.request_id_counter_ c' = Client.request_id_counter_ c.
Proof.
  revert c. induction errors as [|e errors IH]; intros c; simpl; [done|].
  apply (IH (Client.onError c e)).
Qed.

Lemma transport_write_fields c frame :
  let c' := (Client.transport_write c frame).2 in
  Client.pending_requests_ c' = Client.pending_requests_ c /\
  Client.promises_ c' = Client.promises_ c /\
  Client.request_id_counter_ c' = Client.request_id_counter_ c.
Proof.
  unfold Client.transport_write.
  destruct (write (Client.transport_ c) frame) as [[ok t] errors]. simpl.
  pose proof (foldl_onError_fields (Client.set_transport c t) errors) as Hf.
  simpl in Hf. tauto.
Qed.

Lemma transport_write_ok c frame :
  (Client.transport_write c frame).1 = (write (Client.transport_ c) frame).1.1.
Proof.
  unfold Client.transport_write.
  by destruct (write (Client.transport_ c) frame) as [[ok t] errors].
Qed.

(** While the counter has not reached INT_MAX, the next id is not pending. *)
Lemma next_id_fresh c :
  consistent c -> Client.request_id_counter_ c < INT_MAX ->
  Client.pending_requests_ c !! IdInt (Client.next_id c) = None.
Proof.
  intros Hc Hmax.
  destruct (Client.pending_requests_ c !! IdInt (Client.next_id c)) as [p|] eqn:Hp; [|done].
  destruct (consistent_ids c Hc _ _ Hp) as (n & [= <-] & Hn).
  pose proof (consistent_counter c Hc).
  unfold Client.next_id in Hn. rewrite to_int_id in Hn; [lia|].
  unfold in_int, INT_MIN, INT_MAX in *. lia.
Qed.

(** [Response::deserialize] always sets the id (null when the document has
    none, or one that is neither an integer nor a string), so a frame that
    decodes as a Response is handled by [handleResponse]. *)
Lemma Response_deserialize_has_id w r :
  Response_deserialize w = Ret r -> is_Some (resp_id r).
Proof.
  assert (forall m : res Response,
            match m with Ret r => is_Some (resp_id r) | Throw _ => True end ->
            match catch_json m with Ret r => is_Some (resp_id r) | Throw _ => True end)
    as Hcatch.
  { intros [r'|[]]; simpl; done. }
  assert (match Response_deserialize w with
          | Ret r => is_Some (resp_id r)
          | Throw _ => True
          end) as Hall.
  { unfold Response_deserialize. apply Hcatch.
    destruct (json_parse w) as [j|e]; cbn [mbind res_bind]; [|done].
    destruct (bad_version j); [done|].
    match goal with |- context [mbind _ ?m] => destruct m as [id|e] end;
      cbn [mbind res_bind]; [|done].
    destruct (contains j "error"); cbn [mbind res_bind].
    - repeat (match goal with |- context [mbind _ ?m] => destruct m end;
              cbn [mbind res_bind]; [|done]).
      simpl; eauto.
    - destruct (contains j "result"); [|done].
      destruct (at_key j "result"); cbn [mbind res_bind]; [|done]. simpl; eauto. }
  intros Hr. by rewrite Hr in Hall.
Qed.

Lemma handleMessage_decoded_response c w r :
  Response_deserialize w = Ret r ->
  Client.handleMessage c w = Client.caught (Client.handleResponse c r).
Proof.
  intros Hr. unfold Client.handleMessage. rewrite Hr.
  by rewrite bool_decide_eq_true_2 by (by eapply Response_deserialize_has_id).
Qed.

End ClientFacts.

(** ** C8: an inbound Response *)




(** ** C9: a request that cannot be sent *)

(** C9: when the client is connected, the write of the request fails and the
    id of the request is not pending already, [sendRequest] returns the future
    of a new promise that holds the exception "Failed to send request", and the
    map of pending requests is the one before the call: the entry inserted
    before the write is removed. *)
Theorem C9_failed_send {T : Type} `{ITransport T}
    (c : Client.MCPClient T) (method : string) (params : json) :
  let id := IdInt (Client.next_id c) in
  let message := Request_serialize (Request_new id method params) in
  Client.isConnected c = true ->
  (write (Client.transport_ c) message).1.1 = false ->
  Client.pending_requests_ c !! id = None ->
  let future := (Client.sendRequest c method params).1 in
  let c' := (Client.sendRequest c method params).2 in
  future = Ret (length (Client.promises_ c)) /\
  Client.pending_requests_ c' = Client.pending_requests_ c /\
  Client.promises_ c' = Client.promises_ c ++ [Exception "Failed to send request"].
Proof.
  intros id message Hconn Hwrite Hfresh. cbv zeta.
  unfold Client.sendRequest. rewrite Hconn. cbn [negb].
  unfold Client.make_promise.
  set (c1 := Client.set_pending _ _).
  assert (Client.transport_ c1 = Client.transport_ c) as Ht by done.
  pose proof (transport_write_ok c1 message) as Hok.
  pose proof (transport_write_fields c1 message) as (Hpend & Hprom & _).
  fold id. fold message.
  destruct (Client.transport_write c1 message) as [ok c2]. cbn [fst snd] in *.
  rewrite Ht, Hwrite in Hok. subst ok. cbn [negb].
  unfold Client.satisfy. simpl. rewrite Hprom. simpl.
  rewrite lookup_app_r by done. rewrite Nat.sub_diag. simpl.
  split; [done|]. split.
  - rewrite Hpend. simpl. rewrite delete_insert_eq. by apply delete_id.
  - rewrite insert_app_r_alt by done. by rewrite Nat.sub_diag.
Qed.

Lemma C9_failed_send_witness :
  (Client.sendRequest client_http "tools/list" json_object).1 = Ret 1%nat /\
  Client.pending_requests_ (Client.sendRequest client_http "tools/list" json_object).2
    = {[IdInt 1 := 0%nat]} /\
  Client.promises_ (Client.sendRequest client_http "tools/list" json_object).2
    = [Unset; Exception "Failed to send request"].
Proof.
  exact (C9_failed_send client_http "tools/list" json_object eq_refl eq_refl eq_refl).
Defined.

(** ** The hypotheses of C8 and C9 hold in the states the client reaches *)

Section ClientInvariant.
Context {T : Type} `{ITransport T}.
Implicit Types c : Client.MCPClient T.

Lemma consistent_new (transport : T) : consistent (Client.MCPClient_new transport).
Proof. split; simpl; try done. Qed.

(** [consistent] looks at the map, the promises and the counter only. *)
Lemma consistent_same_fields c c' :
  Client.pending_requests_ c' = Client.pending_requests_ c ->
  Client.promises_ c' = Client.promises_ c ->
  Client.request_id_counter_ c' = Client.request_id_counter_ c ->
  consistent c -> consistent c'.
Proof.
  intros Hp Hq Hn [H1 H2 H3 H4].
  split; unfold pending_unsatisfied; rewrite ?Hp, ?Hq, ?Hn; done.
Qed.

Lemma consistent_caught c e : consistent c -> consistent (Client.caught (c, e)).
Proof. destruct e; simpl; by apply consistent_same_fields. Qed.

Lemma consistent_handleResponse c response :
  consistent c -> consistent (Client.handleResponse c response).1.
Proof.
  intros Hc. pose proof Hc as [H1 H2 H3 H4].
  unfold Client.handleResponse.
  destruct (resp_id response) as [id|]; [|by apply (consistent_same_fields c)].
  destruct (Client.pending_requests_ c !! id) as [p|] eqn:Hp;
    [|by apply (consistent_same_fields c)].
  unfold Client.satisfy. simpl. rewrite (H1 _ _ Hp). simpl.
  assert (consistent
            (Client.set_promises (Client.set_pending c (delete id (Client.pending_requests_ c)))
               (<[p := Value response]> (Client.promises_ c)))) as Hc'.
  { split; simpl; [| | |done].
    - intros id' p' Hp'; simpl in Hp' |- *. apply lookup_delete_Some in Hp' as [Hne Hp'].
      rewrite list_lookup_insert_ne; [by eapply H1|].
      intros <-. apply Hne. by eapply H2.
    - intros id1 id2 p' Hp1 Hp2; simpl in Hp1, Hp2 |- *.
      apply lookup_delete_Some in Hp1 as [_ Hp1].
      apply lookup_delete_Some in Hp2 as [_ Hp2]. by eapply H2.
    - intros id' p' Hp'; simpl in Hp' |- *. apply lookup_delete_Some in Hp' as [_ Hp']. by eapply H3. }
  destruct (Client.responseCallback_ c) as [callback|]; [|done].
  destruct (callback id response); simpl;
    (eapply consistent_same_fields; [| | |exact Hc']; reflexivity).
Qed.

Lemma consistent_handleNotification c notification :
  consistent c -> consistent (Client.handleNotification c notification).1.
Proof.
  intros Hc. unfold Client.handleNotification.
  destruct (Client.subscriptions_ c !! notif_method notification) as [sub|]; simpl.
  - destruct (sub (notif_params notification)); simpl;
      [|by apply (consistent_same_fields c)].
    destruct (Client.notificationCallback_ c) as [callback|]; simpl;
      [|by apply (consistent_same_fields c)].
    destruct (callback _ _); simpl; by apply (consistent_same_fields c).
  - destruct (Client.notificationCallback_ c) as [callback|]; simpl;
      [|by apply (consistent_same_fields c)].
    destruct (callback _ _); simpl; by apply (consistent_same_fields c).
Qed.

Lemma consistent_handleMessage c message :
  consistent c -> consistent (Client.handleMessage c message).
Proof.
  intros Hc. unfold Client.handleMessage.
  destruct (Response_deserialize message) as [response|e]; [|by apply consistent_caught].
  case_bool_decide.
  - pose proof (consistent_handleResponse c response Hc) as Hr.
    destruct (Client.handleResponse c response) as [c' e]. by apply consistent_caught.
  - destruct (Notification_deserialize message) as [n|e]; [|by apply consistent_caught].
    pose proof (consistent_handleNotification c n Hc) as Hn.
    destruct (Client.handleNotification c n) as [c' e]. by apply consistent_caught.
Qed.

Lemma consistent_sendRequest c method params :
  consistent c -> Client.request_id_counter_ c < INT_MAX ->
  consistent (Client.sendRequest c method params).2.
Proof.
  intros Hc Hmax. pose proof Hc as [H1 H2 H3 H4].
  assert (Client.next_id c = Client.request_id_counter_ c + 1) as Hnext.
  { unfold Client.next_id. apply to_int_id.
    unfold in_int, INT_MIN, INT_MAX in *. lia. }
  pose proof (next_id_fresh c Hc Hmax) as Hfresh.
  unfold Client.sendRequest.
  destruct (Client.isConnected c); cbn [negb]; [|done].
  unfold Client.make_promise.
  set (id := IdInt (Client.next_id c)) in *.
  set (c1 := Client.set_pending _ _).
  assert (consistent c1) as Hc1.
  { split; subst c1; simpl.
    - intros id' p' Hp'; simpl in Hp' |- *. apply lookup_insert_Some in Hp' as [[<- <-]|[Hne Hp']].
      + by rewrite lookup_app_r, Nat.sub_diag.
      + rewrite lookup_app_l; [by eapply H1|].
        eapply lookup_lt_Some. by eapply H1.
    - intros id1 id2 p' Hp1 Hp2; simpl in Hp1, Hp2 |- *.
      apply lookup_insert_Some in Hp1 as [[<- <-]|[Hne1 Hp1]];
        apply lookup_insert_Some in Hp2 as [[<- Heq]|[Hne2 Hp2]]; try done.
      + apply H1, lookup_lt_Some in Hp2. lia.
      + apply H1, lookup_lt_Some in Hp1. lia.
      + by eapply H2.
    - intros id' p' Hp'; simpl in Hp' |- *. apply lookup_insert_Some in Hp' as [[<- <-]|[Hne Hp']].
      + exists (Client.next_id c). split; [done|]. lia.
      + destruct (H3 _ _ Hp') as (n & -> & Hn). exists n. split; [done|]. lia.
    - lia. }
  pose proof (transport_write_fields c1 (Request_serialize (Request_new id method params)))
    as (Hpend & Hprom & Hcount).
  destruct (Client.transport_write c1 _) as [ok c2]. cbn [fst snd] in *.
  assert (consistent c2) as Hc2 by (by eapply consistent_same_fields).
  destruct ok; cbn [negb].
  - simpl. by apply (consistent_same_fields c2).
  - assert (Client.pending_requests_ c2 !! id = Some (length (Client.promises_ c))) as Hid.
    { rewrite Hpend. subst c1. simpl. by rewrite lookup_insert_eq. }
    assert (Client.promises_ c2 !! length (Client.promises_ c) = Some Unset) as Hnew.
    { rewrite Hprom. subst c1. simpl. by rewrite lookup_app_r, Nat.sub_diag. }
    unfold Client.satisfy. simpl. rewrite Hnew.
    destruct Hc2 as [G1 G2 G3 G4]. split; simpl; [| | |done].
    + intros id' p' Hp'; simpl in Hp' |- *.
      apply lookup_delete_Some in Hp' as [Hne Hp'].
      rewrite list_lookup_insert_ne; [by eapply G1|].
      intros <-. apply Hne. by eapply G2.
    + intros id1 id2 p' Hp1 Hp2; simpl in Hp1, Hp2 |- *.
      apply lookup_delete_Some in Hp1 as [_ Hp1].
      apply lookup_delete_Some in Hp2 as [_ Hp2]. by eapply G2.
    + intros id' p' Hp'; simpl in Hp' |- *.
      apply lookup_delete_Some in Hp' as [_ Hp']. by eapply G3.
Qed.

End ClientInvariant.

(** ** C10: the frames read from standard input *)

(** One turn of the loop. *)
Lemma read_thread_step {S : Type} (onMessage : option (list ascii -> S -> S)) cin (s : S) :
  read_thread onMessage cin s
  = match getline cin with
    | None => s
    | Some (line, rest) =>
        read_thread onMessage rest
          match line, onMessage with
          | _ :: _, Some callback => callback line s
          | _, _ => s
          end
    end.
Proof.
  funelim (read_thread onMessage cin s).
  - rewrite e. by destruct line, onMessage.
  - by rewrite e.
Qed.

Lemma read_thread_frames cin : forall frames,
  read_thread (Some (fun line frames => frames ++ [line])) cin frames
  = frames ++ delivered cin.
Proof.
  remember (length cin) as n eqn:Hn. revert cin Hn.
  induction n as [n IH] using lt_wf_ind. intros cin -> frames.
  unfold delivered. rewrite (read_thread_step _ cin frames), (read_thread_step _ cin []).
  destruct (getline cin) as [[line rest]|] eqn:Hg; [|by rewrite app_nil_r].
  pose proof (getline_shorter _ _ _ Hg) as Hlt.
  rewrite !(IH _ Hlt rest eq_refl).
  destruct line; simpl; [done|]. by rewrite <- app_assoc.
Qed.

(** The frames delivered, one line at a time. *)
Lemma delivered_step cin :
  delivered cin
  = match getline cin with
    | None => []
    | Some (line, rest) => frame_of line ++ delivered rest
    end.
Proof.
  unfold delivered at 1. rewrite read_thread_step.
  destruct (getline cin) as [[line rest]|]; [|done].
  rewrite read_thread_frames. by destruct line.
Qed.

(** What [extract] returns: the text before the first newline, and the text
    after it; all the text when there is no newline. *)
Lemma extract_no_newline frame :
  newline ∉ frame -> extract frame = (frame, []).
Proof.
  induction frame as [|c frame IH]; [done|]. intros Hn.
  apply not_elem_of_cons in Hn as [Hc Hn]. simpl.
  destruct (Ascii.eqb_spec c newline) as [->|_]; [done|].
  by rewrite (IH Hn).
Qed.

Lemma extract_newline frame post :
  newline ∉ frame -> extract (frame ++ newline :: post) = (frame, post).
Proof.
  induction frame as [|c frame IH]; intros Hn; simpl.
  - done.
  - apply not_elem_of_cons in Hn as [Hc Hn].
    destruct (Ascii.eqb_spec c newline) as [->|_]; [done|].
    by rewrite (IH Hn).
Qed.

Lemma extract_spec cin :
  (newline ∉ (extract cin).1) /\
  ((cin = (extract cin).1 /\ (extract cin).2 = []) \/
   cin = (extract cin).1 ++ newline :: (extract cin).2).
Proof.
  induction cin as [|c cin IH]; simpl.
  - split; [apply not_elem_of_nil|by left].
  - destruct (Ascii.eqb_spec c newline) as [->|Hc]; simpl.
    + split; [apply not_elem_of_nil|by right].
    + destruct (extract cin) as [line rest]; simpl in *.
      destruct IH as [Hn [[-> ->]|Heq]].
      * split; [by apply not_elem_of_cons|by left].
      * split; [by apply not_elem_of_cons|]. right. by rewrite Heq at 1.
Qed.

(** C10, counterexample: the input ["abc"] ends without a newline; its three
    characters are delivered as a frame, and they are not a complete line. *)
Lemma C10_unterminated_tail_delivered :
  delivered abc = [abc] /\ ~ complete_line abc abc.
Proof.
  split; [reflexivity|].
  intros (_ & pre & post & Heq & _ & post' & ->).
  assert (newline ∈ abc) as Hin.
  { rewrite Heq. rewrite !elem_of_app. right. right. apply list_elem_of_here. }
  unfold abc, newline in Hin. simpl in Hin.
  repeat (apply elem_of_cons in Hin as [Hin|Hin]; [discriminate|]).
  by apply elem_of_nil in Hin.
Qed.

Lemma ends_line_cons_line line pre :
  ends_line pre -> ends_line (line ++ newline :: pre).
Proof.
  intros [->|[pre' ->]]; right.
  - by exists line.
  - exists (line ++ newline :: pre'). by rewrite <- app_assoc.
Qed.

(** Two ways to cut a text at a newline, the first being the first newline. *)
Lemma first_newline line rest pre post :
  newline ∉ line ->
  line ++ newline :: rest = pre ++ newline :: post ->
  (pre = line /\ post = rest) \/
  exists pre', pre = line ++ newline :: pre' /\ rest = pre' ++ newline :: post.
Proof.
  revert pre. induction line as [|c line IH]; intros pre Hn Heq.
  - destruct pre as [|d pre]; simpl in *.
    + left. by injection Heq as ->.
    + injection Heq as <- ->. right. by exists pre.
  - apply not_elem_of_cons in Hn as [Hc Hn].
    destruct pre as [|d pre]; simpl in *.
    + injection Heq as -> _. done.
    + injection Heq as <- Heq.
      destruct (IH pre Hn Heq) as [[-> ->]|(pre' & -> & ->)]; [by left|].
      right. by exists pre'.
Qed.

Lemma getline_extract cin : cin <> [] -> getline cin = Some (extract cin).
Proof. by destruct cin. Qed.

(** C10, amended: the frames that reach the message callback are exactly the
    non-empty runs of the input between two line boundaries, without the
    newline: every frame is non-empty (an empty line is dropped), holds no
    newline, starts at the start of a line and ends just before a newline or
    at the end of the input.  So every complete non-empty line is delivered,
    and so is a non-empty tail that the end of the input leaves unterminated. *)
Theorem C10_delivered_frames (cin frame : list ascii) :
  frame ∈ delivered cin <-> frame <> [] /\ line_or_tail cin frame.
Proof.
  remember (length cin) as n eqn:Hn. revert cin Hn frame.
  induction n as [n IH] using lt_wf_ind. intros cin -> frame.
  rewrite delivered_step.
  destruct (decide (cin = [])) as [->|Hcin].
  { simpl. split; [by intros ?%elem_of_nil|].
    intros (Hne & _ & pre & post & Heq & _).
    symmetry in Heq. apply app_eq_nil in Heq as [_ Heq].
    apply app_eq_nil in Heq as [Heq _]. done. }
  pose proof (getline_extract cin Hcin) as Hg. rewrite Hg.
  destruct (extract cin) as [line rest] eqn:Hex.
  pose proof (getline_shorter _ _ _ Hg) as Hlt.
  pose proof (extract_spec cin) as [Hnl Hcut]. rewrite Hex in Hnl, Hcut. simpl in Hnl, Hcut.
  specialize (IH _ Hlt rest eq_refl frame).
  rewrite elem_of_app, IH. clear IH. split.
  - intros [Hline|(Hne & Hnf & pre & post & Heq & Hpre & Hpost)].
    + destruct line as [|c line]; simpl in Hline; [by apply elem_of_nil in Hline|].
      apply list_elem_of_singleton in Hline as ->. split; [done|]. split; [done|].
      exists [].
      destruct Hcut as [[Hall ->]|Hall].
      * exists []. split; [by rewrite app_nil_r|]. split; [by left|by right].
      * exists (newline :: rest). split; [done|]. split; [by left|]. left. by exists rest.
    + split; [done|]. split; [done|].
      destruct Hcut as [[_ ->]|Hall].
      { symmetry in Heq. apply app_eq_nil in Heq as [_ Heq].
        apply app_eq_nil in Heq as [Heq _]. done. }
      exists (line ++ newline :: pre), post. split.
      * rewrite Hall, Heq. by rewrite <- app_assoc.
      * split; [by apply ends_line_cons_line|done].
  - intros (Hne & Hnf & pre & post & Heq & Hpre & Hpost).
    destruct Hpre as [->|[pre' ->]].
    + left. simpl in Heq.
      assert (line = frame) as ->.
      { destruct Hpost as [[post' ->]| ->].
        - rewrite Heq, extract_newline in Hex by done. by injection Hex as <- _.
        - rewrite app_nil_r in Heq.
          rewrite Heq, extract_no_newline in Hex by done. by injection Hex as <- _. }
      destruct frame; [done|]. simpl. apply list_elem_of_here.
    + right. split; [done|]. split; [done|].
      rewrite <- app_assoc in Heq. simpl in Heq.
      destruct Hcut as [[Hall _]|Hall].
      { exfalso. apply Hnl. rewrite <- Hall, Heq.
        rewrite elem_of_app. right. apply list_elem_of_here. }
      rewrite Hall in Heq.
      destruct (first_newline _ _ _ _ Hnl Heq) as [[-> Hrest]|(pre'' & -> & ->)].
      * exists [], post. split; [by rewrite <- Hrest|]. split; [by left|done].
      * exists (pre'' ++ [newline]), post. split.
        -- by rewrite <- app_assoc.
        -- split; [right; by exists pre''|done].
Qed.

(* ===================================================================== *)
(** * Further properties of the sources *)
(* ===================================================================== *)

(** ** error.cpp: the conversions of the error codes *)

(** [errorCodeFromInt] inverts [errorCodeToInt]; it tells exactly the ten
    known codes apart and maps every other integer to [UnknownErrorCode], so
    the way back gives the integer again for those ten and for -32000 only.
    [MCP_INVALID_PARAMS] (-32605) is not among them. *)
Theorem errorCode_conversions (c : ErrorCode) (n : Z) :
  errorCodeFromInt (errorCodeToInt c) = c /\
  (errorCodeFromInt n <> UnknownErrorCode <-> n ∈ known_codes) /\
  (errorCodeToInt (errorCodeFromInt n) = n <-> n ∈ known_codes \/ n = -32000) /\
  errorCodeFromInt MCP_INVALID_PARAMS = UnknownErrorCode.
Proof.
  split; [by destruct c|].
  assert (Hn : n ∈ known_codes <->
               n = -32700 \/ n = -32600 \/ n = -32601 \/ n = -32602 \/ n = -32603 \/
               n = -32604 \/ n = -32606 \/ n = -32607 \/ n = -32608 \/ n = -32609).
  { unfold known_codes. rewrite !elem_of_cons, elem_of_nil. tauto. }
  rewrite Hn. unfold errorCodeFromInt.
  unfold JSON_RPC_PARSE_ERROR, JSON_RPC_INVALID_REQUEST, JSON_RPC_METHOD_NOT_FOUND,
    JSON_RPC_INVALID_PARAMS, JSON_RPC_INTERNAL_ERROR, MCP_INVALID_METHOD,
    MCP_RESOURCE_NOT_FOUND, MCP_RESOURCE_NOT_AVAILABLE, MCP_RESOURCE_EXHAUSTED,
    MCP_CONTENT_MODIFIED, MCP_INVALID_PARAMS.
  split; [|split; [|reflexivity]].
  - repeat match goal with
           | |- context [Z.eqb n ?k] =>
               destruct (Z.eqb_spec n k) as [->|?]; [simpl; split; [lia|discriminate]|]
           end.
    simpl. split; [intros Hc; exfalso; by apply Hc|lia].
  - repeat match goal with
           | |- context [Z.eqb n ?k] =>
               destruct (Z.eqb_spec n k) as [->|?]; [simpl; split; [lia|reflexivity]|]
           end.
    simpl. lia.
Qed.

(** ** types_simple.cpp: the operators of [RequestId] *)

Lemma Ascii_compare_refl a : Ascii.compare a a = Eq.
Proof. unfold Ascii.compare. apply N.compare_refl. Qed.

Lemma Ascii_compare_lt_trans a b c :
  Ascii.compare a b = Lt -> Ascii.compare b c = Lt -> Ascii.compare a c = Lt.
Proof. unfold Ascii.compare. rewrite !N.compare_lt_iff. lia. Qed.

Lemma String_compare_lt_trans a : forall b c,
  String.compare a b = Lt -> String.compare b c = Lt -> String.compare a c = Lt.
Proof.
  induction a as [|x a IH]; intros [|y b] [|z c]; simpl; try done.
  destruct (Ascii.compare x y) eqn:Hxy; try done;
    destruct (Ascii.compare y z) eqn:Hyz; try done.
  - apply Ascii.compare_eq_iff in Hxy as ->. apply Ascii.compare_eq_iff in Hyz as ->.
    rewrite Ascii_compare_refl. apply IH.
  - apply Ascii.compare_eq_iff in Hxy as ->. by rewrite Hyz.
  - apply Ascii.compare_eq_iff in Hyz as ->. by rewrite Hxy.
  - by rewrite (Ascii_compare_lt_trans _ _ _ Hxy Hyz).
Qed.

Lemma String_ltb_lt a b : String.ltb a b = true <-> String.compare a b = Lt.
Proof. unfold String.ltb. by destruct (String.compare a b). Qed.

Lemma String_ltb_irrefl a : String.ltb a a = false.
Proof.
  unfold String.ltb. pose proof (String.compare_antisym a a) as Hc.
  by destruct (String.compare a a).
Qed.

Lemma String_ltb_trans a b c :
  String.ltb a b = true -> String.ltb b c = true -> String.ltb a c = true.
Proof. rewrite !String_ltb_lt. apply String_compare_lt_trans. Qed.

Lemma String_ltb_connex a b :
  String.ltb a b = false -> String.ltb b a = false -> a = b.
Proof.
  unfold String.ltb. rewrite (String.compare_antisym b a).
  destruct (String.compare a b) eqn:Hc; simpl; try done.
  intros _ _. by apply String.compare_eq_iff.
Qed.

(** [operator==] holds exactly of identical ids, and [operator<] is a strict
    total order on the ids (null ids first, then the integers, then the
    strings): a [std::map] keyed by [RequestId] has one entry for each id. *)
Theorem RequestId_operators (a b c : RequestId) :
  (RequestId_eqb a b = true <-> a = b) /\
  RequestId_ltb a a = false /\
  (RequestId_ltb a b = true -> RequestId_ltb b c = true -> RequestId_ltb a c = true) /\
  (RequestId_ltb a b = false -> RequestId_ltb b a = false -> a = b) /\
  (forall n s, RequestId_ltb IdNull (IdInt n) = true /\
               RequestId_ltb (IdInt n) (IdString s) = true).
Proof.
  split; [|split; [|split; [|split]]].
  - destruct a as [|x|x], b as [|y|y]; unfold RequestId_eqb; cbn [RequestId_index Nat.eqb negb];
      try (split; [discriminate|congruence]); try done.
    + destruct (Z.eqb_spec x y); split; congruence.
    + destruct (String.eqb_spec x y); split; congruence.
  - destruct a; unfold RequestId_ltb; cbn [RequestId_index Nat.eqb negb];
      [done|apply Z.ltb_irrefl|apply String_ltb_irrefl].
  - destruct a, b, c; unfold RequestId_ltb; cbn [RequestId_index Nat.eqb Nat.ltb Nat.leb negb];
      try done.
    + rewrite !Z.ltb_lt. lia.
    + apply String_ltb_trans.
  - destruct a, b; unfold RequestId_ltb; cbn [RequestId_index Nat.eqb Nat.ltb Nat.leb negb];
      try done.
    + rewrite !Z.ltb_ge. intros. f_equal. lia.
    + intros. f_equal. by apply String_ltb_connex.
  - done.
Qed.

(** [toString] tells apart the ids of one alternative, but not an integer id
    from the string id that holds its decimal text, nor the null id from the
    string id "null". *)
Theorem RequestId_toString_collisions (a b : RequestId) (n : Z) :
  (RequestId_index a = RequestId_index b ->
   RequestId_toString a = RequestId_toString b -> a = b) /\
  RequestId_toString (IdInt n) = RequestId_toString (IdString (pretty n)) /\
  RequestId_toString IdNull = RequestId_toString (IdString "null").
Proof.
  split; [|done].
  destruct a, b; simpl; try done.
  - intros _ Hp. f_equal. by apply (inj pretty).
  - by intros _ ->.
Qed.

(** ** message.cpp: what the decoders accept and what they throw *)

Lemma bad_version_object m : bad_version (JObject m) = negb (version_ok m).
Proof.
  unfold bad_version, version_ok. rewrite contains_object, at_key_object.
  by destruct (m !! "jsonrpc").
Qed.

Lemma bad_version_not_object j :
  (forall m, j <> JObject m) -> bad_version j = true.
Proof. destruct j; try done. intros Hj. by destruct (Hj m). Qed.

(** [Request::deserialize] on an object, member by member. *)
Lemma Request_deserialize_object w m :
  json_parse w = Ret (JObject m) ->
  Request_deserialize w =
  if negb (version_ok m) then
    Throw (ExMCP (MCPError2 InvalidRequest "Invalid JSON-RPC version"))
  else
    match m !! "method" with
    | None => Throw (ExMCP (MCPError2 InvalidRequest "Missing method"))
    | Some mv =>
        match m !! "id" with
        | Some (JNull | JBool _ | JFloat _ | JArray _ | JObject _) =>
            Throw (ExMCP (MCPError2 InvalidRequest "Invalid id type"))
        | idv =>
            match mv with
            | JString method =>
                Ret (mkRequest (Some match idv with
                                     | Some (JInt n) => IdInt (to_int n)
                                     | Some (JString s) => IdString s
                                     | _ => IdNull
                                     end)
                               method (default json_object (m !! "params")))
            | _ => Throw (ExMCP (MCPError2 ParseError
                                   ("Failed to parse JSON: " +:+ json_what type_error_302)))
            end
        end
    end.
Proof.
  intros Hw. unfold Request_deserialize, value_or_object, Request_new.
  rewrite Hw. cbn [mbind res_bind]. rewrite bad_version_object.
  destruct (version_ok m); cbn [negb]; [|done].
  rewrite !contains_object, !at_key_object.
  destruct (m !! "method") as [mv|]; [|done].
  destruct (m !! "id") as [[]|], mv, (m !! "params"); reflexivity.
Qed.

(** [Notification::deserialize] on an object, member by member. *)
Lemma Notification_deserialize_object w m :
  json_parse w = Ret (JObject m) ->
  Notification_deserialize w =
  if negb (version_ok m) then
    Throw (ExMCP (MCPError2 InvalidRequest "Invalid JSON-RPC version"))
  else
    match m !! "method" with
    | None => Throw (ExMCP (MCPError2 InvalidRequest "Missing method"))
    | Some mv =>
        match m !! "id" with
        | Some _ => Throw (ExMCP (MCPError2 InvalidRequest "Notifications cannot have id"))
        | None =>
            match mv with
            | JString method =>
                Ret (Notification_new method (default json_object (m !! "params")))
            | _ => Throw (ExMCP (MCPError2 ParseError
                                   ("Failed to parse JSON: " +:+ json_what type_error_302)))
            end
        end
    end.
Proof.
  intros Hw. unfold Notification_deserialize, value_or_object.
  rewrite Hw. cbn [mbind res_bind]. rewrite bad_version_object.
  destruct (version_ok m); cbn [negb]; [|done].
  rewrite !contains_object, !at_key_object.
  destruct (m !! "method") as [mv|]; [|done].
  destruct (m !! "id") as [[]|], mv, (m !! "params"); reflexivity.
Qed.

(** A text that is not JSON, and a text whose document is not an object. *)
Lemma deserialize_not_object w :
  (forall m, json_parse w <> Ret (JObject m)) ->
  exists e, decode_failure e /\
            Request_deserialize w = Throw e /\
            Response_deserialize w = Throw e /\
            Notification_deserialize w = Throw e.
Proof.
  intros Hw. unfold Request_deserialize, Response_deserialize, Notification_deserialize.
  destruct (json_parse w) as [j|e] eqn:Hj.
  - exists (ExMCP (MCPError2 InvalidRequest "Invalid JSON-RPC version")).
    split; [right; eauto|].
    cbn [mbind res_bind].
    rewrite bad_version_not_object; [done|]. intros m ->. by destruct (Hw m).
  - destruct w as [j|bytes]; [discriminate|]. injection Hj as <-.
    exists (ExMCP (MCPError2 ParseError ("Failed to parse JSON: " +:+ json_what parse_error_101))).
    split; [left; eauto|done].
Qed.

Lemma wire_cases (w : wire) :
  (exists m, json_parse w = Ret (JObject m)) \/ (forall m, json_parse w <> Ret (JObject m)).
Proof.
  destruct (json_parse w) as [[]|]; try (right; intros ?; discriminate). left; eauto.
Qed.

(** What [parse] returns holds no number that is not finite. *)
Lemma json_parse_all_finite w j : json_parse w = Ret j -> all_finite j = true.
Proof.
  destruct w as [j'|bytes]; [|discriminate]. intros [= <-]. apply all_finite_of_dumped.
Qed.

Lemma all_finite_member (m : gmap string json) k :
  all_finite (JObject m) = true -> all_finite (default json_object (m !! k)) = true.
Proof.
  rewrite all_finite_object. intros Hm.
  destruct (m !! k) as [v|] eqn:Hk; [by apply (Hm k v)|done].
Qed.

(** [Request::deserialize] accepts exactly the frames that parse to an
    object whose [jsonrpc] is "2.0", whose [method] is a string and whose
    [id], if there is one, is an integer or a string.  The Request has the
    method, the params member or the empty object in its place, and the id:
    the integer reduced to an [int], the string, or the null id when the
    member is absent. *)
Theorem Request_deserialize_accepts (w : wire) (r : Request) :
  Request_deserialize w = Ret r <->
  exists m, json_parse w = Ret (JObject m) /\ accepted_as_Request m r.
Proof.
  destruct (wire_cases w) as [[m Hm]|Hw].
  - rewrite (Request_deserialize_object w m Hm). unfold accepted_as_Request.
    split.
    + intros Hr. exists m. split; [done|].
      destruct (version_ok m); [|done]. cbn [negb] in Hr.
      destruct (m !! "method") as [mv|]; [|done].
      destruct (m !! "id") as [[]|]; try done;
        destruct mv; try done; injection Hr as <-; done.
    + intros (m' & Hm' & Hv & Hmeth & Hp & Hid).
      rewrite Hm in Hm'. injection Hm' as <-. rewrite Hv, Hmeth. cbn [negb].
      destruct r as [id method params]; simpl in *. subst params.
      destruct (m !! "id") as [[]|]; try done; by subst id.
  - destruct (deserialize_not_object w Hw) as (e & _ & -> & _).
    split; [done|]. intros (m & Hm & _). by destruct (Hw m).
Qed.

(** A frame decodes as a Notification exactly when it decodes as a Request
    whose id is the null id: whatever [Notification::deserialize] accepts,
    [Request::deserialize] accepts before it and gives it an id. *)
Theorem Notification_iff_Request_without_id (w : wire) (method : string) (params : json) :
  Notification_deserialize w = Ret (Notification_new method params) <->
  Request_deserialize w = Ret (Request_new IdNull method params).
Proof.
  destruct (wire_cases w) as [[m Hm]|Hw].
  - rewrite (Request_deserialize_object w m Hm), (Notification_deserialize_object w m Hm).
    destruct (version_ok m); [|done]. cbn [negb].
    destruct (m !! "method") as [mv|]; [|done].
    unfold Notification_new, Request_new.
    destruct (m !! "id") as [[]|]; try done; destruct mv; try done;
      split; intros [= <- <-]; done.
  - by destruct (deserialize_not_object w Hw) as (e & _ & -> & _ & ->).
Qed.

(** [Response::deserialize] on an object, member by member. *)
Lemma Response_deserialize_object w m :
  json_parse w = Ret (JObject m) ->
  Response_deserialize w =
  if negb (version_ok m) then
    Throw (ExMCP (MCPError2 InvalidRequest "Invalid JSON-RPC version"))
  else
    match m !! "error" with
    | Some errorJson => catch_json (Response_error (Response_id_of m) <$> error_of errorJson)
    | None =>
        match m !! "result" with
        | Some r => Ret (Response_result (Response_id_of m) r)
        | None => Throw (ExMCP (MCPError2 InvalidRequest "Missing result or error"))
        end
    end.
Proof.
  intros Hw. unfold Response_deserialize, Response_id_of, error_of.
  rewrite Hw. cbn [mbind res_bind]. rewrite bad_version_object.
  destruct (version_ok m); cbn [negb]; [|done].
  rewrite !contains_object, !at_key_object.
  assert (Hid : (if bool_decide (is_Some (m !! "id"))
                 then v ← Ret (default JNull (m !! "id"));
                      if is_number_integer v then n ← get_int v; Ret (IdInt n)
                      else if is_string v then s ← get_string v; Ret (IdString s)
                      else Ret IdNull
                 else Ret IdNull)
                = Ret match m !! "id" with
                      | Some (JInt n) => IdInt (to_int n)
                      | Some (JString s) => IdString s
                      | _ => IdNull
                      end).
  { by destruct (m !! "id") as [[]|]. }
  rewrite Hid. cbn [mbind res_bind].
  destruct (m !! "error") as [errorJson|]; simpl.
  - destruct (at_key errorJson "code") as [cv|e]; cbn [mbind res_bind fmap res_fmap]; [|done].
    destruct (get_int cv) as [c|e]; cbn [mbind res_bind fmap res_fmap]; [|done].
    match goal with |- context [mbind _ ?x] => destruct x as [message|e] end;
      cbn [mbind res_bind fmap res_fmap]; [|done].
    destruct (value_or_object errorJson "data") as [d|e];
      cbn [mbind res_bind fmap res_fmap]; done.
  - by destruct (m !! "result").
Qed.

(** The conversions of the library throw exceptions of the library. *)
Lemma error_of_throws errorJson e :
  error_of errorJson = Throw e -> exists je, e = ExJson je.
Proof.
  unfold error_of, value_or_object.
  destruct errorJson as [| | | | | |em];
    try (cbn; intros [= <-]; eauto; fail).
  rewrite !contains_object, !at_key_object. cbn [mbind res_bind].
  destruct (em !! "code") as [[]|]; cbn; try (intros [= <-]; eauto; fail);
    destruct (em !! "message") as [[]|]; cbn; try (intros [= <-]; eauto; fail);
    destruct (em !! "data"); cbn; done.
Qed.

(** Whatever the three decoders throw is an [MCPError] with the code
    [ParseError], when the text is not JSON or a member has not the type that
    its conversion wants, or with the code [InvalidRequest], when the envelope
    is not a valid one.  No exception of the library leaves them. *)
Theorem deserialize_failures (w : wire) (e : exn) :
  Request_deserialize w = Throw e \/
  Response_deserialize w = Throw e \/
  Notification_deserialize w = Throw e ->
  decode_failure e.
Proof.
  destruct (wire_cases w) as [[m Hm]|Hw].
  - rewrite (Request_deserialize_object w m Hm), (Response_deserialize_object w m Hm),
      (Notification_deserialize_object w m Hm).
    assert (Hbad : decode_failure (ExMCP (MCPError2 InvalidRequest "Invalid JSON-RPC version")))
      by (right; eauto).
    destruct (version_ok m); cbn [negb]; [|by intros [[= <-]|[[= <-]|[= <-]]]].
    intros [He|[He|He]].
    + destruct (m !! "method") as [mv|]; [|injection He as <-; right; eauto].
      destruct (m !! "id") as [[]|]; destruct mv; try discriminate;
        injection He as <-; solve [left; by exists type_error_302 | right; eauto].
    + destruct (m !! "error") as [errorJson|].
      * destruct (error_of errorJson) as [err|e'] eqn:Herr; [discriminate|].
        apply error_of_throws in Herr as [je ->]. simpl in He.
        injection He as <-. left; eauto.
      * destruct (m !! "result"); [discriminate|]. injection He as <-. right; eauto.
    + destruct (m !! "method") as [mv|]; [|injection He as <-; right; eauto].
      destruct (m !! "id") as [[]|]; destruct mv; try discriminate;
        injection He as <-; solve [left; by exists type_error_302 | right; eauto].
  - destruct (deserialize_not_object w Hw) as (e' & He' & -> & -> & ->).
    by intros [[= <-]|[[= <-]|[= <-]]].
Qed.

Lemma deserialize_failures_witness :
  decode_failure (ExMCP (MCPError2 InvalidRequest "Missing method")).
Proof.
  apply (deserialize_failures (Dump (JObject {["jsonrpc" := JString "2.0"]}))).
  left. vm_compute. reflexivity.
Defined.

Lemma Request_deserialize_id_kept w r :
  Request_deserialize w = Ret r -> id_kept (req_id r).
Proof.
  destruct (wire_cases w) as [[m Hm]|Hw].
  - rewrite (Request_deserialize_object w m Hm).
    destruct (version_ok m); cbn [negb]; [|done].
    destruct (m !! "method") as [mv|]; [|done].
    destruct (m !! "id") as [[]|]; destruct mv; try done; intros [= <-]; simpl; try done.
    apply to_int_in_int.
  - by destruct (deserialize_not_object w Hw) as (e & _ & -> & _).
Qed.

Lemma Request_deserialize_all_finite w r :
  Request_deserialize w = Ret r -> all_finite (req_params r) = true.
Proof.
  destruct (wire_cases w) as [[m Hm]|Hw].
  - rewrite (Request_deserialize_object w m Hm).
    pose proof (all_finite_member m "params" (json_parse_all_finite w _ Hm)) as Hp.
    destruct (version_ok m); cbn [negb]; [|done].
    destruct (m !! "method") as [mv|]; [|done].
    destruct (m !! "id") as [[]|]; destruct mv; try done; by intros [= <-].
  - by destruct (deserialize_not_object w Hw) as (e & _ & -> & _).
Qed.

Lemma error_of_all_finite errorJson e :
  all_finite errorJson = true -> error_of errorJson = Ret e -> all_finite (data_ e) = true.
Proof.
  unfold error_of, value_or_object.
  destruct errorJson as [| | | | | |em]; try (cbn; discriminate).
  intros Hem. pose proof (all_finite_member em "data" Hem) as Hd.
  rewrite !contains_object, !at_key_object. cbn [mbind res_bind].
  destruct (em !! "code") as [[]|]; cbn; try discriminate;
    destruct (em !! "message") as [[]|]; cbn; try discriminate;
    destruct (em !! "data") as [d|]; cbn; by intros [= <-].
Qed.

Lemma Response_deserialize_shape w r :
  Response_deserialize w = Ret r ->
  id_kept (resp_id r) /\
  match resp_error r with
  | Some e => resp_result r = json_object /\ all_finite (data_ e) = true
  | None => all_finite (resp_result r) = true
  end.
Proof.
  destruct (wire_cases w) as [[m Hm]|Hw].
  - rewrite (Response_deserialize_object w m Hm).
    assert (Hid : id_kept (Some (Response_id_of m))).
    { unfold Response_id_of. destruct (m !! "id") as [[]|]; simpl; try done.
      apply to_int_in_int. }
    pose proof (json_parse_all_finite w _ Hm) as Hfin.
    pose proof (all_finite_member m "error" Hfin) as Herr.
    pose proof (all_finite_member m "result" Hfin) as Hres.
    destruct (version_ok m); cbn [negb]; [|done].
    destruct (m !! "error") as [errorJson|].
    + destruct (error_of errorJson) as [err|[]] eqn:He; simpl; try done.
      intros [= <-]. simpl. split; [done|]. split; [done|].
      by apply (error_of_all_finite errorJson).
    + destruct (m !! "result"); [|done]. by intros [= <-].
  - by destruct (deserialize_not_object w Hw) as (e & _ & _ & -> & _).
Qed.

Lemma Notification_deserialize_no_id w n :
  Notification_deserialize w = Ret n ->
  notif_id n = None /\ all_finite (notif_params n) = true.
Proof.
  destruct (wire_cases w) as [[m Hm]|Hw].
  - rewrite (Notification_deserialize_object w m Hm).
    pose proof (all_finite_member m "params" (json_parse_all_finite w _ Hm)) as Hp.
    destruct (version_ok m); cbn [negb]; [|done].
    destruct (m !! "method") as [mv|]; [|done].
    destruct (m !! "id") as [[]|]; destruct mv; try done; by intros [= <-].
  - by destruct (deserialize_not_object w Hw) as (e & _ & _ & _ & ->).
Qed.

(** What a decoder returns is encoded and decoded to itself again, unless it
    holds a null where the encoder leaves the member out (the frame had an
    explicit ["params": null], or an error with ["data": null]). *)
Theorem decoded_roundtrips (w : wire) (E : Envelope) :
  decoded w E -> ~ holds_null E -> roundtrips E.
Proof.
  destruct E as [r|r|n]; simpl; intros Hw Hnull.
  - rewrite Request_serialize_deserialize.
    pose proof (Request_deserialize_all_finite w r Hw) as Hfin.
    apply Request_deserialize_id_kept, id_back_kept in Hw.
    assert (Hp : read_back (req_params r) = req_params r) by (by apply read_back_fix).
    destruct r as [id method params]; simpl in *. by rewrite Hw, Hp.
  - rewrite Response_serialize_deserialize.
    apply Response_deserialize_shape in Hw as [Hid Herr].
    apply id_back_kept in Hid.
    destruct r as [id result [e|]]; simpl in *.
    + destruct Herr as [-> Hfin]. unfold Response_error, error_back.
      rewrite Hid.
      assert (Hd : read_back (data_ e) = data_ e).
      { apply read_back_fix. split; [|done]. intros Hd. apply Hnull. eauto. }
      rewrite Hd. by destruct e.
    + apply all_finite_dumped in Herr. unfold Response_result. by rewrite Hid, Herr.
  - rewrite Notification_serialize_deserialize.
    apply Notification_deserialize_no_id in Hw as [Hid Hfin].
    assert (Hp : read_back (notif_params n) = notif_params n) by (by apply read_back_fix).
    destruct n as [id method params]; simpl in *. subst id.
    unfold Notification_new. by rewrite Hp.
Qed.

Lemma decoded_roundtrips_witness :
  roundtrips (ERequest (Request_new (IdInt 2) "tools/list" json_object)).
Proof.
  apply (decoded_roundtrips tools_list_request).
  - vm_compute. reflexivity.
  - simpl. discriminate.
Defined.

(** ** message.cpp: the members of a Response *)

(** However a Response is made (by a constructor, by the decoder, and
    through the setters from there), when it holds an error its result is the
    empty object. *)
Theorem Response_error_has_empty_result (r : Response) :
  Response_made r -> isError r = true -> resp_result r = json_object.
Proof.
  intros Hmade.
  assert (Hinv : match resp_error r with
                 | Some _ => resp_result r = json_object
                 | None => True
                 end).
  { induction Hmade as [| | | | | r id Hmade IH | w r Hw]; simpl; try done.
    apply Response_deserialize_shape in Hw as [_ Hw].
    destruct (resp_error r); [by destruct Hw|done]. }
  unfold isError. by destruct (resp_error r).
Qed.

Lemma Response_error_has_empty_result_witness :
  resp_result (Response_setId
                 (setError (Response_result (IdInt 1) (JObject {["ok" := JBool true]}))
                           (MCPError2 InternalError "failed"))
                 (IdInt 2))
  = json_object.
Proof.
  apply Response_error_has_empty_result; [|reflexivity].
  apply made_setId, made_setError, made_result.
Defined.

(** ** server.cpp: what the router does with each kind of frame *)

Lemma version_ok_Response r : version_ok (dumped <$> Response_document r) = true.
Proof. unfold version_ok. by rewrite lookup_fmap, Response_document_lookup. Qed.

Lemma version_ok_Request r : version_ok (dumped <$> Request_document r) = true.
Proof. unfold version_ok. by rewrite lookup_fmap, Request_document_lookup. Qed.

Lemma version_ok_Notification n : version_ok (dumped <$> Notification_document n) = true.
Proof. unfold version_ok. by rewrite lookup_fmap, Notification_document_lookup. Qed.

Section ServerRouter.
Context {T : Type} `{ITransport T}.
Implicit Types s : Server.MCPServer T.

(** A Response that reaches the server is not answered and not handled: the
    only effect is an error in the log. *)
Theorem server_ignores_responses s (response : Response) :
  Server.handleMessage s (Response_serialize response)
  = Server.logger LvError "Failed to handle message: Missing method" s.
Proof.
  unfold Server.handleMessage, Response_serialize, json_dump.
  rewrite (Request_deserialize_object _ _ (json_parse_object _)), version_ok_Response.
  cbn [negb]. by rewrite lookup_fmap, Response_document_lookup.
Qed.

Lemma same_configuration_refl s : same_configuration s s.
Proof. by repeat split. Qed.

Lemma same_configuration_trans s1 s2 s3 :
  same_configuration s1 s2 -> same_configuration s2 s3 -> same_configuration s1 s3.
Proof.
  unfold same_configuration. intros (?&?&?&?&?&?&?) (?&?&?&?&?&?&?).
  repeat split; congruence.
Qed.

Lemma same_configuration_foldl_onError s errors :
  same_configuration s (foldl Server.onError s errors) /\
  exists entries, Server.log_ (foldl Server.onError s errors) = Server.log_ s ++ entries.
Proof.
  revert s. induction errors as [|e errors IH]; intros s; simpl.
  - split; [apply same_configuration_refl|]. exists []. by rewrite app_nil_r.
  - destruct (IH (Server.onError s e)) as [Hc [entries Hl]]. split.
    + eapply same_configuration_trans; [|apply Hc]. by repeat split.
    + rewrite Hl. simpl. rewrite <- app_assoc. eauto.
Qed.

Lemma same_configuration_transport_write s frame :
  same_configuration s (Server.transport_write s frame).2 /\
  exists entries, Server.log_ (Server.transport_write s frame).2 = Server.log_ s ++ entries.
Proof.
  unfold Server.transport_write.
  destruct (write (Server.transport_ s) frame) as [[ok t] errors]; simpl.
  apply (same_configuration_foldl_onError (Server.set_transport s t)).
Qed.

Lemma same_configuration_logger s lv msg :
  same_configuration s (Server.logger lv msg s) /\
  exists entries, Server.log_ (Server.logger lv msg s) = Server.log_ s ++ entries.
Proof. split; [by repeat split|]. simpl. eauto. Qed.

(** No inbound frame changes the flags of the server, its registries or its
    name and version; the log only grows.  What a frame can change is the
    transport (a frame is written) and the log. *)
Theorem server_handleMessage_keeps s (w : wire) :
  same_configuration s (Server.handleMessage s w) /\
  exists entries, Server.log_ (Server.handleMessage s w) = Server.log_ s ++ entries.
Proof.
  destruct (Request_deserialize w) as [r|e] eqn:Hr.
  - rewrite (handleMessage_decoded s w r Hr).
    unfold Server.handleRequest.
    destruct (Request_deserialize_has_id w r Hr) as [id ->].
    destruct (Server.dispatch s (req_method r) (req_params r)) as [result|[e|e|e]];
      try apply same_configuration_transport_write.
    pose proof (same_configuration_transport_write s (Server.result_frame id result)) as Hw.
    destruct (Server.transport_write s (Server.result_frame id result)) as [ok s1].
    cbn [fst snd] in *. destruct Hw as [Hc [entries Hl]].
    destruct ok.
    + split; [eapply same_configuration_trans; [apply Hc|by repeat split]|].
      simpl. rewrite Hl, <- app_assoc. eauto.
    + match goal with |- context [Server.transport_write s1 ?f] =>
        destruct (same_configuration_transport_write s1 f) as [Hc' [entries' Hl']]
      end.
      split; [eapply same_configuration_trans; eauto|].
      rewrite Hl', Hl, <- app_assoc. eauto.
  - unfold Server.handleMessage. rewrite Hr. apply same_configuration_logger.
Qed.

End ServerRouter.

Lemma stdio_write_disconnected (s : Server.MCPServer StdioTransport) frame :
  isConnected (Server.transport_ s) = false ->
  Server.transport_write s frame = (false, s).
Proof.
  unfold Server.transport_write. simpl. unfold StdioTransport_write.
  intros ->. by destruct s.
Qed.

Lemma stdio_request_dropped (s : Server.MCPServer StdioTransport) w request :
  isConnected (Server.transport_ s) = false ->
  Request_deserialize w = Ret request ->
  Server.handleMessage s w = s.
Proof.
  intros Hconn Hr. rewrite (handleMessage_decoded s w request Hr).
  unfold Server.handleRequest.
  destruct (Request_deserialize_has_id w request Hr) as [id ->].
  destruct (Server.dispatch s (req_method request) (req_params request)) as [result|[e|e|e]];
    repeat (rewrite (stdio_write_disconnected s _ Hconn); simpl); done.
Qed.

(** The server on a stdio transport, frame by frame.  A frame that does not
    decode as a Request leaves one error in the log and nothing else.  A frame
    that decodes is answered, when the transport is connected, by exactly one
    frame: a Response with the id of the request, which is an error or holds
    the result of the handler.  When the transport is not connected the
    request is dropped: the server is as before, and nothing is logged. *)
Theorem stdio_server_one_frame (s : Server.MCPServer StdioTransport) (w : wire) :
  let s' := Server.handleMessage s w in
  match Request_deserialize w with
  | Throw e =>
      s' = Server.logger LvError ("Failed to handle message: " +:+ exn_what e) s
  | Ret request =>
      if isConnected (Server.transport_ s) then
        exists response,
          stdio_cout (Server.transport_ s')
            = stdio_cout (Server.transport_ s) ++ [Response_serialize response] /\
          resp_id response = req_id request /\
          match resp_error response with
          | Some e =>
              Server.log_ s' = Server.log_ s /\
              exists e', Server.dispatch s (req_method request) (req_params request) = Throw e' /\
                         what_ e = match e' with
                                   | ExMCP e0 => what_ e0
                                   | _ => "Internal error: " +:+ exn_what e'
                                   end
          | None =>
              Server.dispatch s (req_method request) (req_params request)
                = Ret (resp_result response) /\
              Server.log_ s' = Server.log_ s ++
                                [(LvDebug, "Handled request: " +:+ req_method request)]
          end
      else s' = s
  end.
Proof.
  intros s'. subst s'.
  destruct (Request_deserialize w) as [r|e] eqn:Hr.
  - destruct (isConnected (Server.transport_ s)) eqn:Hconn;
      [|by apply (stdio_request_dropped s w r)].
    rewrite (handleMessage_decoded s w r Hr).
    unfold Server.handleRequest.
    destruct (Request_deserialize_has_id w r Hr) as [id Hid]. rewrite Hid.
    destruct (Server.dispatch s (req_method r) (req_params r)) as [result|e] eqn:Hd.
    + exists (Response_result id result).
      rewrite (stdio_write_connected s _ Hconn). by simpl.
    + destruct e as [e0|je|msg].
      * exists (Response_error id e0).
        rewrite (stdio_write_connected s _ Hconn). simpl. eauto 10.
      * exists (Response_error id (MCPError2 InternalError
                                     ("Internal error: " +:+ exn_what (ExJson je)))).
        rewrite (stdio_write_connected s _ Hconn). simpl. eauto 10.
      * exists (Response_error id (MCPError2 InternalError
                                     ("Internal error: " +:+ exn_what (ExStd msg)))).
        rewrite (stdio_write_connected s _ Hconn). simpl. eauto 10.
  - unfold Server.handleMessage. by rewrite Hr.
Qed.

(** The frame of a Notification decodes as a Request with the null id. *)
Lemma Request_deserialize_Notification n :
  Request_deserialize (Notification_serialize n)
  = Ret (Request_new IdNull (notif_method n) (read_back (notif_params n))).
Proof.
  unfold Notification_serialize, json_dump.
  rewrite (Request_deserialize_object _ _ (json_parse_object _)), version_ok_Notification.
  cbn [negb]. rewrite !lookup_fmap, !Notification_document_lookup. simpl.
  unfold Request_new, params_member, read_back, object_if_null.
  by destruct (notif_params n).
Qed.

(** A notification is handled as a request: the server on a connected stdio
    transport answers a notification whose method is none of the seven
    requests (so also [notifications/initialized]) with a "method not found"
    error frame that has no id, and its [initialized_] flag stays as it was. *)
Theorem server_answers_notifications
    (s : Server.MCPServer StdioTransport) (n : Notification) :
  isConnected (Server.transport_ s) = true ->
  known_method (notif_method n) = false ->
  let s' := Server.handleMessage s (Notification_serialize n) in
  let response :=
    Response_error IdNull
      (MCPError2 MethodNotFound ("Method not found: " +:+ notif_method n)) in
  stdio_cout (Server.transport_ s')
    = stdio_cout (Server.transport_ s) ++ [Response_serialize response] /\
  Response_document response !! "id" = None /\
  Server.initialized_ s' = Server.initialized_ s /\
  Server.log_ s' = Server.log_ s.
Proof.
  intros Hconn Hm s' response. subst s'.
  assert (Hr : Request_deserialize (Notification_serialize n)
               = Ret (Request_new IdNull (notif_method n) (read_back (notif_params n)))).
  { apply Request_deserialize_Notification. }
  rewrite (handleMessage_decoded s _ _ Hr).
  unfold Server.handleRequest. cbn [Request_new req_id req_method req_params].
  rewrite (dispatch_unknown s _ _ Hm).
  rewrite (stdio_write_connected s _ Hconn). simpl.
  split; [done|]. split; [|done].
  subst response. by rewrite Response_document_lookup.
Qed.

Lemma server_answers_notifications_witness :
  let n := Notification_new "notifications/initialized" JNull in
  let s' := Server.handleMessage server0 (Notification_serialize n) in
  let response :=
    Response_error IdNull
      (MCPError2 MethodNotFound "Method not found: notifications/initialized") in
  stdio_cout (Server.transport_ s') = [] ++ [Response_serialize response] /\
  Response_document response !! "id" = None /\
  Server.initialized_ s' = false /\
  Server.log_ s' = [].
Proof.
  apply (server_answers_notifications server0
           (Notification_new "notifications/initialized" JNull)); reflexivity.
Defined.

(** ** server.cpp: the listings *)

Lemma String_leb_ne_ltb a b : String.leb a b = true -> a <> b -> String.ltb a b = true.
Proof.
  unfold String.leb, String.ltb. destruct (String.compare a b) eqn:Hc; try done.
  intros _ Hne. by apply String.compare_eq_iff in Hc.
Qed.

#[local] Instance key_le_total {V} : Total (@key_le V).
Proof. intros a b. unfold key_le. apply String.leb_total. Qed.

Lemma Sorted_keys_strict {V} (l : list (string * V)) :
  Sorted key_le l -> NoDup l.*1 -> Sorted (fun a b => String.ltb a b = true) l.*1.
Proof.
  induction 1 as [|[k v] l Hs IH Hhd]; simpl; intros Hnd; [constructor|].
  apply NoDup_cons in Hnd as [Hk Hnd]. constructor; [by apply IH|].
  destruct Hhd as [|[k' v'] l' Hle]; simpl; constructor.
  unfold key_le in Hle; simpl in Hle.
  apply String_leb_ne_ltb; [done|]. intros ->. apply Hk. simpl. apply elem_of_cons. by left.
Qed.

(** Iteration over a [std::map]: every entry once, by ascending key. *)
Lemma in_key_order_listing {V} (m : gmap string V) : key_ordered_listing m (in_key_order m).
Proof.
  unfold key_ordered_listing, in_key_order.
  pose proof (merge_sort_Permutation key_le (map_to_list m)) as Hp.
  split.
  - intros k v. rewrite Hp. apply elem_of_map_to_list.
  - apply Sorted_StronglySorted.
    + intros a b c. apply String_ltb_trans.
    + apply Sorted_keys_strict; [apply Sorted_merge_sort, _|].
      rewrite Hp. apply NoDup_fst_map_to_list.
Qed.

Section Listings.
Context {T : Type} `{ITransport T}.
Implicit Types s : Server.MCPServer T.

(** [tools/list], [resources/list] and [prompts/list] never fail, whatever
    the params are: the result holds one element for each registered entry, with
    the key and the info it was registered with, by ascending key. *)
Theorem list_handlers_in_key_order s (params : json) :
  (exists entries,
     key_ordered_listing (getTools (Server.tool_registry_ s)) entries /\
     Server.handleToolsList s params
     = Ret (JObject (<["tools" := JArray (uncurry tool_listing <$> entries)]> ∅))) /\
  (exists entries,
     key_ordered_listing (getResources (Server.resource_registry_ s)) entries /\
     Server.handleResourcesList s params
     = Ret (JObject (<["resources" := JArray (uncurry resource_listing <$> entries)]> ∅))) /\
  (exists entries,
     key_ordered_listing (getPrompts (Server.prompt_registry_ s)) entries /\
     Server.handlePromptsList s params
     = Ret (JObject (<["prompts" := JArray (uncurry prompt_listing <$> entries)]> ∅))).
Proof.
  split; [|split]; eexists; (split; [apply in_key_order_listing|]).
  - reflexivity.
  - reflexivity.
  - reflexivity.
Qed.

Lemma empty_map_fmap {A B} (f : A -> B) (m : gmap string A) :
  empty_map (f <$> m) = bool_decide (m = ∅).
Proof.
  unfold empty_map. destruct (map_to_list (f <$> m)) eqn:Hl.
  - apply map_to_list_empty_iff, fmap_empty_iff in Hl. by rewrite bool_decide_eq_true_2.
  - rewrite bool_decide_eq_false_2; [done|]. intros ->.
    by rewrite fmap_empty, map_to_list_empty in Hl.
Qed.

(** The capabilities that [initialize] reports: a member, whose value is the
    empty object, for each registry that is not empty, and no other member.
    When the three registries are empty the value is null, not an object. *)
Theorem capabilities_reflect_registries s :
  let capabilities := Server.build_capabilities s in
  (capabilities = JNull <->
     Server.tool_registry_ s = ∅ /\ Server.resource_registry_ s = ∅ /\
     Server.prompt_registry_ s = ∅) /\
  (contains capabilities "tools" = true <-> Server.tool_registry_ s <> ∅) /\
  (contains capabilities "resources" = true <-> Server.resource_registry_ s <> ∅) /\
  (contains capabilities "prompts" = true <-> Server.prompt_registry_ s <> ∅) /\
  (forall k, contains capabilities k = true ->
             k ∈ capability_keys /\ at_key capabilities k = Ret json_object).
Proof.
  intros capabilities. subst capabilities.
  unfold Server.build_capabilities, getTools, getResources, getPrompts.
  rewrite !empty_map_fmap.
  assert (Hk : forall (m : gmap string json) k,
            (forall k' v, m !! k' = Some v -> k' ∈ capability_keys /\ v = json_object) ->
            contains (JObject m) k = true ->
            k ∈ capability_keys /\ at_key (JObject m) k = Ret json_object).
  { intros m k Hm. rewrite contains_object, at_key_object.
    intros [v Hv]%bool_decide_eq_true. rewrite Hv.
    destruct (Hm k v Hv) as [? ->]. done. }
  assert (Hnull : forall k, contains JNull k = true ->
                             k ∈ capability_keys /\ at_key JNull k = Ret json_object)
    by (intros k; unfold contains; discriminate).
  destruct (decide (Server.tool_registry_ s = ∅)) as [Ht|Ht];
    [rewrite (bool_decide_eq_true_2 _ Ht)|rewrite (bool_decide_eq_false_2 _ Ht)];
    (destruct (decide (Server.resource_registry_ s = ∅)) as [Hr|Hr];
      [rewrite (bool_decide_eq_true_2 _ Hr)|rewrite (bool_decide_eq_false_2 _ Hr)]);
    (destruct (decide (Server.prompt_registry_ s = ∅)) as [Hp|Hp];
      [rewrite (bool_decide_eq_true_2 _ Hp)|rewrite (bool_decide_eq_false_2 _ Hp)]);
    cbn [negb Server.set_capability];
    repeat match goal with
           | |- context [contains ?c ?k] =>
               lazymatch k with
               | String _ _ =>
                   let b := eval vm_compute in (contains c k) in
                   change (contains c k) with b
               end
           end;
    (split; [split; [try discriminate; done|intros (?&?&?); done]|]);
    (split; [split; [try discriminate; done|try done; intros Hc; by destruct Hc]|]);
    (split; [split; [try discriminate; done|try done; intros Hc; by destruct Hc]|]);
    (split; [split; [try discriminate; done|try done; intros Hc; by destruct Hc]|]);
    try exact Hnull;
    intros k; apply Hk; intros k' v; unfold capability_keys;
    rewrite ?lookup_insert_Some, ?lookup_singleton_Some, ?lookup_empty, !elem_of_cons;
    intuition (subst; auto 10).
Qed.

End Listings.

(** ** server.cpp and tools.cpp: a tool that throws *)

Lemma tool_call_params_lookup name arguments :
  contains (tool_call_params name arguments) "name" = true /\
  at_key (tool_call_params name arguments) "name" = Ret (JString name) /\
  Server.arguments_of (tool_call_params name arguments) = Ret arguments.
Proof.
  unfold tool_call_params, Server.arguments_of, value_or_object.
  rewrite !contains_object, !at_key_object.
  assert (H1 : (<["arguments" := arguments]> (<["name" := JString name]> ∅) : gmap string json)
               !! "name" = Some (JString name)) by reflexivity.
  assert (H2 : (<["arguments" := arguments]> (<["name" := JString name]> ∅) : gmap string json)
               !! "arguments" = Some arguments) by reflexivity.
  by rewrite H1, H2.
Qed.

Lemma handleToolCall_params {T : Type} `{ITransport T} (s : Server.MCPServer T) name arguments :
  Server.handleToolCall s (tool_call_params name arguments)
  = callTool (Server.tool_registry_ s) name arguments.
Proof.
  unfold Server.handleToolCall.
  destruct (tool_call_params_lookup name arguments) as (-> & -> & ->). done.
Qed.

(** Whatever a tool handler throws, also an [MCPError] with a code and data
    of its own, the server answers the call with the code -32603: the message
    is the [what()] of the exception after "Tool execution error: ", and the
    error has no data. *)
Theorem tool_exception_is_internal_error
    (s : Server.MCPServer StdioTransport) (id : RequestId) (name : string)
    (arguments : json) (t : ToolEntry) (e : exn) :
  isConnected (Server.transport_ s) = true ->
  Server.tool_registry_ s !! name = Some t ->
  tool_handler t arguments = Throw e ->
  let error := MCPError2 InternalError ("Tool execution error: " +:+ exn_what e) in
  exists s',
    Server.handleRequest s (Request_new id "tools/call" (tool_call_params name arguments))
      = Ret s' /\
    stdio_cout (Server.transport_ s')
      = stdio_cout (Server.transport_ s) ++ [Response_serialize (Response_error id error)] /\
    toJson_members error !! "code" = Some (JInt (-32603)) /\
    toJson_members error !! "message"
      = Some (JString ("Tool execution error: " +:+ exn_what e)) /\
    toJson_members error !! "data" = None.
Proof.
  intros Hconn Ht He error.
  unfold Server.handleRequest. cbn [req_id req_method req_params Request_new].
  change (Server.dispatch s "tools/call" (tool_call_params name arguments))
    with (Server.handleToolCall s (tool_call_params name arguments)).
  rewrite handleToolCall_params. unfold callTool. rewrite Ht, He. cbn [rethrow_internal].
  rewrite (stdio_write_connected s _ Hconn).
  eexists. split; [reflexivity|]. split; [reflexivity|].
  by rewrite !toJson_lookup.
Qed.

Lemma tool_exception_is_internal_error_witness :
  exists s',
    Server.handleRequest server_with_examples
      (Request_new (IdInt 7) "tools/call" (tool_call_params "file_read" json_object))
      = Ret s' /\
    stdio_cout (Server.transport_ s')
      = [] ++ [Response_serialize
                 (Response_error (IdInt 7)
                    (MCPError2 InternalError
                       "Tool execution error: Missing required parameter: path"))] /\
    toJson_members (MCPError2 InternalError
                      "Tool execution error: Missing required parameter: path") !! "code"
      = Some (JInt (-32603)) /\
    toJson_members (MCPError2 InternalError
                      "Tool execution error: Missing required parameter: path") !! "message"
      = Some (JString "Tool execution error: Missing required parameter: path") /\
    toJson_members (MCPError2 InternalError
                      "Tool execution error: Missing required parameter: path") !! "data"
      = None.
Proof.
  apply (tool_exception_is_internal_error server_with_examples (IdInt 7) "file_read"
           json_object (mkToolEntry file_read_info FileReadTool_execute)
           (ExStd "Missing required parameter: path")); reflexivity.
Defined.

(** ** server.cpp: notifications sent, start and stop *)

(** [sendNotification] on a stdio transport.  When the server is running it
    writes exactly one frame, which has no id and which decodes to the
    Notification of the method with the params read back: the empty object for
    null params, and [null] for each number that is not finite; the params
    come back as they are exactly when they are not null and hold no number
    that is NaN or infinite.  When the server is not running (not started,
    stopped, or its transport disconnected) it throws "Server not running" and
    writes and logs nothing. *)
Theorem sendNotification_stdio
    (s : Server.MCPServer StdioTransport) (method : string) (params : json) :
  let notification := Notification_new method params in
  let frame := Notification_serialize notification in
  let r := (Server.sendNotification s method params).1 in
  let s' := (Server.sendNotification s method params).2 in
  if Server.isRunning s then
    r = Ret () /\
    stdio_cout (Server.transport_ s') = stdio_cout (Server.transport_ s) ++ [frame] /\
    Notification_document notification !! "id" = None /\
    Notification_deserialize frame = Ret (Notification_new method (read_back params)) /\
    (Notification_deserialize frame = Ret notification <-> comes_back params) /\
    Server.log_ s' = Server.log_ s ++ [(LvDebug, "Sent notification: " +:+ method)]
  else
    r = Throw (ExStd "Server not running") /\ s' = s.
Proof.
  intros notification frame r s'. subst r s'.
  unfold Server.sendNotification.
  destruct (Server.isRunning s) eqn:Hrun; cbn [negb]; [|done].
  assert (Hconn : isConnected (Server.transport_ s) = true).
  { unfold Server.isRunning in Hrun. by apply andb_true_iff in Hrun as [_ ?]. }
  rewrite (stdio_write_connected s _ Hconn). cbn [negb fst snd].
  split; [done|]. split; [done|]. split; [by rewrite Notification_document_lookup|].
  split; [apply Notification_serialize_deserialize|]. split; [|done].
  subst frame notification. rewrite Notification_serialize_deserialize, <- read_back_fix.
  unfold Notification_new. simpl. split; [by intros [= Hp]|intros Hp; by rewrite Hp].
Qed.

Lemma stdio_isConnected_connect (t : StdioTransport) :
  stdio_connected_ t = stdio_running_ t ->
  StdioTransport_isConnected (StdioTransport_connect t).2 = true.
Proof. destruct t as [[] [] ?]; simpl; intros; done. Qed.

(** The life cycle of a server on a stdio transport.  [start] always
    reports success and is idempotent; from a server that is not running, on
    a transport whose flags agree (every transport that [connect] and
    [disconnect] have made), it leads to a running server.  [stop] leads to a
    server that is not running, whatever the state: after it
    [sendNotification] throws and a request that arrives is dropped without
    an answer and without a log entry.  Neither of them writes a frame. *)
Theorem stdio_server_lifecycle (s : Server.MCPServer StdioTransport) :
  (Server.start s).1 = true /\
  Server.start (Server.start s).2 = (true, (Server.start s).2) /\
  (Server.running_ s = false ->
   stdio_connected_ (Server.transport_ s) = stdio_running_ (Server.transport_ s) ->
   Server.isRunning (Server.start s).2 = true) /\
  Server.isRunning (Server.stop s) = false /\
  Server.isRunning (Server.start (Server.stop s)).2 = true /\
  (forall method params,
     Server.sendNotification (Server.stop s) method params
     = (Throw (ExStd "Server not running"), Server.stop s)) /\
  (forall w request,
     Request_deserialize w = Ret request ->
     Server.handleMessage (Server.stop s) w = Server.stop s) /\
  stdio_cout (Server.transport_ (Server.start s).2) = stdio_cout (Server.transport_ s) /\
  stdio_cout (Server.transport_ (Server.stop s)) = stdio_cout (Server.transport_ s).
Proof.
  destruct s as [[conn run cout] running init tools resources prompts name version log].
  split; [by destruct running, conn|].
  split; [by destruct running, conn|].
  split; [simpl; intros -> <-; by destruct conn|].
  split; [done|]. split; [done|]. split; [done|].
  split; [|by destruct running, conn].
  intros w request Hr.
  by apply (stdio_request_dropped _ w request).
Qed.

(** ** tools.cpp and server.cpp: registering and unregistering *)

Lemma register_cases {V} kind Kind (m : gmap string V) key entry :
  (key = "" /\ register kind Kind m key entry = Throw (ExStd (Kind +:+ " cannot be empty"))) \/
  (key <> "" /\
   register kind Kind m key entry
   = Ret (<[key := entry]> m,
          (if bool_decide (is_Some (m !! key))
           then [(LvWarn, "Overwriting existing " +:+ kind +:+ ": " +:+ key)] else [])
          ++ [(LvInfo, "Registered " +:+ kind +:+ ": " +:+ key)])).
Proof.
  unfold register. case_bool_decide; [left|right]; done.
Qed.

Section Registering.
Context {T : Type} `{ITransport T}.
Implicit Types s : Server.MCPServer T.

Lemma logged_fields s entries :
  Server.transport_ (Server.logged entries s) = Server.transport_ s /\
  Server.tool_registry_ (Server.logged entries s) = Server.tool_registry_ s /\
  Server.log_ (Server.logged entries s) = Server.log_ s ++ entries.
Proof.
  unfold Server.logged. revert s.
  induction entries as [|[lv msg] entries IH]; intros s; simpl.
  - by rewrite app_nil_r.
  - destruct (IH (Server.logger lv msg s)) as (-> & -> & ->). simpl.
    by rewrite <- app_assoc.
Qed.

(** [MCPServer::registerTool].  An empty name throws and registers nothing.
    Any other name is registered, over an entry of the same name if there is
    one (a warning is logged then): afterwards a call of the tool runs the new
    handler, [tools/list] lists the tool with the new info, and the other
    tools are as before.  No frame is written. *)
Theorem registerTool_then_call s (name : string) (info : ToolInfo)
    (handler : json -> res json) :
  (name = "" ->
   Server.registerTool s name info handler = Throw (ExStd "Tool name cannot be empty")) /\
  (name <> "" ->
   exists s',
     Server.registerTool s name info handler = Ret s' /\
     Server.transport_ s' = Server.transport_ s /\
     hasTool (Server.tool_registry_ s') name = true /\
     (forall arguments,
        Server.handleToolCall s' (tool_call_params name arguments)
        = rethrow_internal "Tool execution error: " (handler arguments)) /\
     (forall params, exists entries,
        Server.handleToolsList s' params
        = Ret (JObject (<["tools" := JArray (uncurry tool_listing <$> entries)]> ∅)) /\
        (name, info) ∈ entries) /\
     (forall other, other <> name ->
        Server.tool_registry_ s' !! other = Server.tool_registry_ s !! other) /\
     Server.log_ s'
     = Server.log_ s ++
       (if hasTool (Server.tool_registry_ s) name
        then [(LvWarn, "Overwriting existing tool: " +:+ name)] else []) ++
       [(LvInfo, "Registered tool: " +:+ name)]).
Proof.
  unfold Server.registerTool, registerTool.
  destruct (register_cases "tool" "Tool name" (Server.tool_registry_ s) name
              (mkToolEntry info handler)) as [[-> ->]|[Hne ->]].
  - split; [done|]. intros Hc. by destruct Hc.
  - split; [done|]. intros _. cbn [mbind res_bind].
    eexists. split; [reflexivity|].
    match goal with |- context [Server.logged ?es ?s0] =>
      destruct (logged_fields s0 es) as (Ht & Hr & Hl)
    end.
    rewrite Ht, Hl. cbn [Server.set_tool_registry Server.transport_ Server.log_].
    split; [done|].
    split; [unfold hasTool; rewrite Hr; simpl; by rewrite lookup_insert_eq|].
    split.
    { intros arguments. rewrite handleToolCall_params, Hr. simpl.
      unfold callTool. by rewrite lookup_insert_eq. }
    split.
    { intros params. eexists. split; [reflexivity|].
      apply (in_key_order_listing (getTools _)).
      rewrite Hr. simpl. unfold getTools. by rewrite lookup_fmap, lookup_insert_eq. }
    split; [|done].
    intros other Hother. rewrite Hr. simpl. by rewrite lookup_insert_ne.
Qed.

End Registering.

(** [unregisterTool].  Afterwards the registry has no tool of the name and a
    call of it fails with "Tool not found"; the other tools are as before.
    Unregistering a name that is not registered changes nothing and logs
    nothing, and unregistering a tool that was registered under a new name
    gives back the registry from before. *)
Theorem unregisterTool_laws (tools_ : gmap string ToolEntry) (name : string) (arguments : json) :
  let tools' := (unregisterTool tools_ name).1 in
  hasTool tools' name = false /\
  callTool tools' name arguments
    = Throw (ExMCP (MCPError2 MethodNotFound ("Tool not found: " +:+ name))) /\
  (forall other, other <> name -> tools' !! other = tools_ !! other) /\
  (hasTool tools_ name = false -> unregisterTool tools_ name = (tools_, [])) /\
  (forall info handler registered entries,
     hasTool tools_ name = false ->
     registerTool tools_ name info handler = Ret (registered, entries) ->
     (unregisterTool registered name).1 = tools_).
Proof.
  intros tools'. subst tools'. unfold unregisterTool, unregister, hasTool, callTool.
  destruct (tools_ !! name) as [t|] eqn:Ht; simpl.
  - rewrite lookup_delete_eq. split; [done|]. split; [done|].
    split; [intros other Hother; by rewrite lookup_delete_ne|].
    split; [discriminate|].
    intros info handler registered entries. discriminate.
  - rewrite Ht. split; [done|]. split; [done|]. split; [done|]. split; [done|].
    intros info handler registered entries _.
    unfold registerTool.
    destruct (register_cases "tool" "Tool name" tools_ name (mkToolEntry info handler))
      as [[-> ->]|[Hne ->]]; [done|].
    intros [= <- _]. rewrite lookup_insert_eq. simpl.
    by rewrite delete_insert_eq, delete_id.
Qed.

(** No registry that is made from the empty one holds a tool whose name is
    empty: a call of the tool "" is always answered "Tool not found". *)
Theorem ToolRegistry_no_empty_name (tools_ : gmap string ToolEntry) (arguments : json) :
  ToolRegistry_made tools_ ->
  hasTool tools_ "" = false /\
  callTool tools_ "" arguments = Throw (ExMCP (MCPError2 MethodNotFound "Tool not found: ")).
Proof.
  intros Hmade.
  assert (Hnone : tools_ !! "" = None).
  { induction Hmade as [|tools_ name info handler tools' entries Hmade IH Hreg
                        |tools_ name Hmade IH].
    - done.
    - unfold registerTool in Hreg.
      destruct (register_cases "tool" "Tool name" tools_ name (mkToolEntry info handler))
        as [[-> Hr]|[Hne Hr]]; rewrite Hr in Hreg; [done|].
      injection Hreg as <- _. by rewrite lookup_insert_ne.
    - unfold unregisterTool, unregister.
      destruct (tools_ !! name) eqn:Hn; simpl; [|done].
      destruct (decide (name = "")) as [->|Hne]; [by rewrite lookup_delete_eq|].
      by rewrite lookup_delete_ne. }
  unfold hasTool, callTool. by rewrite Hnone.
Qed.

Lemma ToolRegistry_no_empty_name_witness :
  hasTool (unregisterTool {["echo" := mkToolEntry echo_info EchoTool_execute]} "x").1 "" = false /\
  callTool (unregisterTool {["echo" := mkToolEntry echo_info EchoTool_execute]} "x").1 ""
           json_object
  = Throw (ExMCP (MCPError2 MethodNotFound "Tool not found: ")).
Proof.
  apply ToolRegistry_no_empty_name.
  apply ToolRegistry_unregistered.
  apply (ToolRegistry_registered ∅ "echo" echo_info EchoTool_execute _
           [(LvInfo, "Registered tool: echo")]); [apply ToolRegistry_empty|reflexivity].
Defined.

(** ** client.cpp: what the router does with each kind of frame *)

Section ClientRouter.
Context {T : Type} `{ITransport T}.
Implicit Types c : Client.MCPClient T.

Lemma Response_deserialize_Request r :
  Response_deserialize (Request_serialize r)
  = Throw (ExMCP (MCPError2 InvalidRequest "Missing result or error")).
Proof.
  unfold Request_serialize, json_dump.
  rewrite (Response_deserialize_object _ _ (json_parse_object _)), version_ok_Request.
  cbn [negb]. by rewrite !lookup_fmap, !Request_document_lookup.
Qed.

Lemma Response_deserialize_Notification n :
  Response_deserialize (Notification_serialize n)
  = Throw (ExMCP (MCPError2 InvalidRequest "Missing result or error")).
Proof.
  unfold Notification_serialize, json_dump.
  rewrite (Response_deserialize_object _ _ (json_parse_object _)), version_ok_Notification.
  cbn [negb]. by rewrite !lookup_fmap, !Notification_document_lookup.
Qed.

Lemma handleResponse_calls c response k :
  k ∈ Client.calls_ (Client.handleResponse c response).1 ->
  k ∈ Client.calls_ c \/ is_CallResponse k.
Proof.
  unfold Client.handleResponse.
  destruct (resp_id response) as [id|]; [|simpl; eauto].
  destruct (Client.pending_requests_ c !! id) as [promise|]; [|simpl; eauto].
  unfold Client.satisfy. cbn [Client.promises_ Client.set_pending].
  destruct (Client.promises_ c !! promise) as [[]|]; simpl; eauto.
  destruct (Client.responseCallback_ c) as [callback|]; simpl; eauto.
  assert (Hin : k ∈ Client.calls_ c ++ [CallResponse id response] ->
                k ∈ Client.calls_ c \/ is_CallResponse k).
  { rewrite elem_of_app, elem_of_cons, elem_of_nil. intros [?|[->|[]]]; [by left|right].
    by exists id, response. }
  by destruct (callback id response).
Qed.

Lemma caught_calls (o : Client.MCPClient T * option exn) : Client.calls_ (Client.caught o) = Client.calls_ o.1.
Proof. by destruct o as [c [e|]]. Qed.

(** The client never delivers a notification.  The frame of a Notification
    (what [MCPServer::sendNotification] writes) and the frame of a Request
    leave one error in the log and nothing else; and whatever the
    frame is, no subscription and no notification callback is called: the only
    callback that [handleMessage] calls is the response callback. *)
Theorem client_never_delivers_notifications c :
  (forall n : Notification,
     Client.handleMessage c (Notification_serialize n)
     = Client.logger LvError "Failed to handle message: Missing result or error" c) /\
  (forall r : Request,
     Client.handleMessage c (Request_serialize r)
     = Client.logger LvError "Failed to handle message: Missing result or error" c) /\
  (forall (w : wire) (k : callback_call),
     k ∈ Client.calls_ (Client.handleMessage c w) ->
     k ∈ Client.calls_ c \/ is_CallResponse k).
Proof.
  split; [|split].
  - intros n. unfold Client.handleMessage. by rewrite Response_deserialize_Notification.
  - intros r. unfold Client.handleMessage. by rewrite Response_deserialize_Request.
  - intros w k. destruct (Response_deserialize w) as [r|e] eqn:Hr.
    + rewrite (handleMessage_decoded_response c w r Hr), caught_calls.
      apply handleResponse_calls.
    + unfold Client.handleMessage. rewrite Hr. simpl. eauto.
Qed.

(** *** The flag [initialized_] *)

Lemma foldl_onError_initialized_client c errors :
  Client.initialized_ (foldl Client.onError c errors) = Client.initialized_ c.
Proof.
  revert c. induction errors as [|e errors IH]; intros c; simpl; [done|].
  by rewrite IH.
Qed.

Lemma transport_write_initialized_client c frame :
  Client.initialized_ (Client.transport_write c frame).2 = Client.initialized_ c.
Proof.
  unfold Client.transport_write.
  destruct (write (Client.transport_ c) frame) as [[ok t] errors]; simpl.
  by rewrite foldl_onError_initialized_client.
Qed.

Lemma sendRequest_initialized c method params :
  Client.initialized_ (Client.sendRequest c method params).2 = Client.initialized_ c.
Proof.
  unfold Client.sendRequest.
  destruct (negb (Client.isConnected c)); [done|].
  cbn [Client.make_promise].
  match goal with |- context [Client.transport_write ?c0 ?f] =>
    pose proof (transport_write_initialized_client c0 f) as Hw;
    pose proof (transport_write_fields c0 f) as Hf;
    destruct (Client.transport_write c0 f) as [ok c1]
  end.
  cbn [fst snd] in *. simpl in Hw.
  destruct ok; cbn [negb]; [done|].
  unfold Client.satisfy. cbn [Client.promises_ Client.set_pending].
  match goal with |- context [?ps !! ?p] => destruct (ps !! p) as [[]|] end; done.
Qed.

Lemma handleResponse_initialized c response :
  Client.initialized_ (Client.handleResponse c response).1 = Client.initialized_ c.
Proof.
  unfold Client.handleResponse.
  destruct (resp_id response) as [id|]; [|done].
  destruct (Client.pending_requests_ c !! id) as [promise|]; [|done].
  unfold Client.satisfy. cbn [Client.promises_ Client.set_pending].
  destruct (Client.promises_ c !! promise) as [[]|]; simpl; try done.
  destruct (Client.responseCallback_ c) as [callback|]; simpl; [|done].
  by destruct (callback id response).
Qed.

Lemma handleNotification_initialized c notification :
  Client.initialized_ (Client.handleNotification c notification).1 = Client.initialized_ c.
Proof.
  unfold Client.handleNotification.
  destruct (Client.subscriptions_ c !! notif_method notification) as [sub|].
  - destruct (sub (notif_params notification)); simpl; [|done].
    destruct (Client.notificationCallback_ c) as [callback|]; simpl; [|done].
    by destruct (callback (notif_method notification) (notif_params notification)).
  - destruct (Client.notificationCallback_ c) as [callback|]; simpl; [|done].
    by destruct (callback (notif_method notification) (notif_params notification)).
Qed.

Lemma caught_initialized (o : Client.MCPClient T * option exn) :
  Client.initialized_ (Client.caught o) = Client.initialized_ o.1.
Proof. by destruct o as [c [e|]]. Qed.

Lemma handleMessage_initialized_client c w :
  Client.initialized_ (Client.handleMessage c w) = Client.initialized_ c.
Proof.
  unfold Client.handleMessage.
  destruct (Response_deserialize w) as [response|e]; [|done].
  case_bool_decide.
  - by rewrite caught_initialized, handleResponse_initialized.
  - destruct (Notification_deserialize w) as [n|e]; [|done].
    by rewrite caught_initialized, handleNotification_initialized.
Qed.

Lemma initialize_initialized c clientInfo :
  Client.initialized_ (Client.initialize c clientInfo).2 = Client.initialized_ c.
Proof.
  unfold Client.initialize. destruct (negb (Client.isConnected c)); [done|].
  apply sendRequest_initialized.
Qed.

(** The handshake does not initialize the client.  Neither [initialize] nor
    any frame that arrives afterwards changes [initialized_]; so when the
    client was not initialized, each of [callTool], [listTools],
    [readResource], [listResources], [getPrompt] and [listPrompts] still
    throws "Client not initialized" after the handshake, and leaves the client
    as it is (no frame is written), until [setInitialized] is called. *)
Theorem handshake_leaves_client_uninitialized c (clientInfo : Client.ClientInfo)
    (answer : wire) (name : string) (arguments : json) :
  let c' := Client.handleMessage (Client.initialize c clientInfo).2 answer in
  Client.isInitialized c' = Client.isInitialized c /\
  (Client.isInitialized c = false ->
   forall call, call ∈ api_calls c' name arguments ->
                call = (Throw (ExStd "Client not initialized"), c')) /\
  Client.isInitialized (Client.setInitialized c' true) = true.
Proof.
  intros c'.
  assert (Hinit : Client.initialized_ c' = Client.initialized_ c).
  { subst c'. by rewrite handleMessage_initialized_client, initialize_initialized. }
  split; [done|]. split; [|done].
  unfold Client.isInitialized. intros Hc call Hcall.
  rewrite Hc in Hinit. unfold api_calls in Hcall.
  unfold Client.callTool, Client.listTools, Client.readResource, Client.listResources,
    Client.getPrompt, Client.listPrompts, Client.when_initialized in Hcall.
  rewrite Hinit in Hcall. cbn [negb] in Hcall.
  rewrite !elem_of_cons, elem_of_nil in Hcall. intuition.
Qed.

End ClientRouter.

(** ** client.cpp and server.cpp: a request and its answer *)

Lemma client_stdio_write_connected (c : Client.MCPClient StdioTransport) frame :
  isConnected (Client.transport_ c) = true ->
  Client.transport_write c frame
  = (true, Client.set_transport c
             (mkStdio (stdio_connected_ (Client.transport_ c))
                      (stdio_running_ (Client.transport_ c))
                      (stdio_cout (Client.transport_ c) ++ [frame]))).
Proof.
  unfold Client.transport_write. simpl. unfold StdioTransport_write.
  intros ->. reflexivity.
Qed.

Lemma next_id_in_int {T : Type} (c : Client.MCPClient T) : in_int (Client.next_id c).
Proof. apply to_int_in_int. Qed.

(** [sendRequest] on a connected stdio transport. *)
Lemma sendRequest_stdio (c : Client.MCPClient StdioTransport) method params :
  Client.isConnected c = true ->
  let id := IdInt (Client.next_id c) in
  let frame := Request_serialize (Request_new id method params) in
  let sent := Client.sendRequest c method params in
  sent.1 = Ret (length (Client.promises_ c)) /\
  stdio_cout (Client.transport_ sent.2) = stdio_cout (Client.transport_ c) ++ [frame] /\
  Client.pending_requests_ sent.2
    = <[id := length (Client.promises_ c)]> (Client.pending_requests_ c) /\
  Client.promises_ sent.2 = Client.promises_ c ++ [Unset] /\
  Client.log_ sent.2 = Client.log_ c ++ [(LvDebug, "Sent request: " +:+ method)].
Proof.
  intros Hconn id frame sent. subst sent. unfold Client.sendRequest.
  rewrite Hconn. cbn [negb Client.make_promise].
  rewrite client_stdio_write_connected by exact Hconn.
  cbn [negb]. done.
Qed.

(** The request that the server decodes from the frame of [sendRequest]. *)
Lemma Request_deserialize_sent n method params :
  in_int n ->
  Request_deserialize (Request_serialize (Request_new (IdInt n) method params))
  = Ret (Request_new (IdInt n) method (read_back params)).
Proof.
  intros Hn. rewrite Request_serialize_deserialize. simpl. by rewrite to_int_id.
Qed.

(** [handleMessage] of the server on such a frame, on a connected stdio
    transport. *)
Lemma handleMessage_stdio_sent (s : Server.MCPServer StdioTransport) n method params :
  in_int n ->
  isConnected (Server.transport_ s) = true ->
  let frame := Request_serialize (Request_new (IdInt n) method params) in
  let answer := Response_of (IdInt n) (Server.dispatch s method (read_back params)) in
  stdio_cout (Server.transport_ (Server.handleMessage s frame))
    = stdio_cout (Server.transport_ s) ++ [Response_serialize answer] /\
  resp_id answer = Some (IdInt n).
Proof.
  intros Hn Hconn frame answer. subst frame answer.
  rewrite (handleMessage_decoded s _ _ (Request_deserialize_sent n method params Hn)).
  unfold Server.handleRequest. cbn [Request_new req_id req_method req_params].
  destruct (Server.dispatch s method (read_back params)) as [result|[e|e|e]];
    rewrite (stdio_write_connected s _ Hconn); done.
Qed.

(** [handleMessage] of the client on the frame of a Response whose id is
    pending: the promise of the id holds the Response as decoded. *)
Lemma handleMessage_resolves {T : Type} `{ITransport T} (c : Client.MCPClient T)
    (response : Response) n p :
  in_int n ->
  resp_id response = Some (IdInt n) ->
  match resp_error response with Some _ => resp_result response = json_object | None => True end ->
  Client.pending_requests_ c !! IdInt n = Some p ->
  Client.promises_ c !! p = Some Unset ->
  let c' := Client.handleMessage c (Response_serialize response) in
  Client.promises_ c' = <[p := Value (as_received response)]> (Client.promises_ c) /\
  Client.pending_requests_ c' = delete (IdInt n) (Client.pending_requests_ c).
Proof.
  intros Hn Hid Hres Hp Hu c'. subst c'.
  assert (Hd : Response_deserialize (Response_serialize response) = Ret (as_received response)).
  { rewrite Response_serialize_deserialize. unfold as_received.
    destruct response as [id result [e|]]; simpl in *; subst; simpl;
      unfold Response_error, Response_result; by rewrite to_int_id. }
  rewrite (handleMessage_decoded_response c _ _ Hd).
  assert (Hid' : resp_id (as_received response) = Some (IdInt n)).
  { unfold as_received. by destruct (resp_error response). }
  unfold Client.handleResponse. rewrite Hid', Hp.
  unfold Client.satisfy. cbn [Client.promises_ Client.set_pending]. rewrite Hu.
  destruct (Client.responseCallback_ c) as [callback|] eqn:Hcb; simpl; rewrite ?Hcb; simpl.
  - by destruct (callback (IdInt n) (as_received response)).
  - done.
Qed.

Lemma Response_of_shape id outcome :
  resp_id (Response_of id outcome) = Some id /\
  match resp_error (Response_of id outcome) with
  | Some _ => resp_result (Response_of id outcome) = json_object
  | None => True
  end.
Proof. by destruct outcome as [r|[]]. Qed.

(** The exchange, with the states written out. *)
Lemma exchange_stdio (c : Client.MCPClient StdioTransport)
    (s : Server.MCPServer StdioTransport) method params :
  Client.isConnected c = true ->
  isConnected (Server.transport_ s) = true ->
  let id := IdInt (Client.next_id c) in
  let request_frame := Request_serialize (Request_new id method params) in
  let answer := Response_of id (Server.dispatch s method (read_back params)) in
  let sent := Client.sendRequest c method params in
  sent.1 = Ret (length (Client.promises_ c)) /\
  stdio_cout (Client.transport_ sent.2) = stdio_cout (Client.transport_ c) ++ [request_frame] /\
  stdio_cout (Server.transport_ (Server.handleMessage s request_frame))
    = stdio_cout (Server.transport_ s) ++ [Response_serialize answer] /\
  Client.promises_ (Client.handleMessage sent.2 (Response_serialize answer))
    !! length (Client.promises_ c) = Some (Value (as_received answer)).
Proof.
  intros Hc Hs id request_frame answer sent.
  destruct (sendRequest_stdio c method params Hc) as (Hfut & Hcout & Hpend & Hprom & _).
  destruct (handleMessage_stdio_sent s (Client.next_id c) method params
              (next_id_in_int c) Hs) as [Hanswer _].
  destruct (Response_of_shape id (Server.dispatch s method (read_back params)))
    as [Hid Hres].
  split; [done|]. split; [done|]. split; [done|].
  destruct (handleMessage_resolves sent.2 answer (Client.next_id c)
              (length (Client.promises_ c)) (next_id_in_int c) Hid Hres) as [Hp _].
  - subst sent. rewrite Hpend. apply lookup_insert_eq.
  - subst sent. rewrite Hprom. by rewrite lookup_app_r, Nat.sub_diag.
  - rewrite Hp. subst sent. rewrite Hprom.
    apply list_lookup_insert_eq. rewrite length_app. simpl. lia.
Qed.

(** A request and its answer over stdio.  The client sends a request, the
    server handles the frame that the client wrote, the client handles the
    frame that the server wrote: then the future that [sendRequest] returned
    holds the answer of the server's handler for the method, as the two frames
    carry it.  The handler gets the params as they are read back (the empty
    object for null params, [null] for each number that is not finite), and
    the future holds its result, or its error, read back in the same way
    (null data of an error as the empty object). *)
Theorem request_answered_end_to_end (c : Client.MCPClient StdioTransport)
    (s : Server.MCPServer StdioTransport) (method : string) (params : json) :
  Client.isConnected c = true ->
  isConnected (Server.transport_ s) = true ->
  let sent := Client.sendRequest c method params in
  exists future request_frame answer_frame,
    sent.1 = Ret future /\
    stdio_cout (Client.transport_ sent.2)
      = stdio_cout (Client.transport_ c) ++ [request_frame] /\
    stdio_cout (Server.transport_ (Server.handleMessage s request_frame))
      = stdio_cout (Server.transport_ s) ++ [answer_frame] /\
    Client.promises_ (Client.handleMessage sent.2 answer_frame) !! future
      = Some (Value (as_received
                       (Response_of (IdInt (Client.next_id c))
                          (Server.dispatch s method (read_back params))))).
Proof.
  intros Hc Hs sent.
  destruct (exchange_stdio c s method params Hc Hs) as (H1 & H2 & H3 & H4).
  eauto 10.
Qed.

Lemma request_answered_end_to_end_witness :
  let sent := Client.sendRequest client0 "tools/list" JNull in
  exists future request_frame answer_frame,
    sent.1 = Ret future /\
    stdio_cout (Client.transport_ sent.2) = [] ++ [request_frame] /\
    stdio_cout (Server.transport_ (Server.handleMessage server_with_examples request_frame))
      = [] ++ [answer_frame] /\
    Client.promises_ (Client.handleMessage sent.2 answer_frame) !! future
      = Some (Value (as_received
                       (Response_of (IdInt 1)
                          (Server.dispatch server_with_examples "tools/list" json_object)))).
Proof.
  apply (request_answered_end_to_end client0 server_with_examples "tools/list" JNull);
    reflexivity.
Defined.

Lemma read_back_tool_call_params name arguments :
  read_back (tool_call_params name arguments) = tool_call_params name (dumped arguments).
Proof.
  unfold read_back, tool_call_params, object_if_null. simpl.
  by rewrite !fmap_insert, fmap_empty.
Qed.

(** A call of a tool over stdio.  The arguments reach the handler as they
    are read back: each number that is not finite as [null].  When the client
    is initialized and the handler of the tool returns [r] for them, the future
    of [callTool] holds, after the exchange, a Response with the id of the
    request whose result is [r] read back: it is [r] itself when [r] holds no
    number that is NaN or infinite, and has [null] in the place of each such
    number otherwise. *)
Theorem callTool_end_to_end (c : Client.MCPClient StdioTransport)
    (s : Server.MCPServer StdioTransport) (name : string) (arguments : json)
    (t : ToolEntry) (r : json) :
  Client.isInitialized c = true ->
  Client.isConnected c = true ->
  isConnected (Server.transport_ s) = true ->
  Server.tool_registry_ s !! name = Some t ->
  tool_handler t (dumped arguments) = Ret r ->
  let called := Client.callTool c name arguments in
  exists future request_frame answer_frame,
    called.1 = Ret future /\
    stdio_cout (Client.transport_ called.2)
      = stdio_cout (Client.transport_ c) ++ [request_frame] /\
    stdio_cout (Server.transport_ (Server.handleMessage s request_frame))
      = stdio_cout (Server.transport_ s) ++ [answer_frame] /\
    Client.promises_ (Client.handleMessage called.2 answer_frame) !! future
      = Some (Value (Response_result (IdInt (Client.next_id c)) (dumped r))) /\
    (all_finite r = true <-> dumped r = r).
Proof.
  intros Hinit Hc Hs Ht Hr called. subst called.
  unfold Client.callTool, Client.when_initialized.
  unfold Client.isInitialized in Hinit. rewrite Hinit. cbn [negb].
  destruct (exchange_stdio c s "tools/call" (tool_call_params name arguments) Hc Hs)
    as (H1 & H2 & H3 & H4).
  rewrite read_back_tool_call_params in *.
  change (Server.dispatch s "tools/call" (tool_call_params name (dumped arguments)))
    with (Server.handleToolCall s (tool_call_params name (dumped arguments))) in *.
  rewrite handleToolCall_params in *. unfold callTool in *. rewrite Ht, Hr in *.
  eexists _, _, _. split; [exact H1|]. split; [exact H2|]. split; [exact H3|].
  split; [exact H4|apply all_finite_dumped].
Qed.

Lemma callTool_end_to_end_witness :
  let c := Client.setInitialized client0 true in
  let called := Client.callTool c "square" (JObject {["a" := JInt 10]}) in
  exists future request_frame answer_frame,
    called.1 = Ret future /\
    stdio_cout (Client.transport_ called.2) = [] ++ [request_frame] /\
    stdio_cout (Server.transport_ (Server.handleMessage server_with_overflow request_frame))
      = [] ++ [answer_frame] /\
    Client.promises_ (Client.handleMessage called.2 answer_frame) !! future
      = Some (Value (Response_result (IdInt 1) (JObject {["result" := JNull]}))) /\
    (all_finite overflow_result = true <-> dumped overflow_result = overflow_result).
Proof.
  apply (callTool_end_to_end (Client.setInitialized client0 true) server_with_overflow
           "square" (JObject {["a" := JInt 10]}) overflow_tool overflow_result); reflexivity.
Defined.

(** The result of [initialize] holds strings, empty objects and null only. *)
Lemma dumped_initialize_result {T : Type} `{ITransport T} (s : Server.MCPServer T) :
  dumped (JObject (Server.initialize_result s)) = JObject (Server.initialize_result s).
Proof.
  unfold Server.initialize_result. cbn [dumped].
  rewrite !fmap_insert, fmap_empty. do 2 f_equal.
  f_equal. f_equal.
  unfold Server.build_capabilities.
  destruct (negb (empty_map (getTools (Server.tool_registry_ s))));
    destruct (negb (empty_map (getResources (Server.resource_registry_ s))));
    destruct (negb (empty_map (getPrompts (Server.prompt_registry_ s))));
    reflexivity.
Qed.

(** The handshake over stdio.  The future of [initialize] holds, after the
    exchange, a result with the protocol version "2024-11-05", the
    capabilities and the name and version of the server; the server has not
    changed its [initialized_] flag by then. *)
Theorem handshake_end_to_end (c : Client.MCPClient StdioTransport)
    (s : Server.MCPServer StdioTransport) (clientInfo : Client.ClientInfo) :
  Client.isConnected c = true ->
  isConnected (Server.transport_ s) = true ->
  let sent := Client.initialize c clientInfo in
  exists future request_frame answer_frame result,
    sent.1 = Ret future /\
    stdio_cout (Client.transport_ sent.2)
      = stdio_cout (Client.transport_ c) ++ [request_frame] /\
    stdio_cout (Server.transport_ (Server.handleMessage s request_frame))
      = stdio_cout (Server.transport_ s) ++ [answer_frame] /\
    Client.promises_ (Client.handleMessage sent.2 answer_frame) !! future
      = Some (Value (Response_result (IdInt (Client.next_id c)) (JObject result))) /\
    result !! "protocolVersion" = Some (JString "2024-11-05") /\
    result !! "capabilities" = Some (Server.build_capabilities s) /\
    result !! "serverInfo" = Some (Server.build_serverInfo s) /\
    Server.initialized_ (Server.handleMessage s request_frame) = Server.initialized_ s.
Proof.
  intros Hc Hs sent. subst sent. unfold Client.initialize. rewrite Hc. cbn [negb].
  match goal with |- context [Client.sendRequest c "initialize" ?p] =>
    destruct (exchange_stdio c s "initialize" p Hc Hs) as (H1 & H2 & H3 & H4);
    change (Server.dispatch s "initialize" (read_back p))
      with (Ret (JObject (Server.initialize_result s)) : res json) in *
  end.
  unfold as_received in H4. cbn [Response_of resp_error resp_id resp_result Response_result] in H4.
  rewrite dumped_initialize_result in H4.
  eexists _, _, _, (Server.initialize_result s).
  split; [exact H1|]. split; [exact H2|]. split; [exact H3|]. split; [exact H4|].
  split; [reflexivity|]. split; [reflexivity|]. split; [reflexivity|].
  apply handleMessage_initialized.
Qed.

Lemma handshake_end_to_end_witness :
  let sent := Client.initialize client0 client_info in
  exists future request_frame answer_frame result,
    sent.1 = Ret future /\
    stdio_cout (Client.transport_ sent.2) = [] ++ [request_frame] /\
    stdio_cout (Server.transport_ (Server.handleMessage server_with_examples request_frame))
      = [] ++ [answer_frame] /\
    Client.promises_ (Client.handleMessage sent.2 answer_frame) !! future
      = Some (Value (Response_result (IdInt 1) (JObject result))) /\
    result !! "protocolVersion" = Some (JString "2024-11-05") /\
    result !! "capabilities" = Some (Server.build_capabilities server_with_examples) /\
    result !! "serverInfo" = Some (Server.build_serverInfo server_with_examples) /\
    Server.initialized_ (Server.handleMessage server_with_examples request_frame) = false.
Proof.
  apply (handshake_end_to_end client0 server_with_examples client_info); reflexivity.
Defined.

(** ** client.cpp: disconnecting *)

(** [disconnect] on a stdio transport abandons the requests in flight: their
    entries stay in the map and their promises stay as they are (a caller that
    waits on one of the futures is not woken).  Afterwards the client is
    neither connected nor initialized: [sendRequest] and [initialize] throw
    "Client not connected", the other calls throw "Client not initialized",
    and nothing is written.  [connect] connects again, and leaves the client
    uninitialized. *)
Theorem disconnect_abandons_requests (c : Client.MCPClient StdioTransport) :
  let c' := Client.disconnect c in
  Client.pending_requests_ c' = Client.pending_requests_ c /\
  Client.promises_ c' = Client.promises_ c /\
  Client.isConnected c' = false /\
  Client.isInitialized c' = false /\
  (forall method params,
     Client.sendRequest c' method params = (Throw (ExStd "Client not connected"), c')) /\
  (forall clientInfo,
     Client.initialize c' clientInfo = (Throw (ExStd "Client not connected"), c')) /\
  (forall name arguments call,
     call ∈ api_calls c' name arguments ->
     call = (Throw (ExStd "Client not initialized"), c')) /\
  (Client.connect c').1 = true /\
  Client.isConnected (Client.connect c').2 = true /\
  Client.isInitialized (Client.connect c').2 = false.
Proof.
  intros c'. subst c'.
  split; [done|]. split; [done|]. split; [done|]. split; [done|].
  split; [done|]. split; [done|]. split; [|done].
  intros name arguments call. unfold api_calls.
  rewrite !elem_of_cons, elem_of_nil. intuition.
Qed.

(** ** client.cpp: the correlation map in the states that the client reaches *)

Section ClientReachable.
Context {T : Type} `{ITransport T} `{ITransportLink T}.
Implicit Types c : Client.MCPClient T.

Lemma consistent_when_initialized c (k : res nat * Client.MCPClient T) :
  consistent c -> consistent k.2 -> consistent (Client.when_initialized c k).2.
Proof. unfold Client.when_initialized. by destruct (negb (Client.initialized_ c)). Qed.

Lemma consistent_step c c' : Client_step c c' -> consistent c -> consistent c'.
Proof.
  intros Hstep Hc.
  destruct Hstep as [method params Hn|clientInfo Hn|name arguments call Hn Hcall|message
                    | | |method callback|method|callback|callback|b].
  - by apply consistent_sendRequest.
  - unfold Client.initialize. destruct (negb (Client.isConnected c)); [done|].
    by apply consistent_sendRequest.
  - unfold api_calls in Hcall. rewrite !elem_of_cons, elem_of_nil in Hcall.
    destruct Hcall as [->|[->|[->|[->|[->|[->|[]]]]]]];
      apply consistent_when_initialized; try done; by apply consistent_sendRequest.
  - by apply consistent_handleMessage.
  - unfold Client.connect. destruct (connect (Client.transport_ c)) as [[] t];
      by apply (consistent_same_fields c).
  - by apply (consistent_same_fields c).
  - by apply (consistent_same_fields c).
  - by apply (consistent_same_fields c).
  - by apply (consistent_same_fields c).
  - by apply (consistent_same_fields c).
  - by apply (consistent_same_fields c).
Qed.

(** In every state that the client reaches, whatever is called on it and
    whatever arrives, the correlation map is consistent: each pending id is
    an integer that the counter has passed, no two ids share a promise, and
    the promise of a pending id is unsatisfied; and the id of the next request
    is not pending. *)
Theorem Client_reachable_consistent c :
  Client_reachable c ->
  consistent c /\
  (Client.request_id_counter_ c < INT_MAX ->
   Client.pending_requests_ c !! IdInt (Client.next_id c) = None).
Proof.
  intros [transport Hreach].
  assert (Hc : consistent c).
  { revert c Hreach. apply (rtc_ind_r (fun c => consistent c)).
    - apply consistent_new.
    - intros c1 c2 _ Hstep Hc1. by apply (consistent_step c1). }
  split; [done|]. by apply next_id_fresh.
Qed.

End ClientReachable.

Lemma Client_reachable_consistent_witness :
  consistent (Client.handleMessage
                (Client.sendRequest client0 "tools/list" json_object).2
                tools_list_answer).
Proof.
  apply (Client_reachable_consistent
           (Client.handleMessage (Client.sendRequest client0 "tools/list" json_object).2
                                 tools_list_answer)).
  exists stdio_up.
  eapply rtc_l; [apply (step_sendRequest _ "tools/list" json_object); reflexivity|].
  eapply rtc_l; [apply (step_handleMessage _ tools_list_answer)|].
  apply rtc_refl.
Defined.

(** ** stdio_transport.cpp: the reading thread and the writer *)

(** The reading thread calls the message callback on the delivered frames,
    one after the other in the order of the input, and does nothing else; with
    no callback installed it consumes the input and changes nothing. *)
Theorem read_thread_folds {S : Type} (onMessage : list ascii -> S -> S)
    (cin : list ascii) (s : S) :
  read_thread (Some onMessage) cin s = foldl (fun s line => onMessage line s) s (delivered cin) /\
  read_thread None cin s = s.
Proof.
  remember (length cin) as n eqn:Hn. revert cin Hn s.
  induction n as [n IH] using lt_wf_ind. intros cin -> s.
  rewrite (read_thread_step (Some onMessage) cin s), (read_thread_step None cin s),
    delivered_step.
  destruct (getline cin) as [[line rest]|] eqn:Hg; [|done].
  pose proof (getline_shorter _ _ _ Hg) as Hlt.
  rewrite foldl_app.
  destruct line as [|ch line]; simpl.
  - apply (IH _ Hlt rest eq_refl).
  - split; [apply (IH _ Hlt rest eq_refl)|].
    destruct (IH _ Hlt rest eq_refl s) as [_ Hnone]. exact Hnone.
Qed.

Lemma getline_app_newline line rest :
  newline ∉ line -> getline (line ++ newline :: rest) = Some (line, rest).
Proof.
  intros Hl. rewrite getline_extract; [by rewrite extract_newline|].
  by destruct line.
Qed.

(** A newline separates: what is delivered from a text, a newline and a
    second text is what is delivered from the first text (its last line ends
    at the newline) and then what is delivered from the second. *)
Theorem delivered_app_newline (a b : list ascii) :
  delivered (a ++ newline :: b) = delivered a ++ delivered b.
Proof.
  remember (length a) as n eqn:Hn. revert a Hn.
  induction n as [n IH] using lt_wf_ind. intros a ->.
  pose proof (extract_spec a) as Hspec.
  destruct (extract a) as [line rest]. simpl in Hspec.
  destruct Hspec as [Hno [[-> ->] | ->]].
  - (* [a] holds no newline *)
    rewrite (delivered_step (line ++ newline :: b)), (getline_app_newline line b Hno).
    rewrite (delivered_step line).
    destruct line as [|ch line]; [done|].
    rewrite getline_extract by done. rewrite extract_no_newline by done.
    simpl. by rewrite (delivered_step []).
  - (* [a] is a first line, a newline and the rest *)
    rewrite <- app_assoc. simpl.
    rewrite (delivered_step (line ++ newline :: rest ++ newline :: b)),
      (getline_app_newline line _ Hno).
    rewrite (delivered_step (line ++ newline :: rest)), (getline_app_newline line _ Hno).
    rewrite <- app_assoc. f_equal.
    apply (IH (length rest)); [|done].
    rewrite length_app. simpl. lia.
Qed.

(** Writer and reader agree on frames of one line.  When every frame is not
    empty and holds no newline, the reader delivers, from what the writer puts
    on the stream for the frames, exactly the frames, in their order. *)
Theorem delivered_on_the_wire (frames : list (list ascii)) :
  Forall one_line frames -> delivered (on_the_wire frames) = frames.
Proof.
  unfold on_the_wire.
  induction 1 as [|frame frames [Hne Hnl] _ IH].
  - by rewrite delivered_step.
  - rewrite fmap_cons. cbn [concat]. rewrite <- app_assoc. cbn [app].
    rewrite delivered_step, (getline_app_newline frame _ Hnl), IH.
    by destruct frame.
Qed.

Lemma delivered_on_the_wire_witness :
  delivered (on_the_wire [list_ascii_of_string "ab"; list_ascii_of_string "c"])
  = [list_ascii_of_string "ab"; list_ascii_of_string "c"].
Proof.
  apply delivered_on_the_wire.
  assert (Hab : one_line (list_ascii_of_string "ab")).
  { split; [discriminate|]. simpl. rewrite !elem_of_cons, elem_of_nil.
    intuition discriminate. }
  assert (Hc : one_line (list_ascii_of_string "c")).
  { split; [discriminate|]. simpl. rewrite !elem_of_cons, elem_of_nil.
    intuition discriminate. }
  apply Forall_cons. split; [exact Hab|]. apply Forall_cons. split; [exact Hc|].
  apply Forall_nil_2.
Defined.
